(** * win-gui-inspector: the accessibility-tree walkers, window resolution
      and the two exports, embedded from [inspector.py] and [mapper.py].

    The platform (pywinauto) is modelled as data: an element is a tree whose
    reads either return a value or raise.  The Python code is embedded in a
    small state-and-exception monad, so that [try]/[except], the mutable
    lists and the order of the platform calls read as in the source. *)

From Stdlib Require Import ZArith List String Bool Lia DecimalString.
From Stdlib Require Import Permutation Sorted.
Import ListNotations.
Open Scope string_scope.
Open Scope Z_scope.
Set Warnings "-register-all".

(* ================================================================== *)
(** ** Python values *)
(* ================================================================== *)

(** The values that occur in the dictionaries built by the walkers.  A
    dictionary keeps its insertion order (the YAML export relies on it), so
    it is an association list. *)
Inductive value : Type :=
| VNone
| VStr (s : string)
| VInt (z : Z)
| VList (xs : list value)
| VDict (kvs : list (string * value)).

Definition dict : Type := list (string * value).

(** Python truthiness, [if v:]. *)
Definition truthy (v : value) : bool :=
  match v with
  | VNone => false
  | VStr s => negb (s =? "")%string
  | VInt z => negb (z =? 0)%Z
  | VList xs => match xs with [] => false | _ => true end
  | VDict kvs => match kvs with [] => false | _ => true end
  end.

(** [d.get(k)] as an option: [None] when the key is absent. *)
Fixpoint lookup (d : dict) (k : string) : option value :=
  match d with
  | [] => None
  | (k', v) :: d' => if (k' =? k)%string then Some v else lookup d' k
  end.

(** [d.get(k)]: Python's [None] when the key is absent. *)
Definition get (d : dict) (k : string) : value :=
  match lookup d k with Some v => v | None => VNone end.

(** [d.get(k, default)]. *)
Definition get_default (d : dict) (k : string) (default : value) : value :=
  match lookup d k with Some v => v | None => default end.

(** [k in d]. *)
Definition has_key (d : dict) (k : string) : bool :=
  match lookup d k with Some _ => true | None => false end.

(** [v == s] for a value [v] and a [str] [s]: only the same string is equal. *)
Definition eq_str (v : value) (s : string) : bool :=
  match v with
  | VStr s' => (s' =? s)%string
  | _ => false
  end.

(** [a or b] on strings. *)
Definition str_or (a b : string) : string :=
  if (a =? "")%string then b else a.

(** [x or ""] where [x] is a string or [None]. *)
Definition or_empty (x : option string) : string :=
  match x with
  | Some s => s
  | None => ""
  end.

(** The items of a list value; a dictionary's [children] entry. *)
Definition as_list (v : value) : list value :=
  match v with
  | VList xs => xs
  | _ => []
  end.

(* ================================================================== *)
(** ** Exceptions and state *)
(* ================================================================== *)

(** The outcome of a read: a value, or [Exception(msg)]; [str(e)] is [msg]. *)
Inductive Result (A : Type) : Type :=
| Ok (a : A)
| Raise (msg : string).
Arguments Ok {A} a.
Arguments Raise {A} msg.

(** A computation over a mutable state [S] that returns or raises.  The
    state survives an exception, as a Python list mutated before a [raise]
    does. *)
Definition M (S A : Type) : Type := S -> Result A * S.

Definition ret {S A : Type} (a : A) : M S A :=
  fun s => (Ok a, s).

Definition raise {S A : Type} (msg : string) : M S A :=
  fun s => (Raise msg, s).

Definition bind {S A B : Type} (m : M S A) (k : A -> M S B) : M S B :=
  fun s =>
    match m s with
    | (Ok a, s') => k a s'
    | (Raise msg, s') => (Raise msg, s')
    end.

(** [try: m  except Exception as e: h(str(e))]. *)
Definition try_except {S A : Type} (m : M S A) (h : string -> M S A) : M S A :=
  fun s =>
    match m s with
    | (Ok a, s') => (Ok a, s')
    | (Raise msg, s') => h msg s'
    end.

(** A read of an attribute of an object already in hand. *)
Definition prop {S A : Type} (r : Result A) : M S A :=
  fun s => (r, s).

Definition modify {S : Type} (f : S -> S) : M S unit :=
  fun s => (Ok tt, f s).

Declare Scope monad_scope.
Delimit Scope monad_scope with monad.
Notation "x <- m ;; k" := (bind m (fun x => k))
  (at level 61, m at next level, right associativity) : monad_scope.
Notation "m ;;; k" := (bind m (fun _ => k))
  (at level 61, right associativity) : monad_scope.
Open Scope monad_scope.

(* ================================================================== *)
(** ** The accessibility platform *)
(* ================================================================== *)

(** [element.element_info]: each attribute read may raise on its own. *)
Record ElementInfo : Type := MkElementInfo {
  name : Result (option string);
  control_type : Result (option string);
  automation_id : Result (option string);
  class_name : Result (option string) }.

(** What [element.rectangle()] returns. *)
Record Rect : Type := MkRect {
  left : Result Z;
  top : Result Z;
  width : Result Z;
  height : Result Z }.

(** A pywinauto element (a window is one).  [children()] is an enumeration:
    it yields [children_items] in order and then either ends
    ([children_error = None]) or raises; a call that raises at once yields
    nothing.  The tree is finite. *)
Inductive Element : Type := MkElement {
  element_info : Result ElementInfo;
  rectangle : Result Rect;
  children_items : list Element;
  children_error : option string;
  legacy_properties : Result (list (string * string));
  get_toggle_state : Result Z;
  window_text : Result string;
  handle : Result Z }.

(** [Desktop(backend)]: the filtered enumeration, the plain one, and the
    plain one called again from the [except] branch of [find_windows]. *)
Record Desktop : Type := MkDesktop {
  windows_re : string -> Result (list Element);
  windows : Result (list Element);
  windows_again : Result (list Element) }.

(** The platform calls, logged in the order they are made. *)
Inductive Op : Type :=
| OpElementInfo
| OpRectangle
| OpChildren
| OpLegacyProperties
| OpGetToggleState
| OpWindowText
| OpHandle.

Inductive Call : Type :=
| ElementCall (op : Op) (e : Element)
| DesktopWindows (title_re : option string).

(** A state that keeps the log of the platform calls. *)
Class Logging (S : Type) : Type := {
  log_call : Call -> S -> S }.

#[global] Instance Logging_list : Logging (list Call) := {
  log_call c l := (l ++ [c])%list }.

(** A call on an element: logged, then its outcome. *)
Definition call {S A : Type} `{Logging S} (op : Op) (e : Element)
    (r : Result A) : M S A :=
  fun s => (r, log_call (ElementCall op e) s).

(** The end of [for child in element.children():]: the enumeration is
    exhausted, or raises. *)
Definition end_of_children {S : Type} (e : Element) : M S unit :=
  match children_error e with
  | None => ret tt
  | Some msg => raise msg
  end.

Notation "' pat <- m ;; k" := (bind m (fun x => let 'pat := x in k))
  (at level 61, pat pattern, m at next level, right associativity) : monad_scope.

(** Lines 92-96 of [inspector.py] and 106-110 of [mapper.py], which are the
    same: [info = element.element_info], then [info.name or ""] and the
    like, in the source's order; the first read that raises ends it. *)
Definition read_metadata {S : Type} `{Logging S} (element : Element)
    : M S (string * string * string * string) :=
  info <- call OpElementInfo element (element_info element) ;;
  name <- prop (name info) ;;
  control_type <- prop (control_type info) ;;
  automation_id <- prop (automation_id info) ;;
  class_name <- prop (class_name info) ;;
  ret (or_empty name, or_empty control_type, or_empty automation_id,
       or_empty class_name).

(* ================================================================== *)
(** ** The file system and the console *)
(* ================================================================== *)

(** A path as [pathlib] holds it: its parts.  [[]] is the current
    directory. *)
Definition path : Type := list string.

Fixpoint path_eqb (p q : path) : bool :=
  match p, q with
  | [], [] => true
  | a :: p', b :: q' => (a =? b)%string && path_eqb p' q'
  | _, _ => false
  end.

(** [str(p)]. *)
Definition path_str (p : path) : string := String.concat "/" p.

(** [p.parent]. *)
Definition parent (p : path) : path := removelast p.

(** The directories and files that exist, and what was printed.  A file's
    content is the document dumped into it; its rendering as YAML or JSON
    text is not modelled. *)
Record World : Type := MkWorld {
  dirs : list path;
  files : list (path * value);
  stdout : list string }.

Definition is_dir (w : World) (p : path) : bool :=
  match p with
  | [] => true
  | _ => existsb (path_eqb p) (dirs w)
  end.

Definition is_file (w : World) (p : path) : bool :=
  existsb (fun f => path_eqb p (fst f)) (files w).

(** The non-empty prefixes of a path, shortest first: the directories
    [mkdir(parents=True)] goes through. *)
Fixpoint prefixes (p : path) : list path :=
  match p with
  | [] => []
  | a :: p' => [a] :: map (cons a) (prefixes p')
  end.

(** [p.mkdir(parents=True, exist_ok=True)]: creates [p] and its missing
    ancestors; raises when [p] or an ancestor is a file. *)
Definition mkdir_parents (p : path) : M World unit :=
  fun w =>
    if existsb (is_file w) (prefixes p)
    then (Raise ("[Errno 17] File exists: " ++ path_str p), w)
    else
      (Ok tt,
       {| dirs := (dirs w ++
                   filter (fun q => negb (is_dir w q)) (prefixes p))%list;
          files := files w;
          stdout := stdout w |}).

(** [with open(p, "w") as f: dump(document, f)]: raises when the directory
    of [p] does not exist or [p] is a directory; otherwise the file holds
    [document]. *)
Definition open_write (p : path) (document : value) : M World unit :=
  fun w =>
    if negb (is_dir w (parent p))
    then (Raise ("[Errno 2] No such file or directory: " ++ path_str p), w)
    else if is_dir w p
    then (Raise ("[Errno 21] Is a directory: " ++ path_str p), w)
    else
      (Ok tt,
       {| dirs := dirs w;
          files := (p, document)
                   :: filter (fun f => negb (path_eqb p (fst f))) (files w);
          stdout := stdout w |}).

(** [print(line)]. *)
Definition print (line : string) : M World unit :=
  modify (fun w => {| dirs := dirs w; files := files w;
                      stdout := (stdout w ++ [line])%list |}).

(** The newline character of the messages. *)
Definition nl : string := String (Ascii.ascii_of_nat 10) "".

(** [str(z)] for an int. *)
Definition str_of_Z (z : Z) : string := NilZero.string_of_int (Z.to_int z).

(** [s * n]; the empty string when [n] is not positive. *)
Definition str_repeat (s : string) (n : Z) : string :=
  String.concat "" (repeat s (Z.to_nat n)).

(** [len(l)]. *)
Definition len {A : Type} (l : list A) : Z := Z.of_nat (List.length l).

(** The text an f-string gives for a value that is a [str], an [int] or
    [None].  The [repr] of a list or of a dictionary is not modelled: no
    entry that the code below formats holds one in a tree built by
    [scan_element], in a record of [map_window_elements] or in a descriptor
    of [find_windows], and the properties are stated for those. *)
Definition text_of (v : value) : string :=
  match v with
  | VStr s => s
  | VInt z => str_of_Z z
  | VNone => "None"
  | VList _ => ""
  | VDict _ => ""
  end.

(** [type(v).__name__]. *)
Definition type_name (v : value) : string :=
  match v with
  | VNone => "NoneType"
  | VStr _ => "str"
  | VInt _ => "int"
  | VList _ => "list"
  | VDict _ => "dict"
  end.

(** [a or b] on values. *)
Definition value_or (a b : value) : value :=
  if truthy a then a else b.

(* ================================================================== *)
(** ** [UIInspector] *)
(* ================================================================== *)

Module UIInspector.

Section Inspector.

(** [self.max_depth]. *)
Variable max_depth : Z.

(** Lines 101-110: the rectangle, or [None] when any of its reads raises. *)
Definition read_rect_info (element : Element) : M (list Call) value :=
  try_except
    (rect <- call OpRectangle element (rectangle element) ;;
     l <- prop (left rect) ;;
     t <- prop (top rect) ;;
     w <- prop (width rect) ;;
     h <- prop (height rect) ;;
     ret (VDict [("left", VInt l); ("top", VInt t);
                 ("width", VInt w); ("height", VInt h)]))
    (fun _ => ret VNone).

(** [UIInspector.scan_element].  The loop over [element.children()] sits
    in its own [try]: it stops at the first exception, from the
    enumeration or from a child's scan, and keeps what [result["children"]]
    holds by then. *)
Fixpoint scan_element (element : Element) (depth : Z) (parent_path : string)
    {struct element} : M (list Call) dict :=
  if depth >? max_depth then ret []
  else
    try_except
      ('(name, control_type, automation_id, class_name)
         <- read_metadata element ;;
       let path_segment := str_or (str_or automation_id name) control_type in
       let current_path :=
         if negb (parent_path =? "")%string
         then parent_path ++ "/" ++ path_segment
         else path_segment in
       rect_info <- read_rect_info element ;;
       call OpChildren element (Ok tt) ;;;
       children <-
         (fix loop (cs : list Element) (acc : list value) {struct cs}
            : M (list Call) (list value) :=
            match cs with
            | [] => try_except (end_of_children element ;;; ret acc)
                               (fun _ => ret acc)
            | child :: cs' =>
                fun s =>
                  match scan_element child (depth + 1) current_path s with
                  | (Ok child_info, s') =>
                      loop cs'
                        (if truthy (VDict child_info)
                         then (acc ++ [VDict child_info])%list
                         else acc) s'
                  | (Raise _, s') => (Ok acc, s')
                  end
            end) (children_items element) [] ;;
       ret [("name", VStr name);
            ("control_type", VStr control_type);
            ("automation_id", VStr automation_id);
            ("class_name", VStr class_name);
            ("path", VStr current_path);
            ("depth", VInt depth);
            ("rectangle", rect_info);
            ("children", VList children)])
      (fun e => ret [("error", VStr e); ("depth", VInt depth)]).

(** [UIInspector.find_elements_by_type]; [results] is the list that the
    recursive calls share and append to.  The walk follows
    [element.get("children", [])]; the entry is searched in place so that
    the recursion is structural ([find_elements_by_type_eq] below gives
    the equation with [get_default]).  A value that is not a dictionary
    has no [get]: it is left alone here, and no scanned tree has one. *)
Fixpoint find_elements_by_type (element : value) (control_type : string)
    (results : list value) {struct element} : list value :=
  match element with
  | VDict d =>
      let results1 :=
        if eq_str (get d "control_type") control_type
        then (results ++
              [VDict [("name", get_default d "name" (VStr ""));
                      ("automation_id",
                       get_default d "automation_id" (VStr ""));
                      ("path", get_default d "path" (VStr ""));
                      ("rectangle", get d "rectangle")]])%list
        else results in
      (fix children (kvs : dict) : list value :=
         match kvs with
         | [] => results1
         | (k, v) :: kvs' =>
             if (k =? "children")%string
             then
               match v with
               | VList xs =>
                   (fix loop (xs : list value) (acc : list value)
                      : list value :=
                      match xs with
                      | [] => acc
                      | child :: xs' =>
                          loop xs'
                            (find_elements_by_type child control_type acc)
                      end) xs results1
               | _ => results1
               end
             else children kvs'
         end) d
  | _ => results
  end.

(** [d[k] = v]: the entry is replaced where it is, or added at the end. *)
Definition set_item (d : dict) (k : string) (v : value) : dict :=
  if has_key d k
  then map (fun kv => if (fst kv =? k)%string then (k, v) else kv) d
  else (d ++ [(k, v)])%list.

(** [UIInspector.scan_current_screen], without its two progress lines:
    the root scan with [screen_name] and [scanned_at] added, stored under
    [screen_name] in [self.elements] (given and returned); [now] is
    [datetime.now().isoformat()]. *)
Definition scan_current_screen (window : Element) (screen_name : string)
    (now : string) (elements : dict) : M (list Call) (dict * dict) :=
  result <- scan_element window 0 "" ;;
  let result := set_item result "screen_name" (VStr screen_name) in
  let result := set_item result "scanned_at" (VStr now) in
  ret (result, set_item elements screen_name (VDict result)).

(** The entry of one screen in the export (lines 243-252): the five
    buckets, each a search of the screen's tree. *)
Definition screen_export (screen_data : value) : value :=
  VDict
    [("scanned_at",
      match screen_data with
      | VDict d => get d "scanned_at"
      | _ => VNone
      end);
     ("elements",
      VDict
        [("buttons", VList (find_elements_by_type screen_data "Button" []));
         ("text_fields", VList (find_elements_by_type screen_data "Edit" []));
         ("menu_items",
          VList (find_elements_by_type screen_data "MenuItem" []));
         ("tabs", VList (find_elements_by_type screen_data "TabItem" []));
         ("combo_boxes",
          VList (find_elements_by_type screen_data "ComboBox" []))])].

(** [UIInspector.export_to_yaml]; [elements] is [self.elements] and [now]
    is [datetime.now().isoformat()]. *)
Definition export_to_yaml (elements : dict) (output_path : option path)
    (now : string) : M World path :=
  let output_path :=
    match output_path with
    | None => ["inspector_export.yaml"]
    | Some p => p
    end in
  mkdir_parents (parent output_path) ;;;
  let export_data :=
    [("version", VStr "1.0");
     ("generated_at", VStr now);
     ("screens",
      VDict
        (map (fun screen => (fst screen, screen_export (snd screen)))
           elements))] in
  open_write output_path (VDict export_data) ;;;
  print (nl ++ "[OK] Exported to: " ++ path_str output_path) ;;;
  ret output_path.

End Inspector.

(** The control types that [print_element_tree] always prints and that
    [print_summary] lists. *)
Definition key_types : list string :=
  ["Button"; "Edit"; "MenuItem"; "TabItem"; "ComboBox"].

(** [for child in v:] where each child is then asked for [child.get]:
    the children to go through when [v] is a list; what Python raises when
    [v] cannot be iterated, or yields texts (the characters of a [str],
    the keys of a dictionary), which have no [get]. *)
Definition iterate_children (v : value) : Result (list value) :=
  match v with
  | VList xs => Ok xs
  | VNone => Raise "'NoneType' object is not iterable"
  | VInt _ => Raise "'int' object is not iterable"
  | VStr s =>
      if (s =? "")%string then Ok []
      else Raise "'str' object has no attribute 'get'"
  | VDict kvs =>
      match kvs with
      | [] => Ok []
      | _ => Raise "'str' object has no attribute 'get'"
      end
  end.

(** [UIInspector.print_element_tree]. *)
Fixpoint print_element_tree (element : value) (indent max_print_depth : Z)
    {struct element} : M World unit :=
  if indent >? max_print_depth * 2 then ret tt
  else
    match element with
    | VDict d =>
        let prefix := str_repeat "  " indent in
        let name := get_default d "name" (VStr "") in
        let ctrl_type := get_default d "control_type" (VStr "") in
        let auto_id := get_default d "automation_id" (VStr "") in
        (if truthy name || truthy auto_id
            || existsb (eq_str ctrl_type) key_types
         then
           let line := prefix ++ "[" ++ text_of ctrl_type ++ "]" in
           let line :=
             if truthy name then line ++ " '" ++ text_of name ++ "'"
             else line in
           let line :=
             if truthy auto_id then line ++ " (ID: " ++ text_of auto_id ++ ")"
             else line in
           print line
         else ret tt) ;;;
        (fix children (kvs : dict) : M World unit :=
           match kvs with
           | [] => ret tt
           | (k, v) :: kvs' =>
               if (k =? "children")%string
               then
                 match v with
                 | VList xs =>
                     (fix loop (xs : list value) : M World unit :=
                        match xs with
                        | [] => ret tt
                        | child :: xs' =>
                            print_element_tree child (indent + 1)
                              max_print_depth ;;;
                            loop xs'
                        end) xs
                 | _ => xs <- prop (iterate_children v) ;; ret tt
                 end
               else children kvs'
           end) d
    | _ => raise ("'" ++ type_name element ++ "' object has no attribute 'get'")
    end.

(** The key [type_counts] files a node under, and whether it can be a key:
    a list or a dictionary cannot ([TypeError: unhashable type]). *)
Definition count_key (d : dict) : Result value :=
  match get_default d "control_type" (VStr "Unknown") with
  | VList _ => Raise "unhashable type: 'list'"
  | VDict _ => Raise "unhashable type: 'dict'"
  | v => Ok v
  end.

(** Equality of two keys of [type_counts]. *)
Definition key_eqb (a b : value) : bool :=
  match a, b with
  | VNone, VNone => true
  | VStr s, VStr s' => (s =? s')%string
  | VInt z, VInt z' => (z =? z')%Z
  | _, _ => false
  end.

(** [type_counts[key] = type_counts.get(key, 0) + 1] on the dictionary
    [type_counts], kept in insertion order. *)
Fixpoint count_up (type_counts : list (value * Z)) (key : value)
    : list (value * Z) :=
  match type_counts with
  | [] => [(key, 0 + 1)]
  | (k, n) :: rest =>
      if key_eqb k key then (k, n + 1) :: rest
      else (k, n) :: count_up rest key
  end.

(** The local [count_types] of [print_summary]; [type_counts] is the
    state. *)
Fixpoint count_types (elem : value) {struct elem}
    : M (list (value * Z)) unit :=
  match elem with
  | VDict d =>
      ctrl_type <- prop (count_key d) ;;
      modify (fun type_counts => count_up type_counts ctrl_type) ;;;
      (fix children (kvs : dict) : M (list (value * Z)) unit :=
         match kvs with
         | [] => ret tt
         | (k, v) :: kvs' =>
             if (k =? "children")%string
             then
               match v with
               | VList xs =>
                   (fix loop (xs : list value) : M (list (value * Z)) unit :=
                      match xs with
                      | [] => ret tt
                      | child :: xs' => count_types child ;;; loop xs'
                      end) xs
               | _ => xs <- prop (iterate_children v) ;; ret tt
               end
             else children kvs'
         end) d
  | _ => raise ("'" ++ type_name elem ++ "' object has no attribute 'get'")
  end.

(** [sorted(items, key=lambda x: -x[1])]: by decreasing count, and, the
    sort being stable, in the order of [items] among equal counts. *)
Fixpoint insert_by_count (x : value * Z) (sorted : list (value * Z))
    : list (value * Z) :=
  match sorted with
  | [] => [x]
  | y :: rest =>
      if snd y >=? snd x then y :: insert_by_count x rest
      else x :: y :: rest
  end.

Definition sorted_by_count (items : list (value * Z)) : list (value * Z) :=
  fold_left (fun sorted x => insert_by_count x sorted) items [].

(** [for x in xs: body(x)]. *)
Fixpoint for_each {S A : Type} (xs : list A) (body : A -> M S unit)
    : M S unit :=
  match xs with
  | [] => ret tt
  | x :: xs' => body x ;;; for_each xs' body
  end.

(** [UIInspector.print_summary]. *)
Definition print_summary (screen_data : value) : M World unit :=
  print (nl ++ str_repeat "-" 70) ;;;
  print "ELEMENT SUMMARY" ;;;
  print (str_repeat "-" 70) ;;;
  type_counts <-
    (fun w =>
       match count_types screen_data [] with
       | (Ok _, type_counts) => (Ok type_counts, w)
       | (Raise msg, _) => (Raise msg, w)
       end) ;;
  for_each (sorted_by_count type_counts)
    (fun item =>
       if snd item >? 0
       then print ("  " ++ text_of (fst item) ++ ": " ++ str_of_Z (snd item))
       else ret tt) ;;;
  print (nl ++ str_repeat "-" 70) ;;;
  print "KEY ELEMENTS" ;;;
  print (str_repeat "-" 70) ;;;
  for_each key_types
    (fun ctrl_type =>
       let elements := find_elements_by_type screen_data ctrl_type [] in
       match elements with
       | [] => ret tt
       | _ =>
           print (nl ++ "[" ++ ctrl_type ++ "] (" ++ str_of_Z (len elements)
                  ++ " found)") ;;;
           for_each (firstn 10 elements)
             (fun elem =>
                let d := match elem with VDict d => d | _ => [] end in
                let name := value_or (get d "name") (VStr "(no name)") in
                let auto_id :=
                  value_or (get d "automation_id") (VStr "(no id)") in
                print ("  - Name: '" ++ text_of name ++ "' | ID: "
                       ++ text_of auto_id))
       end).

(** The inspector object and what surrounds it: [self.window],
    [self.max_depth], [self.elements], the platform calls made and the
    file system and console. *)
Record Session : Type := MkSession {
  self_window : option Element;
  self_max_depth : Z;
  self_elements : dict;
  calls : list Call;
  world : World }.

#[global] Instance Logging_session : Logging Session := {
  log_call c st :=
    {| self_window := self_window st;
       self_max_depth := self_max_depth st;
       self_elements := self_elements st;
       calls := (calls st ++ [c])%list;
       world := world st |} }.

(** A computation on the console and file system, run in the session. *)
Definition in_world {A : Type} (m : M World A) : M Session A :=
  fun st =>
    match m (world st) with
    | (r, w) =>
        (r, {| self_window := self_window st;
               self_max_depth := self_max_depth st;
               self_elements := self_elements st;
               calls := calls st;
               world := w |})
    end.

(** A computation on the platform, run in the session. *)
Definition on_platform {A : Type} (m : M (list Call) A) : M Session A :=
  fun st =>
    match m (calls st) with
    | (r, c) =>
        (r, {| self_window := self_window st;
               self_max_depth := self_max_depth st;
               self_elements := self_elements st;
               calls := c;
               world := world st |})
    end.

(** [x or y] on a text or [None]: [x] when it is a non-empty text. *)
Definition pattern_or (x y : option string) : option string :=
  match x with
  | Some s => if (s =? "")%string then y else x
  | None => y
  end.

(** [UIInspector.connect]; [self_window_title] is [self.window_title],
    [desktop] is [Desktop(backend)] and [desktop_window pattern] is what
    [desktop.window(title_re=pattern)] returns or raises.  The call
    [_ensure_utf8_output()] changes nothing that is modelled. *)
Definition connect (self_window_title : option string) (desktop : Desktop)
    (desktop_window : string -> Result Element)
    (window_pattern : option string) : M Session bool :=
  let pattern := pattern_or window_pattern self_window_title in
  in_world (print (nl ++ str_repeat "=" 70)) ;;;
  in_world (print "Windows GUI Inspector") ;;;
  in_world (print (str_repeat "=" 70)) ;;;
  match pattern_or pattern None with
  | Some pattern =>
      try_except
        (window <- prop (desktop_window pattern) ;;
         modify (fun st =>
           {| self_window := Some window;
              self_max_depth := self_max_depth st;
              self_elements := self_elements st;
              calls := calls st;
              world := world st |}) ;;;
         title <- call OpWindowText window (window_text window) ;;
         in_world (print (nl ++ "[OK] Found window: " ++ title)) ;;;
         handle <- call OpHandle window (handle window) ;;
         in_world (print ("     Handle: " ++ str_of_Z handle)) ;;;
         ret true)
        (fun e =>
           in_world
             (print (nl ++ "[ERROR] Window not found matching: " ++ pattern
                     ++ " (" ++ e ++ ")")) ;;;
           ret false)
  | None =>
      windows <-
        (fun st => (windows desktop, log_call (DesktopWindows None) st)) ;;
      match windows with
      | [] => ret false
      | _ =>
          in_world
            (print (nl ++ "Available windows (" ++ str_of_Z (len windows)
                    ++ "):")) ;;;
          for_each (firstn 20 windows)
            (fun w =>
               try_except
                 (title <- call OpWindowText w (window_text w) ;;
                  in_world (print ("  - " ++ title)))
                 (fun _ => ret tt)) ;;;
          in_world (print (nl ++ "Specify --title to connect to a window.")) ;;;
          ret false
      end
  end.

(** The methods that work on the inspector object, as the command line
    calls them. *)
Module Method.

(** [UIInspector.scan_current_screen] with its progress lines, on
    [self.window], [self.max_depth] and [self.elements]; [now] is
    [datetime.now().isoformat()].  Without a window, [self.window] is
    [None] and the read of [element_info] raises inside the [try] of the
    scan. *)
Definition scan_current_screen (screen_name : string) (now : string)
    : M Session dict :=
  fun st =>
    (in_world
       (print (nl ++ "[Scanning] " ++ screen_name ++ " (depth="
               ++ str_of_Z (self_max_depth st) ++ ")...")) ;;;
     in_world (print "           This may take a moment...") ;;;
     result <-
       match self_window st with
       | Some window =>
           on_platform (scan_element (self_max_depth st) window 0 "")
       | None =>
           ret (if 0 >? self_max_depth st then []
                else
                  [("error",
                    VStr "'NoneType' object has no attribute 'element_info'");
                   ("depth", VInt 0)])
       end ;;
     let result := set_item result "screen_name" (VStr screen_name) in
     let result := set_item result "scanned_at" (VStr now) in
     modify (fun st =>
       {| self_window := self_window st;
          self_max_depth := self_max_depth st;
          self_elements :=
            set_item (self_elements st) screen_name (VDict result);
          calls := calls st;
          world := world st |}) ;;;
     ret result) st.

(** [UIInspector.export_to_yaml] on [self.elements]. *)
Definition export_to_yaml (output_path : option path) (now : string)
    : M Session path :=
  fun st => in_world (export_to_yaml (self_elements st) output_path now) st.

End Method.

End UIInspector.

(* ================================================================== *)
(** ** [WindowMapper] *)
(* ================================================================== *)

Module WindowMapper.

(** The state of a walk of [map_window_elements]: the platform calls and
    the [elements] list its local [scan_element] appends to. *)
Record MapperState : Type := MkMapperState {
  mapper_calls : list Call;
  elements : list value }.

#[global] Instance Logging_mapper : Logging MapperState := {
  log_call c st := {| mapper_calls := (mapper_calls st ++ [c])%list;
                      elements := elements st |} }.

Definition useful_types : list string :=
  ["Button"; "Edit"; "CheckBox"; "ComboBox"; "List"; "ListItem";
   "DataGrid"; "DataItem"; "Tab"; "TabItem"; "RadioButton";
   "Text"; "Table"; "TreeItem"; "MenuItem"].

(** [props.get(k, default)] on the legacy properties. *)
Fixpoint props_get (props : list (string * string)) (k : string)
    (default : string) : string :=
  match props with
  | [] => default
  | (k', v) :: props' => if (k' =? k)%string then v else props_get props' k default
  end.

Section Mapper.

(** [self.title_pattern] and [self.max_depth]. *)
Variable title_pattern : option string.
Variable max_depth : Z.

(** The body of the loop of [find_windows] (lines 60-80), one window:
    the descriptor to append, or [None] when the window is skipped
    ([continue], a size that is too small, or any exception). *)
Definition window_entry (win : Element) : M (list Call) (option value) :=
  try_except
    (title <- call OpWindowText win (window_text win) ;;
     if (title =? "")%string then ret None
     else
       rect <- call OpRectangle win (rectangle win) ;;
       width <- prop (width rect) ;;
       height <- prop (height rect) ;;
       if (width >? 100) && (height >? 100)
       then
         handle <- call OpHandle win (handle win) ;;
         ret (Some (VDict [("title", VStr title);
                           ("handle", VInt handle);
                           ("width", VInt width);
                           ("height", VInt height)]))
       else ret None)
    (fun _ => ret None).

(** [WindowMapper.find_windows] on the desktop [Desktop(backend)]. *)
Definition find_windows (desktop : Desktop) : M (list Call) (list value) :=
  all_windows <-
    try_except
      (match title_pattern with
       | Some pattern =>
           if negb (pattern =? "")%string
           then fun s => (windows_re desktop pattern,
                          log_call (DesktopWindows (Some pattern)) s)
           else fun s => (windows desktop,
                          log_call (DesktopWindows None) s)
       | None => fun s => (windows desktop,
                           log_call (DesktopWindows None) s)
       end)
      (fun _ => fun s => (windows_again desktop,
                          log_call (DesktopWindows None) s)) ;;
  (fix loop (wins : list Element) (windows_info : list value) {struct wins}
     : M (list Call) (list value) :=
     match wins with
     | [] => ret windows_info
     | win :: wins' =>
         entry <- window_entry win ;;
         loop wins'
           (match entry with
            | Some info => (windows_info ++ [info])%list
            | None => windows_info
            end)
     end) all_windows [].

(** Lines 112-115: the legacy text value of an [Edit], or [""]. *)
Definition read_value (elem : Element) (ctrl_type : string)
    : M MapperState string :=
  if (ctrl_type =? "Edit")%string
  then
    try_except
      (props <- call OpLegacyProperties elem (legacy_properties elem) ;;
       ret (props_get props "Value" ""))
      (fun _ => ret "")
  else ret "".

(** Lines 117-120: the toggle state of a [CheckBox], or [None]. *)
Definition read_checked (elem : Element) (ctrl_type : string)
    : M MapperState (option Z) :=
  if (ctrl_type =? "CheckBox")%string
  then
    try_except
      (state <- call OpGetToggleState elem (get_toggle_state elem) ;;
       ret (Some state))
      (fun _ => ret None)
  else ret None.

(** The local [scan_element] of [map_window_elements]; [elements] is in
    the state.  The whole body is in one [try]: an exception of the
    metadata read or of the enumeration of the children ends the call,
    and what was appended stays. *)
Fixpoint scan_element (elem : Element) (depth : Z) {struct elem}
    : M MapperState unit :=
  if depth >? max_depth then ret tt
  else
    try_except
      ('(name, ctrl_type, auto_id, class_name) <- read_metadata elem ;;
       value <- read_value elem ctrl_type ;;
       checked <- read_checked elem ctrl_type ;;
       let element_info :=
         [("depth", VInt depth);
          ("type", VStr ctrl_type);
          ("id", VStr auto_id);
          ("name", VStr name);
          ("class", VStr class_name)] in
       let element_info :=
         if negb (value =? "")%string
         then (element_info ++ [("value", VStr value)])%list
         else element_info in
       let element_info :=
         match checked with
         | Some state => (element_info ++ [("checked", VInt state)])%list
         | None => element_info
         end in
       (if existsb (String.eqb ctrl_type) useful_types
           && negb (str_or auto_id name =? "")%string
        then modify (fun st =>
               {| mapper_calls := mapper_calls st;
                  elements := (elements st ++ [VDict element_info])%list |})
        else ret tt) ;;;
       call OpChildren elem (Ok tt) ;;;
       (fix loop (cs : list Element) {struct cs} : M MapperState unit :=
          match cs with
          | [] => end_of_children elem
          | child :: cs' => scan_element child (depth + 1) ;;; loop cs'
          end) (children_items elem))
      (fun _ => ret tt).

(** [WindowMapper.map_window_elements]. *)
Definition map_window_elements (window : Element)
    : M (list Call) (list value) :=
  fun s =>
    match scan_element window 0 {| mapper_calls := s; elements := [] |} with
    | (Ok _, st) => (Ok (elements st), mapper_calls st)
    | (Raise msg, st) => (Raise msg, mapper_calls st)
    end.

(** The export step that ends [WindowMapper.run] (lines 227-235);
    [export_path] is [None], or the parts of the path given ([[]] for the
    empty string). *)
Definition run_export (export_path : option path) (all_mappings : dict)
    : M World unit :=
  match export_path with
  | Some (part :: parts) =>
      let export_path := part :: parts in
      try_except
        (open_write export_path (VDict all_mappings) ;;;
         print (nl ++ nl ++ "Saved element map to: " ++ path_str export_path))
        (fun e => print (nl ++ "Error saving: " ++ e))
  | _ => ret tt
  end.

End Mapper.

(* ------------------------------------------------------------------ *)
(** *** [WindowMapper.run] *)

(** The mapper at work: the platform calls made, the console and file
    system, and how many times the clock was read. *)
Record RunState : Type := MkRunState {
  run_calls : list Call;
  run_world : World;
  run_clock : nat }.

(** A computation on the platform, run by the mapper. *)
Definition on_desktop {A : Type} (m : M (list Call) A) : M RunState A :=
  fun st =>
    match m (run_calls st) with
    | (r, c) =>
        (r, {| run_calls := c;
               run_world := run_world st;
               run_clock := run_clock st |})
    end.

(** A computation on the console and file system, run by the mapper. *)
Definition on_console {A : Type} (m : M World A) : M RunState A :=
  fun st =>
    match m (run_world st) with
    | (r, w) =>
        (r, {| run_calls := run_calls st;
               run_world := w;
               run_clock := run_clock st |})
    end.

(** [datetime.now().isoformat()]: the reading number [n] of the clock is
    [now n]. *)
Definition read_clock (now : nat -> string) : M RunState string :=
  fun st =>
    (Ok (now (run_clock st)),
     {| run_calls := run_calls st;
        run_world := run_world st;
        run_clock := S (run_clock st) |}).

(** [v[k]] for a text [k]; [str(KeyError(k))] is [k] in quotes. *)
Definition subscript (v : value) (k : string) : Result value :=
  match v with
  | VDict d =>
      match lookup d k with
      | Some x => Ok x
      | None => Raise ("'" ++ k ++ "'")
      end
  | VList _ => Raise "list indices must be integers or slices, not str"
  | VStr _ => Raise "string indices must be integers, not 'str'"
  | _ => Raise ("'" ++ type_name v ++ "' object is not subscriptable")
  end.

(** Whether a value can be a key of a dictionary or a member of a set. *)
Definition hashable (v : value) : Result unit :=
  match v with
  | VList _ => Raise "unhashable type: 'list'"
  | VDict _ => Raise "unhashable type: 'dict'"
  | _ => Ok tt
  end.

(** [by_type[t].append(elem)], after [by_type[t] = []] when [t] is new. *)
Fixpoint group_add (by_type : list (value * list value)) (t elem : value)
    : list (value * list value) :=
  match by_type with
  | [] => [(t, [elem])]
  | (k, items) :: rest =>
      if UIInspector.key_eqb k t then (k, (items ++ [elem])%list) :: rest
      else (k, items) :: group_add rest t elem
  end.

(** Lines 187-192: the records grouped by their [type]; the types are in
    the order they first occur. *)
Definition group_by_type (elements : list value)
    : Result (list (value * list value)) :=
  match
    UIInspector.for_each elements
      (fun elem =>
         t <- prop (subscript elem "type") ;;
         prop (hashable t) ;;;
         modify (fun by_type => group_add by_type t elem)) []
  with
  | (Ok _, by_type) => Ok by_type
  | (Raise msg, _) => Raise msg
  end.

(** [by_type[ctrl_type]]. *)
Fixpoint items_of (by_type : list (value * list value)) (ctrl_type : value)
    : list value :=
  match by_type with
  | [] => []
  | (k, items) :: rest =>
      if UIInspector.key_eqb k ctrl_type then items
      else items_of rest ctrl_type
  end.

(** The texts of a list of values that are all texts, the integers of a
    list of values that are all integers. *)
Fixpoint texts_of (vs : list value) : option (list string) :=
  match vs with
  | [] => Some []
  | VStr s :: vs' =>
      match texts_of vs' with
      | Some ss => Some (s :: ss)
      | None => None
      end
  | _ => None
  end.

Fixpoint ints_of (vs : list value) : option (list Z) :=
  match vs with
  | [] => Some []
  | VInt z :: vs' =>
      match ints_of vs' with
      | Some zs => Some (z :: zs)
      | None => None
      end
  | _ => None
  end.

(** Sorting by insertion, for an order [leb]. *)
Fixpoint insert_sorted {A : Type} (leb : A -> A -> bool) (x : A)
    (sorted : list A) : list A :=
  match sorted with
  | [] => [x]
  | y :: rest =>
      if leb y x then y :: insert_sorted leb x rest
      else x :: y :: rest
  end.

Definition sort_by {A : Type} (leb : A -> A -> bool) (l : list A) : list A :=
  fold_left (fun sorted x => insert_sorted leb x sorted) l [].

(** [sorted(by_type.keys())]: texts are ordered character by character,
    integers by value; a single key of any type is left alone.  Keys of
    different types cannot be compared and [sorted] raises a [TypeError],
    whose message is only approximated here (it names two types that
    Python compared); the records of [map_window_elements] have texts as
    types. *)
Definition sorted_keys (keys : list value) : Result (list value) :=
  match texts_of keys, ints_of keys, keys with
  | Some ss, _, _ => Ok (map VStr (sort_by String.leb ss))
  | None, Some zs, _ => Ok (map VInt (sort_by Z.leb zs))
  | None, None, [k] => Ok [k]
  | None, None, _ =>
      Raise "'<' not supported between instances of different types"
  end.

(** [f"{v:>5}"] and the like: a text or an integer is padded on the left
    with spaces to [width] characters; the other types have no such
    format. *)
Definition format_right (width : nat) (v : value) : Result string :=
  let pad s :=
    String.concat "" (repeat " " (width - String.length s)) ++ s in
  match v with
  | VStr s => Ok (pad s)
  | VInt z => Ok (pad (str_of_Z z))
  | _ =>
      Raise ("unsupported format string passed to " ++ type_name v
             ++ ".__format__")
  end.

(** [v[:n]]: the first [n] characters of a text, the first [n] items of a
    list; the other types cannot be sliced. *)
Definition slice_to (n : nat) (v : value) : Result value :=
  match v with
  | VStr s => Ok (VStr (substring 0 n s))
  | VList xs => Ok (VList (firstn n xs))
  | VDict _ => Raise "unhashable type: 'slice'"
  | _ => Raise ("'" ++ type_name v ++ "' object is not subscriptable")
  end.

(** The loop of lines 200-216 over the records of one type; [seen] holds
    the pairs of id and name already listed. *)
Fixpoint list_items (items : list value) (seen : list (value * value))
    : M World unit :=
  match items with
  | [] => ret tt
  | elem :: items' =>
      match elem with
      | VDict d =>
          let key :=
            (get_default d "id" (VStr ""), get_default d "name" (VStr "")) in
          prop (hashable (fst key)) ;;;
          prop (hashable (snd key)) ;;;
          if existsb
               (fun k => UIInspector.key_eqb (fst k) (fst key)
                         && UIInspector.key_eqb (snd k) (snd key)) seen
          then list_items items' seen
          else
            let seen := (seen ++ [key])%list in
            let id_str := value_or (get d "id") (VStr "-") in
            let name_str := value_or (get d "name") (VStr "(no name)") in
            let value_str :=
              if truthy (get d "value")
              then " value=[" ++ text_of (get d "value") ++ "]"
              else "" in
            let checked_str :=
              match get d "checked" with
              | VNone => ""
              | checked => " checked=" ++ text_of checked
              end in
            id_text <- prop (format_right 5 id_str) ;;
            name_text <- prop (slice_to 50 name_str) ;;
            print ("    [" ++ id_text ++ "] " ++ text_of name_text
                   ++ value_str ++ checked_str) ;;;
            list_items items' seen
      | _ =>
          raise ("'" ++ type_name elem ++ "' object has no attribute 'get'")
      end
  end.

(** [all_mappings[title] = mapping]: the entry is replaced where it is, or
    added at the end. *)
Fixpoint set_mapping (all_mappings : list (value * value))
    (title mapping : value) : list (value * value) :=
  match all_mappings with
  | [] => [(title, mapping)]
  | (k, v) :: rest =>
      if UIInspector.key_eqb k title then (k, mapping) :: rest
      else (k, v) :: set_mapping rest title mapping
  end.

(** The keys of a dictionary as [json.dump] writes them: a text as it is,
    an integer in decimal, [None] as [null]. *)
Definition json_key (k : value) : string :=
  match k with
  | VStr s => s
  | VNone => "null"
  | v => text_of v
  end.

Definition json_object (all_mappings : list (value * value)) : dict :=
  map (fun kv => (json_key (fst kv), snd kv)) all_mappings.

Section Run.

Variable title_pattern : option string.
Variable max_depth : Z.

(** [Desktop(backend)]; what [Application(backend).connect(handle=h)
    .window(handle=h)] returns or raises; and the clock. *)
Variable desktop : Desktop.
Variable application_window : value -> Result Element.
Variable now : nat -> string.

(** The body of the [try] of lines 180-222 for the window [win] titled
    [title]: [all_mappings] with the mapping of the window. *)
Definition map_window (win title : value)
    (all_mappings : list (value * value))
    : M RunState (list (value * value)) :=
  handle <- prop (subscript win "handle") ;;
  window <- prop (application_window handle) ;;
  elements <- on_desktop (map_window_elements max_depth window) ;;
  by_type <- prop (group_by_type elements) ;;
  on_console
    (print (nl ++ "Found " ++ str_of_Z (len elements) ++ " elements:")) ;;;
  keys <- prop (sorted_keys (map fst by_type)) ;;
  UIInspector.for_each keys
    (fun ctrl_type =>
       let items := items_of by_type ctrl_type in
       on_console
         (print (nl ++ "  === " ++ text_of ctrl_type ++ " ("
                 ++ str_of_Z (len items) ++ ") ===")) ;;;
       on_console (list_items items [])) ;;;
  width <- prop (subscript win "width") ;;
  height <- prop (subscript win "height") ;;
  mapped_at <- read_clock now ;;
  prop (hashable title) ;;;
  ret (set_mapping all_mappings title
         (VDict [("size", VStr (text_of width ++ "x" ++ text_of height));
                 ("elements", VList elements);
                 ("mapped_at", VStr mapped_at)])).

(** The loop of lines 174-225 over the windows found. *)
Fixpoint map_windows (windows : list value)
    (all_mappings : list (value * value))
    : M RunState (list (value * value)) :=
  match windows with
  | [] => ret all_mappings
  | win :: windows' =>
      title <- prop (subscript win "title") ;;
      on_console (print (nl ++ str_repeat "=" 70)) ;;;
      on_console (print ("MAPPING: " ++ text_of title)) ;;;
      on_console (print (str_repeat "=" 70)) ;;;
      all_mappings <-
        try_except (map_window win title all_mappings)
          (fun e =>
             on_console (print ("  Error: " ++ e)) ;;;
             ret all_mappings) ;;
      map_windows windows' all_mappings
  end.

(** The loop of lines 165-166: one line for each window found, numbered
    from [i + 1]. *)
Fixpoint list_windows (i : Z) (windows : list value) : M World unit :=
  match windows with
  | [] => ret tt
  | win :: windows' =>
      title <- prop (subscript win "title") ;;
      width <- prop (subscript win "width") ;;
      height <- prop (subscript win "height") ;;
      print ("  " ++ str_of_Z (i + 1) ++ ". [" ++ text_of title ++ "] "
             ++ text_of width ++ "x" ++ text_of height) ;;;
      list_windows (i + 1) windows'
  end.

(** [WindowMapper.run]; [export_path] is as for [run_export].  The call
    [_ensure_utf8_output()] changes nothing that is modelled. *)
Definition run (export_path : option path)
    : M RunState (list (value * value)) :=
  on_console (print (nl ++ str_repeat "=" 70)) ;;;
  on_console (print "FINDING WINDOWS") ;;;
  on_console (print (str_repeat "=" 70)) ;;;
  windows <- on_desktop (find_windows title_pattern desktop) ;;
  on_console
    (print (nl ++ "Found " ++ str_of_Z (len windows) ++ " windows:")) ;;;
  on_console (list_windows 0 windows) ;;;
  match windows with
  | [] =>
      on_console (print (nl ++ "[WARNING] No matching windows found.")) ;;;
      ret []
  | _ =>
      all_mappings <- map_windows windows [] ;;
      on_console (run_export export_path (json_object all_mappings)) ;;;
      on_console (print (nl ++ str_repeat "=" 70)) ;;;
      on_console (print "MAPPING COMPLETE") ;;;
      on_console (print (str_repeat "=" 70)) ;;;
      ret all_mappings
  end.

End Run.

End WindowMapper.

(* ================================================================== *)
(** ** The command line *)
(* ================================================================== *)

Module Cli.

(** The arguments of [inspect] and of [map] that the commands read; the
    backend selects the desktop, which is given. *)
Record InspectArgs : Type := MkInspectArgs {
  inspect_title : option string;
  inspect_depth : Z;
  inspect_export : bool;
  inspect_screen : string;
  inspect_output : option path }.

Record MapArgs : Type := MkMapArgs {
  map_title : option string;
  map_export : option path;
  map_depth : Z }.

(** [cmd_inspect]: the inspector is built, with no window and nothing
    scanned, on the console and file system [w]; [scanned_at] and
    [generated_at] are the two readings of the clock, and
    [interactive_mode] is the interactive session, which is not modelled. *)
Definition cmd_inspect (args : InspectArgs) (desktop : Desktop)
    (desktop_window : string -> Result Element)
    (scanned_at generated_at : string)
    (interactive_mode : M UIInspector.Session unit) (w : World)
    : Result Z * UIInspector.Session :=
  let inspector :=
    {| UIInspector.self_window := None;
       UIInspector.self_max_depth := inspect_depth args;
       UIInspector.self_elements := [];
       UIInspector.calls := [];
       UIInspector.world := w |} in
  (connected <-
     UIInspector.connect (inspect_title args) desktop desktop_window None ;;
   if negb connected then ret 1
   else
     (if inspect_export args
      then
        UIInspector.Method.scan_current_screen (inspect_screen args)
          scanned_at ;;;
        UIInspector.Method.export_to_yaml (inspect_output args)
          generated_at ;;;
        ret tt
      else interactive_mode) ;;;
     ret 0) inspector.

(** [cmd_map]. *)
Definition cmd_map (args : MapArgs) (desktop : Desktop)
    (application_window : value -> Result Element) (now : nat -> string)
    : M WindowMapper.RunState Z :=
  WindowMapper.run (map_title args) (map_depth args) desktop
    application_window now (map_export args) ;;;
  ret 0.

End Cli.

(* ================================================================== *)
(** ** Induction over elements *)
(* ================================================================== *)

Fixpoint Element_nested_ind (P : Element -> Prop)
    (step : forall e, Forall P (children_items e) -> P e)
    (e : Element) {struct e} : P e :=
  step e
    ((fix all (cs : list Element) : Forall P cs :=
        match cs with
        | [] => Forall_nil P
        | c :: cs' => Forall_cons c (Element_nested_ind P step c) (all cs')
        end) (children_items e)).

Fixpoint value_nested_ind (P : value -> Prop)
    (HNone : P VNone)
    (HStr : forall s, P (VStr s))
    (HInt : forall z, P (VInt z))
    (HList : forall xs, Forall P xs -> P (VList xs))
    (HDict : forall kvs, Forall (fun kv => P (snd kv)) kvs -> P (VDict kvs))
    (v : value) {struct v} : P v :=
  match v with
  | VNone => HNone
  | VStr s => HStr s
  | VInt z => HInt z
  | VList xs =>
      HList xs
        ((fix all (l : list value) : Forall P l :=
            match l with
            | [] => Forall_nil P
            | x :: l' =>
                Forall_cons x
                  (value_nested_ind P HNone HStr HInt HList HDict x) (all l')
            end) xs)
  | VDict kvs =>
      HDict kvs
        ((fix all (l : list (string * value))
            : Forall (fun kv => P (snd kv)) l :=
            match l with
            | [] => Forall_nil _
            | kv :: l' =>
                Forall_cons kv
                  (value_nested_ind P HNone HStr HInt HList HDict (snd kv))
                  (all l')
            end) kvs)
  end.

(* ================================================================== *)
(** ** What the reads of an element amount to *)
(* ================================================================== *)

(** The outcome of [read_metadata] as a value. *)
Definition metadata (e : Element) : Result (string * string * string * string) :=
  match element_info e with
  | Raise msg => Raise msg
  | Ok info =>
      match name info with
      | Raise msg => Raise msg
      | Ok n =>
          match control_type info with
          | Raise msg => Raise msg
          | Ok ct =>
              match automation_id info with
              | Raise msg => Raise msg
              | Ok aid =>
                  match class_name info with
                  | Raise msg => Raise msg
                  | Ok cn =>
                      Ok (or_empty n, or_empty ct, or_empty aid, or_empty cn)
                  end
              end
          end
      end
  end.

(** An element is readable when its metadata read does not raise. *)
Definition readable (e : Element) : bool :=
  match metadata e with
  | Ok _ => true
  | Raise _ => false
  end.

(** The outcome of [read_rect_info] as a value. *)
Definition rect_info_of (e : Element) : value :=
  match rectangle e with
  | Raise _ => VNone
  | Ok rect =>
      match left rect, top rect, width rect, height rect with
      | Ok l, Ok t, Ok w, Ok h =>
          VDict [("left", VInt l); ("top", VInt t);
                 ("width", VInt w); ("height", VInt h)]
      | _, _, _, _ => VNone
      end
  end.

Fixpoint all_readable (e : Element) : bool :=
  readable e && forallb all_readable (children_items e).

(** The same element with other children, or another end of their
    enumeration. *)
Definition with_children (e : Element) (cs : list Element) : Element :=
  {| element_info := element_info e;
     rectangle := rectangle e;
     children_items := cs;
     children_error := children_error e;
     legacy_properties := legacy_properties e;
     get_toggle_state := get_toggle_state e;
     window_text := window_text e;
     handle := handle e |}.

Definition with_children_error (e : Element) (err : option string) : Element :=
  {| element_info := element_info e;
     rectangle := rectangle e;
     children_items := children_items e;
     children_error := err;
     legacy_properties := legacy_properties e;
     get_toggle_state := get_toggle_state e;
     window_text := window_text e;
     handle := handle e |}.

(* ================================================================== *)
(** ** The fixtures of [tests/conftest.py] *)
(* ================================================================== *)

Module Fixtures.

(** [make_mock_element]; [rect] is [(left, top, width, height)] or [None],
    and the mock's [handle] is 12345. *)
Definition make_mock_element (name control_type automation_id class_name : string)
    (children : list Element) (rect : option (Z * Z * Z * Z))
    (value : string) (toggle_state : option Z) : Element :=
  {| element_info :=
       Ok {| name := Ok (Some name);
             control_type := Ok (Some control_type);
             automation_id := Ok (Some automation_id);
             class_name := Ok (Some class_name) |};
     rectangle :=
       match rect with
       | Some (l, t, w, h) =>
           Ok {| left := Ok l; top := Ok t; width := Ok w; height := Ok h |}
       | None => Raise "No rect"
       end;
     children_items := children;
     children_error := None;
     legacy_properties :=
       if negb (value =? "")%string then Ok [("Value", value)] else Ok [];
     get_toggle_state :=
       match toggle_state with
       | Some state => Ok state
       | None => Raise "Not a checkbox"
       end;
     window_text := Ok name;
     handle := Ok 12345 |}.

Definition default_rect : option (Z * Z * Z * Z) := Some (0, 0, 100, 50).

Definition buy_btn : Element :=
  make_mock_element "Buy" "Button" "116" "" [] default_rect "" None.
Definition sell_btn : Element :=
  make_mock_element "Sell" "Button" "117" "" [] default_rect "" None.
Definition symbol_field : Element :=
  make_mock_element "Symbol" "Edit" "102" "" [] default_rect "7203" None.
Definition quantity_field : Element :=
  make_mock_element "Quantity" "Edit" "136" "" [] default_rect "" None.
Definition skip_check : Element :=
  make_mock_element "Skip confirmation" "CheckBox" "200" "" [] default_rect
    "" (Some 1).
Definition pane : Element :=
  make_mock_element "OrderPane" "Pane" "pane1" ""
    [buy_btn; sell_btn; symbol_field; quantity_field; skip_check]
    default_rect "" None.
Definition mock_window : Element :=
  make_mock_element "Test Window" "Window" "" "TestClass" [pane]
    (Some (0, 0, 800, 600)) "" None.

(** An element whose [element_info] raises, as in
    [test_scan_handles_broken_element]. *)
Definition broken : Element :=
  {| element_info := Raise "broken";
     rectangle := Raise "broken";
     children_items := [buy_btn];
     children_error := None;
     legacy_properties := Raise "broken";
     get_toggle_state := Raise "broken";
     window_text := Raise "broken";
     handle := Raise "broken" |}.

(** A window that yields [broken] between two buttons. *)
Definition window_with_broken : Element :=
  make_mock_element "Win" "Window" "" "" [buy_btn; broken; sell_btn]
    default_rect "" None.

(** The root and child of the path example: no name and no id under control
    type [Window], and a child with automation id 102. *)
Definition child_102 : Element :=
  make_mock_element "Symbol" "Edit" "102" "" [] default_rect "" None.
Definition bare_window : Element :=
  make_mock_element "" "Window" "" "" [child_102] default_rect "" None.

(** A pane whose enumeration of children raises after two buttons. *)
Definition failing_pane : Element :=
  with_children_error
    (make_mock_element "OrderPane" "Pane" "pane1" "" [buy_btn; sell_btn]
       default_rect "" None)
    (Some "COMError").

(** A window of 800 by 600 with a title, whose handle can no longer be
    read. *)
Definition stale_window : Element :=
  {| element_info := element_info mock_window;
     rectangle := rectangle mock_window;
     children_items := [];
     children_error := None;
     legacy_properties := Ok [];
     get_toggle_state := Raise "Not a checkbox";
     window_text := Ok "Ghost";
     handle := Raise "COMError" |}.

(** A desktop whose enumerations all return [wins]. *)
Definition desktop_of (wins : list Element) : Desktop :=
  {| windows_re := fun _ => Ok wins;
     windows := Ok wins;
     windows_again := Ok wins |}.

End Fixtures.

(* ================================================================== *)
(** ** The path rule, in the words of the specification *)
(* ================================================================== *)

(** The automation id if non-empty, else the name if non-empty, else the
    control type. *)
Definition path_segment (name control_type automation_id : string) : string :=
  if negb (automation_id =? "")%string then automation_id
  else if negb (name =? "")%string then name
  else control_type.

(** [parentPath + "/" + segment] when [parentPath] is non-empty, else the
    segment alone. *)
Definition current_path (parent_path segment : string) : string :=
  if negb (parent_path =? "")%string
  then parent_path ++ "/" ++ segment
  else segment.

(* ================================================================== *)
(** ** The scanned tree as a function of the element *)
(* ================================================================== *)

(** The dictionary [UIInspector.scan_element] returns ([scan_element_run]
    proves it) and the calls it makes, by recursion on the element. *)
Fixpoint scan_dict (max_depth : Z) (e : Element) (depth : Z)
    (parent_path : string) {struct e} : dict :=
  if depth >? max_depth then []
  else
    match metadata e with
    | Raise msg => [("error", VStr msg); ("depth", VInt depth)]
    | Ok (name, control_type, automation_id, class_name) =>
        let path :=
          current_path parent_path
            (path_segment name control_type automation_id) in
        [("name", VStr name);
         ("control_type", VStr control_type);
         ("automation_id", VStr automation_id);
         ("class_name", VStr class_name);
         ("path", VStr path);
         ("depth", VInt depth);
         ("rectangle", rect_info_of e);
         ("children",
          VList
            (filter truthy
               (map (fun c => VDict (scan_dict max_depth c (depth + 1) path))
                  (children_items e))))]
    end.

Fixpoint scan_calls (max_depth : Z) (e : Element) (depth : Z) {struct e}
    : list Call :=
  if depth >? max_depth then []
  else
    ElementCall OpElementInfo e
    :: match metadata e with
       | Raise _ => []
       | Ok _ =>
           ElementCall OpRectangle e
           :: ElementCall OpChildren e
           :: flat_map (fun c => scan_calls max_depth c (depth + 1))
                (children_items e)
       end.

(** The dictionary a scan returns, read off the scan itself. *)
Definition scanned (max_depth : Z) (e : Element) (depth : Z)
    (parent_path : string) : dict :=
  match fst (UIInspector.scan_element max_depth e depth parent_path []) with
  | Ok t => t
  | Raise _ => []
  end.

(* ================================================================== *)
(** ** Trees of dictionaries *)
(* ================================================================== *)

(** [t.get("children", [])]. *)
Definition children_of (t : value) : list value :=
  match t with
  | VDict d => as_list (get_default d "children" (VList []))
  | _ => []
  end.

(** The nodes of a tree of dictionaries in pre-order, following
    [children] as [find_elements_by_type] does. *)
Fixpoint nodes (t : value) {struct t} : list value :=
  match t with
  | VDict d =>
      t :: (fix children (kvs : dict) : list value :=
              match kvs with
              | [] => []
              | (k, v) :: kvs' =>
                  if (k =? "children")%string
                  then
                    match v with
                    | VList xs => flat_map nodes xs
                    | _ => []
                    end
                  else children kvs'
              end) d
  | _ => []
  end.

(** The [depth] entry of a node. *)
Definition depth_of (t : value) : option Z :=
  match t with
  | VDict d =>
      match lookup d "depth" with
      | Some (VInt z) => Some z
      | _ => None
      end
  | _ => None
  end.

(** The error marker [{"error": msg, "depth": depth}]. *)
Definition error_marker (msg : string) (depth : Z) : dict :=
  [("error", VStr msg); ("depth", VInt depth)].

Definition is_error_marker (t : value) : bool :=
  match t with
  | VDict [(k1, VStr _); (k2, VInt _)] =>
      (k1 =? "error")%string && (k2 =? "depth")%string
  | _ => false
  end.

(** The entry [find_elements_by_type] appends for a matching node. *)
Definition projection (t : value) : value :=
  match t with
  | VDict d =>
      VDict [("name", get_default d "name" (VStr ""));
             ("automation_id", get_default d "automation_id" (VStr ""));
             ("path", get_default d "path" (VStr ""));
             ("rectangle", get d "rectangle")]
  | _ => VNone
  end.

(** [element.get("control_type") == control_type]. *)
Definition matches (control_type : string) (t : value) : bool :=
  match t with
  | VDict d => eq_str (get d "control_type") control_type
  | _ => false
  end.

(* ================================================================== *)
(** ** The flat walk, in the words of the specification *)
(* ================================================================== *)

(** The nodes the walk reaches, in pre-order with their depths: the descent
    stops below [max_depth] and at a node whose metadata read raises, and
    nowhere else. *)
Fixpoint walk (max_depth : Z) (e : Element) (depth : Z) {struct e}
    : list (Element * Z) :=
  if depth >? max_depth then []
  else if readable e
  then (e, depth) :: flat_map (fun c => walk max_depth c (depth + 1))
                       (children_items e)
  else [].

(** The control type is in the allow-list and the automation id or the name
    is non-empty. *)
Definition passes_filter (e : Element) : bool :=
  match metadata e with
  | Ok (name, control_type, automation_id, _) =>
      (if in_dec string_dec control_type WindowMapper.useful_types
       then true else false)
      && (negb (automation_id =? "")%string || negb (name =? "")%string)
  | Raise _ => false
  end.

(** The record of a node (lines 112-133 of [mapper.py]). *)
Definition flat_record (e : Element) (depth : Z) : dict :=
  match metadata e with
  | Raise _ => []
  | Ok (name, control_type, automation_id, class_name) =>
      ([("depth", VInt depth);
        ("type", VStr control_type);
        ("id", VStr automation_id);
        ("name", VStr name);
        ("class", VStr class_name)]
       ++ (if (control_type =? "Edit")%string
           then
             match legacy_properties e with
             | Ok props =>
                 if negb (WindowMapper.props_get props "Value" "" =? "")%string
                 then [("value", VStr (WindowMapper.props_get props "Value" ""))]
                 else []
             | Raise _ => []
             end
           else [])
       ++ (if (control_type =? "CheckBox")%string
           then
             match get_toggle_state e with
             | Ok state => [("checked", VInt state)]
             | Raise _ => []
             end
           else []))%list
  end.

(** The calls of one visit of the flat walk, before the descent. *)
Definition visit_calls (e : Element) : list Call :=
  ElementCall OpElementInfo e
  :: match metadata e with
     | Raise _ => []
     | Ok (_, control_type, _, _) =>
         ((if (control_type =? "Edit")%string
           then [ElementCall OpLegacyProperties e] else [])
          ++ (if (control_type =? "CheckBox")%string
              then [ElementCall OpGetToggleState e] else [])
          ++ [ElementCall OpChildren e])%list
     end.

Fixpoint flat_calls (max_depth : Z) (e : Element) (depth : Z) {struct e}
    : list Call :=
  if depth >? max_depth then []
  else
    (visit_calls e
     ++ (if readable e
         then flat_map (fun c => flat_calls max_depth c (depth + 1))
                (children_items e)
         else []))%list.

(** The records of the visited nodes that pass the filter, in order. *)
Definition records_of (visited : list (Element * Z)) : list value :=
  flat_map
    (fun v =>
       if passes_filter (fst v)
       then [VDict (flat_record (fst v) (snd v))]
       else [])
    visited.

(** The outcomes of [read_value] and [read_checked] as values. *)
Definition legacy_value (e : Element) (ctrl_type : string) : string :=
  if (ctrl_type =? "Edit")%string
  then
    match legacy_properties e with
    | Ok props => WindowMapper.props_get props "Value" ""
    | Raise _ => ""
    end
  else "".

Definition toggle_state (e : Element) (ctrl_type : string) : option Z :=
  if (ctrl_type =? "CheckBox")%string
  then
    match get_toggle_state e with
    | Ok state => Some state
    | Raise _ => None
    end
  else None.

(* ================================================================== *)
(** ** Window resolution, in the words of the specification *)
(* ================================================================== *)

(** The windows [find_windows] goes through: the enumeration restricted by
    the pattern when there is one, and all windows when that fails. *)
Definition all_windows (title_pattern : option string) (desktop : Desktop)
    : Result (list Element) :=
  let first :=
    match title_pattern with
    | Some pattern =>
        if negb (pattern =? "")%string then windows_re desktop pattern
        else windows desktop
    | None => windows desktop
    end in
  match first with
  | Ok wins => Ok wins
  | Raise _ => windows_again desktop
  end.

(** The title read succeeds and is non-empty, the rectangle read succeeds,
    and the width and the height exceed 100. *)
Definition title_and_size_ok (win : Element) : bool :=
  match window_text win, rectangle win with
  | Ok title, Ok rect =>
      match width rect, height rect with
      | Ok w, Ok h => negb (title =? "")%string && (w >? 100) && (h >? 100)
      | _, _ => false
      end
  | _, _ => false
  end.

(** The read of the handle succeeds. *)
Definition handle_ok (win : Element) : bool :=
  match handle win with
  | Ok _ => true
  | Raise _ => false
  end.

(** The descriptor of a window whose reads succeed. *)
Definition descriptor (win : Element) : value :=
  match window_text win, rectangle win, handle win with
  | Ok title, Ok rect, Ok h =>
      match width rect, height rect with
      | Ok w, Ok ht =>
          VDict [("title", VStr title); ("handle", VInt h);
                 ("width", VInt w); ("height", VInt ht)]
      | _, _ => VNone
      end
  | _, _, _ => VNone
  end.

(* ================================================================== *)
(** ** Further notions for the properties of the walkers and exports *)
(* ================================================================== *)

(** The same element with another outcome of [rectangle()]. *)
Definition with_rectangle (e : Element) (r : Result Rect) : Element :=
  {| element_info := element_info e;
     rectangle := r;
     children_items := children_items e;
     children_error := children_error e;
     legacy_properties := legacy_properties e;
     get_toggle_state := get_toggle_state e;
     window_text := window_text e;
     handle := handle e |}.

(** The rectangle and its four reads all succeed. *)
Definition rect_readable (e : Element) : bool :=
  match rectangle e with
  | Ok rect =>
      match left rect, top rect, width rect, height rect with
      | Ok _, Ok _, Ok _, Ok _ => true
      | _, _, _, _ => false
      end
  | Raise _ => false
  end.

(** The elements the tree scan visits, in pre-order, each with its depth
    and the parent path it is scanned with: the descent stops below
    [max_depth] and at an element whose metadata read raises (which is
    still visited). *)
Fixpoint scan_visits (max_depth : Z) (e : Element) (depth : Z)
    (parent_path : string) {struct e} : list (Element * Z * string) :=
  if depth >? max_depth then []
  else
    (e, depth, parent_path)
    :: match metadata e with
       | Raise _ => []
       | Ok (name, control_type, automation_id, _) =>
           flat_map
             (fun c =>
                scan_visits max_depth c (depth + 1)
                  (current_path parent_path
                     (path_segment name control_type automation_id)))
             (children_items e)
       end.

(** The control type of an element, as the scan records it; [None] when
    the metadata read raises. *)
Definition control_type_of (e : Element) : option string :=
  match metadata e with
  | Ok (_, control_type, _, _) => Some control_type
  | Raise _ => None
  end.

(** What a search reports for a readable element scanned with parent path
    [parent_path]. *)
Definition found_entry (e : Element) (parent_path : string) : value :=
  match metadata e with
  | Ok (name, control_type, automation_id, _) =>
      VDict [("name", VStr name);
             ("automation_id", VStr automation_id);
             ("path",
              VStr (current_path parent_path
                      (path_segment name control_type automation_id)));
             ("rectangle", rect_info_of e)]
  | Raise _ => VNone
  end.

(** The content of the file at [p], if there is one. *)
Definition read_file (w : World) (p : path) : option value :=
  match find (fun f => path_eqb p (fst f)) (files w) with
  | Some f => Some (snd f)
  | None => None
  end.

(** The path [export_to_yaml] writes to: the one given, or
    [inspector_export.yaml] in the current directory. *)
Definition export_path_of (output_path : option path) : path :=
  match output_path with
  | None => ["inspector_export.yaml"]
  | Some p => p
  end.


(** The title read of a window succeeds and is non-empty. *)
Definition title_ok (win : Element) : bool :=
  match window_text win with
  | Ok title => negb (title =? "")%string
  | Raise _ => false
  end.

(** The platform calls [find_windows] makes on one window. *)
Definition entry_calls (win : Element) : list Call :=
  ElementCall OpWindowText win
  :: (if title_ok win
      then ElementCall OpRectangle win
           :: (if title_and_size_ok win
               then [ElementCall OpHandle win]
               else [])
      else []).

(** What every record of the flat walk satisfies under the bound
    [max_depth]. *)
Definition record_ok (max_depth : Z) (r : value) : Prop :=
  exists d depth type id name class,
    r = VDict d /\
    firstn 5 d = [("depth", VInt depth); ("type", VStr type);
                  ("id", VStr id); ("name", VStr name);
                  ("class", VStr class)] /\
    0 <= depth <= max_depth /\
    In type WindowMapper.useful_types /\
    (id <> "" \/ name <> "") /\
    (forall v, lookup d "value" = Some v ->
               type = "Edit" /\ exists text, v = VStr text /\ text <> "") /\
    (forall v, lookup d "checked" = Some v ->
               type = "CheckBox" /\ exists state, v = VInt state) /\
    lookup d "error" = None.

(** What every descriptor of [find_windows] satisfies. *)
Definition descriptor_ok (d : value) : Prop :=
  exists title h w ht,
    d = VDict [("title", VStr title); ("handle", VInt h);
               ("width", VInt w); ("height", VInt ht)] /\
    title <> "" /\ 100 < w /\ 100 < ht.

(** The calls [find_windows] makes to enumerate the windows: the first
    enumeration, and the plain one again when the first raises. *)
Definition enumeration_calls (title_pattern : option string)
    (desktop : Desktop) : list Call :=
  match title_pattern with
  | Some pattern =>
      if negb (pattern =? "")%string
      then DesktopWindows (Some pattern)
           :: match windows_re desktop pattern with
              | Ok _ => []
              | Raise _ => [DesktopWindows None]
              end
      else DesktopWindows None
           :: match windows desktop with
              | Ok _ => []
              | Raise _ => [DesktopWindows None]
              end
  | None =>
      DesktopWindows None
      :: match windows desktop with
         | Ok _ => []
         | Raise _ => [DesktopWindows None]
         end
  end.

(** The same world with more lines printed. *)
Definition printed (w : World) (lines : list string) : World :=
  {| dirs := dirs w; files := files w;
     stdout := (stdout w ++ lines)%list |}.

(** Whether [print_element_tree] prints a line for a scanned element: its
    metadata read succeeded and it has a name, an automation id, or one of
    the five key control types. *)
Definition shown (e : Element) : bool :=
  match metadata e with
  | Ok (name, control_type, automation_id, _) =>
      negb (name =? "")%string || negb (automation_id =? "")%string
      || (if in_dec string_dec control_type UIInspector.key_types
          then true else false)
  | Raise _ => false
  end.

(** The line printed for a scanned element at a depth: two spaces per
    level, the control type in brackets, then the name in quotes and the
    automation id, each when non-empty. *)
Definition tree_line (e : Element) (depth : Z) : string :=
  match metadata e with
  | Ok (name, control_type, automation_id, _) =>
      let line := str_repeat "  " depth ++ "[" ++ control_type ++ "]" in
      let line :=
        if negb (name =? "")%string then line ++ " '" ++ name ++ "'"
        else line in
      if negb (automation_id =? "")%string
      then line ++ " (ID: " ++ automation_id ++ ")"
      else line
  | Raise _ => ""
  end.

(** The lines [print_element_tree] prints for the elements of a visit. *)
Definition tree_lines (max_print_depth : Z)
    (visits : list (Element * Z * string)) : list string :=
  map (fun v => tree_line (fst (fst v)) (snd (fst v)))
    (filter
       (fun v => (snd (fst v) <=? max_print_depth * 2) && shown (fst (fst v)))
       visits).

(** The key [print_summary] counts a visited element under: its control
    type, or [Unknown] when its metadata read raised, the error marker
    having no [control_type]. *)
Definition summary_type (e : Element) : string :=
  match control_type_of e with
  | Some control_type => control_type
  | None => "Unknown"
  end.

(** The distinct texts of a list, in the order of their first occurrence. *)
Fixpoint distinct (l : list string) : list string :=
  match l with
  | [] => []
  | x :: l' => x :: filter (fun y => negb (y =? x)%string) (distinct l')
  end.

(** How many times a text occurs in a list. *)
Definition occurrences (l : list string) (x : string) : Z :=
  Z.of_nat (count_occ string_dec l x).

(** Each distinct text of a list with the number of its occurrences. *)
Definition type_counts_of (types : list string) : list (string * Z) :=
  map (fun t => (t, occurrences types t)) (distinct types).

(** [type_counts] after the visited elements were counted, one by one. *)
Definition counted (visits : list (Element * Z * string))
    (type_counts : list (value * Z)) : list (value * Z) :=
  fold_left UIInspector.count_up
    (map (fun v => VStr (summary_type (fst (fst v)))) visits) type_counts.

(** Counts by control type as the dictionary [type_counts] holds them. *)
Definition as_keys (type_counts : list (string * Z)) : list (value * Z) :=
  map (fun p => (VStr (fst p), snd p)) type_counts.

(** The order [sorted] puts the counts in: larger counts first. *)
Definition by_count (a b : value * Z) : Prop := snd b <= snd a.

(** Whether a visited element was read and has the control type. *)
Definition of_type (control_type : string) (v : Element * Z * string) : bool :=
  match control_type_of (fst (fst v)) with
  | Some ct => (ct =? control_type)%string
  | None => false
  end.

(** The line of the summary for a control type and its count. *)
Definition count_line (item : string * Z) : string :=
  "  " ++ fst item ++ ": " ++ str_of_Z (snd item).

(** The line of the key elements for a readable element. *)
Definition key_element_line (e : Element) : string :=
  match metadata e with
  | Ok (name, _, automation_id, _) =>
      "  - Name: '"
      ++ (if (name =? "")%string then "(no name)" else name)
      ++ "' | ID: "
      ++ (if (automation_id =? "")%string then "(no id)" else automation_id)
  | Raise _ => ""
  end.

(** The lines of the key elements for one control type: none when no
    visited element has it, else a heading with their number and a line
    for each of the first ten. *)
Definition key_element_lines (visits : list (Element * Z * string))
    (control_type : string) : list string :=
  match filter (of_type control_type) visits with
  | [] => []
  | found =>
      (nl ++ "[" ++ control_type ++ "] (" ++ str_of_Z (len found) ++ " found)")
      :: map (fun v => key_element_line (fst (fst v))) (firstn 10 found)
  end.

(** The control types [print_summary] counts for a scan, each with its
    count, in the order of their first visit. *)
Definition summary_counts (max_depth : Z) (root : Element)
    : list (string * Z) :=
  type_counts_of
    (map (fun v => summary_type (fst (fst v)))
       (scan_visits max_depth root 0 "")).

(** The session after [connect] set [self.window] to [window], made the
    platform calls [new_calls] and printed [lines]. *)
Definition session_with (st : UIInspector.Session) (window : option Element)
    (new_calls : list Call) (lines : list string) : UIInspector.Session :=
  {| UIInspector.self_window := window;
     UIInspector.self_max_depth := UIInspector.self_max_depth st;
     UIInspector.self_elements := UIInspector.self_elements st;
     UIInspector.calls := (UIInspector.calls st ++ new_calls)%list;
     UIInspector.world := printed (UIInspector.world st) lines |}.

(** The three lines every call of [connect] starts with. *)
Definition connect_banner : list string :=
  [nl ++ str_repeat "=" 70; "Windows GUI Inspector"; str_repeat "=" 70].

(** The first exception of a connection to the window of a pattern, if
    one of its three steps raises: resolving the window, reading its title,
    reading its handle. *)
Definition connect_error (desktop_window : string -> Result Element)
    (pattern : string) : option string :=
  match desktop_window pattern with
  | Raise msg => Some msg
  | Ok win =>
      match window_text win with
      | Raise msg => Some msg
      | Ok _ =>
          match handle win with
          | Raise msg => Some msg
          | Ok _ => None
          end
      end
  end.


(** The inspector that [UIInspector.__init__] builds, with the console and
    file system [w]: no window, no scanned screen, no platform call yet. *)
Definition new_inspector (max_depth : Z) (w : World) : UIInspector.Session :=
  {| UIInspector.self_window := None;
     UIInspector.self_max_depth := max_depth;
     UIInspector.self_elements := [];
     UIInspector.calls := [];
     UIInspector.world := w |}.

(** A console and file system with nothing in them. *)
Definition empty_world : World := {| dirs := []; files := []; stdout := [] |}.

(** A record that the listing of [run] can print: a dictionary whose type,
    id and name are texts, as those of [map_window_elements] are. *)
Definition listable (r : value) : Prop :=
  exists d t id name,
    r = VDict d /\ lookup d "type" = Some (VStr t)
    /\ lookup d "id" = Some (VStr id) /\ lookup d "name" = Some (VStr name).

(** The groups of [by_type] have texts as types and records that can be
    listed. *)
Definition groups_ok (by_type : list (value * list value)) : Prop :=
  Forall (fun kv => (exists t, fst kv = VStr t) /\ Forall listable (snd kv))
    by_type.

(** The mapper's state after more platform calls, more printed lines and
    more readings of the clock. *)
Definition run_state_with (st : WindowMapper.RunState) (new_calls : list Call)
    (lines : list string) (readings : nat) : WindowMapper.RunState :=
  {| WindowMapper.run_calls := (WindowMapper.run_calls st ++ new_calls)%list;
     WindowMapper.run_world := printed (WindowMapper.run_world st) lines;
     WindowMapper.run_clock := (WindowMapper.run_clock st + readings)%nat |}.

(** The title, the handle and the size of a window whose reads succeed,
    as [find_windows] puts them in its descriptor and [run] prints them. *)
Definition window_title (win : Element) : string :=
  match window_text win with
  | Ok title => title
  | Raise _ => ""
  end.

Definition window_handle (win : Element) : Z :=
  match handle win with
  | Ok h => h
  | Raise _ => 0
  end.

Definition window_size (win : Element) : string :=
  match rectangle win with
  | Ok rect =>
      match width rect, height rect with
      | Ok w, Ok h => str_of_Z w ++ "x" ++ str_of_Z h
      | _, _ => ""
      end
  | Raise _ => ""
  end.

(** The windows [run] maps: those [find_windows] keeps. *)
Definition accepted (wins : list Element) : list Element :=
  filter (fun w => title_and_size_ok w && handle_ok w) wins.

(** The mapping [run] records for the desktop window [win], connected to
    as [window], at the time [mapped_at]. *)
Definition mapping_of (max_depth : Z) (win window : Element)
    (mapped_at : string) : value :=
  VDict [("size", VStr (window_size win));
         ("elements", VList (records_of (walk max_depth window 0)));
         ("mapped_at", VStr mapped_at)].

(** [all_mappings] after the windows [wins] were gone through, the clock
    having been read [clock] times before: a window whose connection
    raises is skipped. *)
Fixpoint mappings_of (max_depth : Z)
    (application_window : value -> Result Element) (now : nat -> string)
    (wins : list Element) (clock : nat) (all_mappings : list (value * value))
    : list (value * value) :=
  match wins with
  | [] => all_mappings
  | win :: wins' =>
      match application_window (VInt (window_handle win)) with
      | Ok window =>
          mappings_of max_depth application_window now wins' (S clock)
            (WindowMapper.set_mapping all_mappings (VStr (window_title win))
               (mapping_of max_depth win window (now clock)))
      | Raise _ =>
          mappings_of max_depth application_window now wins' clock
            all_mappings
      end
  end.

(** The windows of a list that [run] can connect to. *)
Definition connected (application_window : value -> Result Element)
    (wins : list Element) : list Element :=
  filter
    (fun win =>
       match application_window (VInt (window_handle win)) with
       | Ok _ => true
       | Raise _ => false
       end)
    wins.

(** The platform calls of [run] on the windows it connects to. *)
Definition mapping_calls (max_depth : Z)
    (application_window : value -> Result Element) (wins : list Element)
    : list Call :=
  flat_map
    (fun win =>
       match application_window (VInt (window_handle win)) with
       | Ok window => flat_calls max_depth window 0
       | Raise _ => []
       end)
    wins.

(** The lines of [run] for the windows found, numbered from [i + 1]. *)
Fixpoint window_lines (i : Z) (wins : list Element) : list string :=
  match wins with
  | [] => []
  | win :: wins' =>
      ("  " ++ str_of_Z (i + 1) ++ ". [" ++ window_title win ++ "] "
       ++ window_size win)
      :: window_lines (i + 1) wins'
  end.

(** The three lines [run] starts with, and the three it ends with. *)
Definition run_banner : list string :=
  [nl ++ str_repeat "=" 70; "FINDING WINDOWS"; str_repeat "=" 70].

Definition run_footer : list string :=
  [nl ++ str_repeat "=" 70; "MAPPING COMPLETE"; str_repeat "=" 70].



(** The screen [scan_current_screen] stores and returns for the window
    [win]: its scan with the label and the time added. *)
Definition scanned_screen (max_depth : Z) (win : Element)
    (screen_name scanned_at : string) : dict :=
  UIInspector.set_item
    (UIInspector.set_item (scanned max_depth win 0 "") "screen_name"
       (VStr screen_name))
    "scanned_at" (VStr scanned_at).

(* ================================================================== *)
(** ** The reads *)
(* ================================================================== *)

Lemma read_metadata_run {S : Type} `{Logging S} (e : Element) (s : S) :
  read_metadata e s = (metadata e, log_call (ElementCall OpElementInfo e) s).
Proof.
  unfold read_metadata, metadata, bind, call, prop, ret.
  destruct (element_info e) as [info|]; [|reflexivity].
  destruct (name info); [|reflexivity].
  destruct (control_type info); [|reflexivity].
  destruct (automation_id info); [|reflexivity].
  destruct (class_name info); reflexivity.
Qed.

Lemma read_rect_info_run (e : Element) (s : list Call) :
  UIInspector.read_rect_info e s
  = (Ok (rect_info_of e), (s ++ [ElementCall OpRectangle e])%list).
Proof.
  unfold UIInspector.read_rect_info, rect_info_of, try_except, bind, call,
    prop, ret; simpl.
  destruct (rectangle e) as [rect|]; [|reflexivity].
  destruct (left rect); [|reflexivity].
  destruct (top rect); [|reflexivity].
  destruct (width rect); [|reflexivity].
  destruct (height rect); reflexivity.
Qed.

Lemma str_or_path_segment (name control_type automation_id : string) :
  str_or (str_or automation_id name) control_type
  = path_segment name control_type automation_id.
Proof.
  unfold str_or, path_segment.
  destruct (automation_id =? "")%string eqn:Ha; simpl.
  - destruct (name =? "")%string; reflexivity.
  - rewrite Ha. reflexivity.
Qed.

(** [scan_element] never raises: it returns [scan_dict] and adds
    [scan_calls] to the log. *)
Lemma scan_element_run (max_depth : Z) (e : Element) :
  forall (depth : Z) (parent_path : string) (s : list Call),
    UIInspector.scan_element max_depth e depth parent_path s
    = (Ok (scan_dict max_depth e depth parent_path),
       (s ++ scan_calls max_depth e depth)%list).
Proof.
  induction e as [e IH] using Element_nested_ind.
  intros depth parent_path s.
  destruct e as [ei r cs ce lp ts wt h]; simpl in IH.
  cbn [UIInspector.scan_element scan_dict scan_calls children_items].
  destruct (depth >? max_depth) eqn:Hd.
  { unfold ret. rewrite app_nil_r. reflexivity. }
  set (e := MkElement ei r cs ce lp ts wt h) in *.
  unfold try_except at 1. unfold bind at 1.
  rewrite read_metadata_run.
  destruct (metadata e) as [[[[n ct] aid] cn]|msg] eqn:Hm.
  2:{ unfold ret. reflexivity. }
  clearbody e.
  unfold bind at 1. rewrite read_rect_info_run.
  unfold bind at 1. unfold call at 1.
  unfold bind at 1.
  rewrite str_or_path_segment.
  fold (current_path parent_path (path_segment n ct aid)).
  set (path := current_path parent_path (path_segment n ct aid)).
  cbn [log_call Logging_list].
  match goal with
  | |- context [(fix loop (cs0 : list Element) (acc : list value) {struct cs0}
                   : M (list Call) (list value) := _) cs [] ?s0] =>
      set (s1 := s0)
  end.
  assert (Hloop : forall (acc : list value) (s0 : list Call),
    (fix loop (cs0 : list Element) (acc0 : list value) {struct cs0}
       : M (list Call) (list value) :=
       match cs0 with
       | [] => try_except (end_of_children e ;;; ret acc0) (fun _ => ret acc0)
       | child :: cs' =>
           fun s2 =>
             match UIInspector.scan_element max_depth child (depth + 1) path s2 with
             | (Ok child_info, s') =>
                 loop cs'
                   (if truthy (VDict child_info)
                    then (acc0 ++ [VDict child_info])%list
                    else acc0) s'
             | (Raise _, s') => (Ok acc0, s')
             end
       end) cs acc s0
    = (Ok (acc ++ filter truthy
             (map (fun c => VDict (scan_dict max_depth c (depth + 1) path)) cs))%list,
       (s0 ++ flat_map (fun c => scan_calls max_depth c (depth + 1)) cs)%list)).
  { clear s1. induction IH as [|c cs' Hc _ IHcs]; intros acc s0.
    - cbn [map filter flat_map]. rewrite !app_nil_r.
      unfold try_except, bind, end_of_children, ret, raise.
      destruct (children_error e); reflexivity.
    - rewrite Hc. cbn [map filter flat_map].
      rewrite IHcs.
      destruct (truthy (VDict (scan_dict max_depth c (depth + 1) path)));
        rewrite <- !app_assoc; reflexivity. }
  rewrite Hloop. unfold ret. subst s1.
  rewrite <- !app_assoc. reflexivity.
Qed.

Lemma scanned_eq (max_depth : Z) (e : Element) (depth : Z) (parent_path : string) :
  scanned max_depth e depth parent_path = scan_dict max_depth e depth parent_path.
Proof. unfold scanned. rewrite scan_element_run. reflexivity. Qed.

(* ================================================================== *)
(** ** Trees of dictionaries: equations *)
(* ================================================================== *)

Lemma nodes_eq (d : dict) :
  nodes (VDict d) = VDict d :: flat_map nodes (children_of (VDict d)).
Proof.
  cbn [nodes]. f_equal.
  unfold children_of, get_default.
  induction d as [|[k v] d IH]; [reflexivity|].
  cbn [lookup]. destruct (k =? "children")%string.
  - destruct v; reflexivity.
  - exact IH.
Qed.

Lemma find_elements_by_type_eq (d : dict) (control_type : string)
    (results : list value) :
  UIInspector.find_elements_by_type (VDict d) control_type results
  = fold_left
      (fun acc child => UIInspector.find_elements_by_type child control_type acc)
      (children_of (VDict d))
      (if matches control_type (VDict d)
       then (results ++ [projection (VDict d)])%list
       else results).
Proof.
  cbn [UIInspector.find_elements_by_type matches projection].
  set (results1 := if eq_str (get d "control_type") control_type then _ else _).
  clearbody results1.
  unfold children_of, get_default.
  induction d as [|[k v] d IH]; [reflexivity|].
  cbn [lookup]. destruct (k =? "children")%string.
  - destruct v; reflexivity.
  - exact IH.
Qed.

Lemma lookup_Forall (P : value -> Prop) (d : dict) (k : string) (v : value) :
  Forall (fun kv => P (snd kv)) d -> lookup d k = Some v -> P v.
Proof.
  induction 1 as [|[k' v'] d Hkv _ IH]; cbn [lookup]; [discriminate|].
  destruct (k' =? k)%string.
  - intros [= <-]. exact Hkv.
  - exact IH.
Qed.

Lemma find_elements_fold (control_type : string) (xs : list value) :
  Forall
    (fun t => forall results,
       UIInspector.find_elements_by_type t control_type results
       = (results ++ map projection (filter (matches control_type) (nodes t)))%list)
    xs ->
  forall acc,
    fold_left
      (fun acc0 child => UIInspector.find_elements_by_type child control_type acc0)
      xs acc
    = (acc ++ map projection
               (filter (matches control_type) (flat_map nodes xs)))%list.
Proof.
  induction 1 as [|x xs Hx _ IH]; intros acc; cbn [fold_left flat_map].
  - rewrite app_nil_r. reflexivity.
  - rewrite IH, Hx, filter_app, map_app, app_assoc. reflexivity.
Qed.

(** [find_elements_by_type] appends the projections of the matching nodes,
    in pre-order. *)
Lemma find_elements_preorder (control_type : string) (t : value) :
  forall results,
    UIInspector.find_elements_by_type t control_type results
    = (results ++ map projection (filter (matches control_type) (nodes t)))%list.
Proof.
  set (P := fun t => forall results,
    UIInspector.find_elements_by_type t control_type results
    = (results ++ map projection (filter (matches control_type) (nodes t)))%list).
  enough (HQ : P t /\ match t with VList xs => Forall P xs | _ => True end)
    by exact (proj1 HQ).
  induction t as [| s | z | xs IH | d IH] using value_nested_ind.
  - split; [|exact I]. intros results. cbn. rewrite app_nil_r. reflexivity.
  - split; [|exact I]. intros results. cbn. rewrite app_nil_r. reflexivity.
  - split; [|exact I]. intros results. cbn. rewrite app_nil_r. reflexivity.
  - split.
    + intros results. cbn. rewrite app_nil_r. reflexivity.
    + eapply Forall_impl; [|exact IH]. intros a Ha. exact (proj1 Ha).
  - split; [|exact I]. intros results.
    rewrite find_elements_by_type_eq, nodes_eq.
    assert (Hkids : Forall P (children_of (VDict d))).
    { unfold children_of, get_default.
      destruct (lookup d "children") as [v|] eqn:Hl; [|constructor].
      pose proof (lookup_Forall
        (fun v => P v /\ match v with VList xs => Forall P xs | _ => True end)
        d "children" v IH Hl) as Hv.
      destruct v; try constructor. exact (proj2 Hv). }
    rewrite (find_elements_fold control_type _ Hkids).
    cbn [filter map].
    destruct (matches control_type (VDict d)).
    + rewrite <- app_assoc. reflexivity.
    + reflexivity.
Qed.

Lemma is_error_marker_shape (t : value) :
  is_error_marker t = true ->
  exists msg depth, t = VDict (error_marker msg depth).
Proof.
  intros H.
  destruct t as [| | | |d]; try discriminate H.
  destruct d as [|[k1 v1] d]; try discriminate H.
  destruct v1 as [|msg| | |]; try discriminate H.
  destruct d as [|[k2 v2] d]; try discriminate H.
  destruct v2 as [| |depth| |]; try discriminate H.
  destruct d as [|kv d]; try discriminate H.
  cbn [is_error_marker] in H.
  apply andb_true_iff in H. destruct H as [H1 H2].
  apply String.eqb_eq in H1. apply String.eqb_eq in H2. subst.
  exists msg, depth. reflexivity.
Qed.

Lemma is_error_marker_no_match (control_type : string) (t : value) :
  is_error_marker t = true -> matches control_type t = false.
Proof.
  intros H. destruct (is_error_marker_shape t H) as (msg & depth & ->).
  reflexivity.
Qed.

(* ================================================================== *)
(** ** The shape of a scanned tree *)
(* ================================================================== *)

Lemma scan_dict_eq (max_depth : Z) (e : Element) (depth : Z) (parent_path : string) :
  scan_dict max_depth e depth parent_path
  = if depth >? max_depth then []
    else
      match metadata e with
      | Raise msg => error_marker msg depth
      | Ok (name, control_type, automation_id, class_name) =>
          let path :=
            current_path parent_path
              (path_segment name control_type automation_id) in
          [("name", VStr name);
           ("control_type", VStr control_type);
           ("automation_id", VStr automation_id);
           ("class_name", VStr class_name);
           ("path", VStr path);
           ("depth", VInt depth);
           ("rectangle", rect_info_of e);
           ("children",
            VList
              (filter truthy
                 (map (fun c => VDict (scan_dict max_depth c (depth + 1) path))
                    (children_items e))))]
      end.
Proof. destruct e; reflexivity. Qed.

Lemma all_readable_eq (e : Element) :
  all_readable e = readable e && forallb all_readable (children_items e).
Proof. destruct e; reflexivity. Qed.

Lemma scan_dict_truthy (max_depth : Z) (e : Element) (depth : Z) (parent_path : string) :
  truthy (VDict (scan_dict max_depth e depth parent_path))
  = negb (depth >? max_depth).
Proof.
  rewrite scan_dict_eq. destruct (depth >? max_depth); [reflexivity|].
  destruct (metadata e) as [[[[n ct] aid] cn]|msg]; reflexivity.
Qed.

Lemma gtb_false_le (a b : Z) : (a >? b) = false <-> a <= b.
Proof. rewrite Z.gtb_ltb. apply Z.ltb_ge. Qed.

(** Below the bound every child is kept; at the bound none is. *)
Lemma scan_children_below (max_depth depth : Z) (path : string) (cs : list Element) :
  depth < max_depth ->
  filter truthy (map (fun c => VDict (scan_dict max_depth c (depth + 1) path)) cs)
  = map (fun c => VDict (scan_dict max_depth c (depth + 1) path)) cs.
Proof.
  intros Hd. induction cs as [|c cs IH]; [reflexivity|].
  cbn [map filter]. rewrite scan_dict_truthy, IH.
  replace (depth + 1 >? max_depth) with false by (symmetry; apply gtb_false_le; lia).
  reflexivity.
Qed.

Lemma scan_children_at_bound (max_depth depth : Z) (path : string) (cs : list Element) :
  max_depth <= depth ->
  filter truthy (map (fun c => VDict (scan_dict max_depth c (depth + 1) path)) cs)
  = [].
Proof.
  intros Hd. induction cs as [|c cs IH]; [reflexivity|].
  cbn [map filter]. rewrite scan_dict_truthy, IH.
  replace (depth + 1 >? max_depth) with true by (symmetry; apply Z.gtb_lt; lia).
  reflexivity.
Qed.

Lemma scan_nodes_depth (D : Z) (e : Element) :
  forall (depth : Z) (parent_path : string),
    depth <= D -> all_readable e = true ->
    forall n, In n (nodes (VDict (scan_dict D e depth parent_path))) ->
      exists d, depth_of n = Some d /\ depth <= d <= D /\
        (forall c, In c (children_of n) -> depth_of c = Some (d + 1)) /\
        (d = D -> exists kvs, n = VDict kvs /\
                              lookup kvs "children" = Some (VList [])).
Proof.
  induction e as [e IH] using Element_nested_ind.
  intros depth parent_path Hd Hall n Hn.
  rewrite all_readable_eq in Hall. apply andb_true_iff in Hall.
  destruct Hall as [Hr Hkids].
  rewrite forallb_forall in Hkids. rewrite Forall_forall in IH.
  rewrite scan_dict_eq in Hn.
  replace (depth >? D) with false in Hn by (symmetry; apply gtb_false_le; exact Hd).
  unfold readable in Hr.
  destruct (metadata e) as [[[[nm ct] aid] cn]|msg]; [|discriminate Hr].
  cbv zeta in Hn.
  set (path := current_path parent_path (path_segment nm ct aid)) in *.
  rewrite nodes_eq in Hn.
  cbn [children_of get_default lookup String.eqb Ascii.eqb Bool.eqb as_list] in Hn.
  destruct Hn as [<- | Hn].
  - exists depth. split; [reflexivity|]. split; [lia|]. split.
    + intros c Hc.
      cbn [children_of get_default lookup String.eqb Ascii.eqb Bool.eqb as_list] in Hc.
      apply filter_In in Hc. destruct Hc as [Hc Ht].
      apply in_map_iff in Hc. destruct Hc as (child & <- & Hchild).
      rewrite scan_dict_truthy in Ht. apply negb_true_iff, gtb_false_le in Ht.
      rewrite scan_dict_eq.
      replace (depth + 1 >? D) with false by (symmetry; apply gtb_false_le; exact Ht).
      specialize (Hkids child Hchild). rewrite all_readable_eq in Hkids.
      apply andb_true_iff in Hkids. destruct Hkids as [Hrc _].
      unfold readable in Hrc.
      destruct (metadata child) as [[[[nm' ct'] aid'] cn']|msg']; [|discriminate Hrc].
      reflexivity.
    + intros ->. eexists. split; [reflexivity|].
      cbn [lookup String.eqb Ascii.eqb Bool.eqb].
      rewrite scan_children_at_bound by lia. reflexivity.
  - apply in_flat_map in Hn. destruct Hn as (kid & Hkid & Hn).
    apply filter_In in Hkid. destruct Hkid as [Hkid Ht].
    apply in_map_iff in Hkid. destruct Hkid as (child & <- & Hchild).
    rewrite scan_dict_truthy in Ht. apply negb_true_iff, gtb_false_le in Ht.
    destruct (IH child Hchild (depth + 1) path Ht (Hkids child Hchild) n Hn)
      as (d & Hdn & Hrange & Hrest).
    exists d. split; [exact Hdn|]. split; [lia|exact Hrest].
Qed.

(* ================================================================== *)
(** ** The scan of [UIInspector] *)
(* ================================================================== *)

(** C1.  For an accessibility tree whose nodes are all readable and a bound
    [D >= 0], [scan_element] from the root (depth 0, empty parent path)
    returns a tree whose root has depth 0 and in which every node has a
    depth [d] with [0 <= d <= D], every child of a node of depth [d] has
    depth [d + 1], and a node of depth [D] has the empty list under
    [children], whatever children the underlying element has. *)
Theorem scan_element_depth_bound (D : Z) (root : Element) (s : list Call) :
  0 <= D ->
  all_readable root = true ->
  exists tree s',
    UIInspector.scan_element D root 0 "" s = (Ok tree, s') /\
    depth_of (VDict tree) = Some 0 /\
    forall n, In n (nodes (VDict tree)) ->
      exists d, depth_of n = Some d /\ 0 <= d <= D /\
        (forall c, In c (children_of n) -> depth_of c = Some (d + 1)) /\
        (d = D -> exists kvs, n = VDict kvs /\
                              lookup kvs "children" = Some (VList [])).
Proof.
  intros HD Hall.
  exists (scan_dict D root 0 ""), (s ++ scan_calls D root 0)%list.
  split; [apply scan_element_run|]. split.
  - rewrite scan_dict_eq.
    replace (0 >? D) with false by (symmetry; apply gtb_false_le; exact HD).
    rewrite all_readable_eq in Hall. apply andb_true_iff in Hall.
    destruct Hall as [Hr _]. unfold readable in Hr.
    destruct (metadata root) as [[[[nm ct] aid] cn]|msg]; [|discriminate Hr].
    reflexivity.
  - intros n Hn. exact (scan_nodes_depth D root 0 "" HD Hall n Hn).
Qed.

Lemma scan_element_depth_bound_witness :
  0 <= 0 /\
  all_readable Fixtures.mock_window = true /\
  children_items Fixtures.mock_window = [Fixtures.pane] /\
  exists tree s',
    UIInspector.scan_element 0 Fixtures.mock_window 0 "" [] = (Ok tree, s') /\
    depth_of (VDict tree) = Some 0 /\
    forall n, In n (nodes (VDict tree)) ->
      exists d, depth_of n = Some d /\ 0 <= d <= 0 /\
        (forall c, In c (children_of n) -> depth_of c = Some (d + 1)) /\
        (d = 0 -> exists kvs, n = VDict kvs /\
                              lookup kvs "children" = Some (VList [])).
Proof.
  split; [lia|]. split; [reflexivity|]. split; [reflexivity|].
  apply (scan_element_depth_bound 0 Fixtures.mock_window []);
    [lia | reflexivity].
Defined.

Lemma lookup_children_node (a b c d e f g : value) (kids : list value) (k : string) :
  k <> "children" ->
  lookup [("name", a); ("control_type", b); ("automation_id", c);
          ("class_name", d); ("path", e); ("depth", f); ("rectangle", g);
          ("children", VList kids)] k
  = lookup [("name", a); ("control_type", b); ("automation_id", c);
            ("class_name", d); ("path", e); ("depth", f); ("rectangle", g);
            ("children", VList [])] k.
Proof.
  intros Hk. cbn [lookup].
  repeat match goal with
         | |- context [(?x =? k)%string] => destruct (x =? k)%string eqn:?
         end; try reflexivity.
  match goal with H : ("children" =? k)%string = true |- _ =>
    apply String.eqb_eq in H; congruence end.
Qed.

(** C2.  When the metadata read of a node raises during [scan_element]
    (the node is within the depth bound, so the read is made), the result
    is exactly [{"error": msg, "depth": depth}], with no [children] key, and
    the only platform call is that read: the node's children are not
    enumerated.  A readable parent that yields the node among its children
    returns a normal node whose [children] list holds this error entry at
    the node's position, between the scans of the node's siblings; the
    parent's other entries are those it has without the node. *)
Theorem scan_element_metadata_error (max_depth : Z) (e : Element) (depth : Z)
    (parent_path msg : string) (s : list Call) :
  metadata e = Raise msg ->
  depth <= max_depth ->
  UIInspector.scan_element max_depth e depth parent_path s
  = (Ok [("error", VStr msg); ("depth", VInt depth)],
     (s ++ [ElementCall OpElementInfo e])%list)
  /\ lookup [("error", VStr msg); ("depth", VInt depth)] "children" = None
  /\ forall (parent : Element) (before after : list Element)
            (ppath : string) (s0 : list Call),
       children_items parent = (before ++ e :: after)%list ->
       readable parent = true ->
       exists t s' path t0 s0',
         UIInspector.scan_element max_depth parent (depth - 1) ppath s0
         = (Ok t, s') /\
         lookup t "error" = None /\
         lookup t "path" = Some (VStr path) /\
         lookup t "children"
         = Some (VList
                   (map (fun c => VDict (scanned max_depth c depth path)) before
                    ++ VDict [("error", VStr msg); ("depth", VInt depth)]
                    :: map (fun c => VDict (scanned max_depth c depth path))
                         after)) /\
         UIInspector.scan_element max_depth
           (with_children parent (before ++ after)) (depth - 1) ppath s0
         = (Ok t0, s0') /\
         lookup t0 "children"
         = Some (VList
                   (map (fun c => VDict (scanned max_depth c depth path))
                      (before ++ after))) /\
         forall k, k <> "children" -> lookup t k = lookup t0 k.
Proof.
  intros Hm Hd. split; [|split; [reflexivity|]].
  - rewrite scan_element_run, scan_dict_eq.
    destruct e as [ei r cs ce lp ts wt h]. cbn [scan_calls].
    replace (depth >? max_depth) with false
      by (symmetry; apply gtb_false_le; exact Hd).
    rewrite Hm. reflexivity.
  - intros parent before after ppath s0 Hkids Hr.
    unfold readable in Hr.
    destruct (metadata parent) as [[[[nm ct] aid] cn]|pmsg] eqn:Hp;
      [|discriminate Hr].
    set (path := current_path ppath (path_segment nm ct aid)).
    eexists _, _, path, _, _.
    split; [apply scan_element_run|].
    rewrite (scan_dict_eq max_depth parent).
    replace (depth - 1 >? max_depth) with false
      by (symmetry; apply gtb_false_le; lia).
    rewrite Hp. cbv zeta. fold path.
    replace (depth - 1 + 1) with depth by lia.
    split; [reflexivity|]. split; [reflexivity|]. split.
    { cbn [lookup String.eqb Ascii.eqb Bool.eqb]. do 2 f_equal.
      pose proof (scan_children_below max_depth (depth - 1) path
                    (children_items parent)) as Hall.
      replace (depth - 1 + 1) with depth in Hall by lia.
      rewrite Hall by lia. rewrite Hkids, map_app. cbn [map].
      f_equal.
      - apply map_ext. intros c. rewrite scanned_eq. reflexivity.
      - f_equal.
        + rewrite scan_dict_eq.
          replace (depth >? max_depth) with false
            by (symmetry; apply gtb_false_le; exact Hd).
          rewrite Hm. reflexivity.
        + apply map_ext. intros c. rewrite scanned_eq. reflexivity. }
    split; [apply scan_element_run|].
    rewrite (scan_dict_eq max_depth (with_children parent (before ++ after))).
    replace (depth - 1 >? max_depth) with false
      by (symmetry; apply gtb_false_le; lia).
    replace (metadata (with_children parent (before ++ after)))
      with (metadata parent) by reflexivity.
    rewrite Hp. cbv zeta. fold path.
    replace (depth - 1 + 1) with depth by lia.
    split.
    { cbn [lookup String.eqb Ascii.eqb Bool.eqb]. do 2 f_equal.
      cbn [children_items with_children].
      pose proof (scan_children_below max_depth (depth - 1) path
                    (before ++ after)) as Hall.
      replace (depth - 1 + 1) with depth in Hall by lia.
      rewrite Hall by lia.
      apply map_ext. intros c. rewrite scanned_eq. reflexivity. }
    intros k Hk.
    replace (rect_info_of (with_children parent (before ++ after)))
      with (rect_info_of parent) by reflexivity.
    rewrite lookup_children_node by exact Hk.
    symmetry. rewrite lookup_children_node by exact Hk. reflexivity.
Qed.

Lemma scan_element_metadata_error_witness :
  metadata Fixtures.broken = Raise "broken" /\
  1 <= 2 /\
  UIInspector.scan_element 2 Fixtures.broken 1 "Win" []
  = (Ok [("error", VStr "broken"); ("depth", VInt 1)],
     [ElementCall OpElementInfo Fixtures.broken]) /\
  exists t s' path t0 s0',
    UIInspector.scan_element 2 Fixtures.window_with_broken (1 - 1) "" []
    = (Ok t, s') /\
    lookup t "error" = None /\
    lookup t "path" = Some (VStr path) /\
    lookup t "children"
    = Some (VList
              (map (fun c => VDict (scanned 2 c 1 path)) [Fixtures.buy_btn]
               ++ VDict [("error", VStr "broken"); ("depth", VInt 1)]
               :: map (fun c => VDict (scanned 2 c 1 path)) [Fixtures.sell_btn])) /\
    UIInspector.scan_element 2
      (with_children Fixtures.window_with_broken
         ([Fixtures.buy_btn] ++ [Fixtures.sell_btn])) (1 - 1) "" []
    = (Ok t0, s0') /\
    lookup t0 "children"
    = Some (VList
              (map (fun c => VDict (scanned 2 c 1 path))
                 ([Fixtures.buy_btn] ++ [Fixtures.sell_btn]))) /\
    forall k, k <> "children" -> lookup t k = lookup t0 k.
Proof.
  assert (Hm : metadata Fixtures.broken = Raise "broken") by reflexivity.
  assert (Hd : 1 <= 2) by lia.
  split; [exact Hm|]. split; [exact Hd|].
  pose proof (scan_element_metadata_error 2 Fixtures.broken 1 "Win" "broken"
                [] Hm Hd) as [Hself [_ Hparent]].
  split; [exact Hself|].
  exact (Hparent Fixtures.window_with_broken [Fixtures.buy_btn]
           [Fixtures.sell_btn] "" [] eq_refl eq_refl).
Defined.

(** C3.  For a readable node scanned by [scan_element] within the bound,
    the [path] entry is the parent path, a slash and the segment when the
    parent path is non-empty, and the segment alone otherwise, where the
    segment is the automation id if non-empty, else the name if non-empty,
    else the control type.  The node's children are scanned with this path
    as their parent path, so the rule applies again at each level. *)
Theorem scan_element_path (max_depth : Z) (e : Element) (depth : Z)
    (parent_path : string) (s : list Call)
    (name control_type automation_id class_name : string) :
  metadata e = Ok (name, control_type, automation_id, class_name) ->
  depth <= max_depth ->
  exists t s',
    UIInspector.scan_element max_depth e depth parent_path s = (Ok t, s') /\
    lookup t "path"
    = Some (VStr (current_path parent_path
                    (path_segment name control_type automation_id))) /\
    lookup t "children"
    = Some (VList
              (filter truthy
                 (map (fun c =>
                         VDict (scanned max_depth c (depth + 1)
                                  (current_path parent_path
                                     (path_segment name control_type
                                        automation_id))))
                    (children_items e)))).
Proof.
  intros Hm Hd. eexists _, _.
  split; [apply scan_element_run|].
  rewrite scan_dict_eq.
  replace (depth >? max_depth) with false
    by (symmetry; apply gtb_false_le; exact Hd).
  rewrite Hm. cbv zeta. split; [reflexivity|].
  cbn [lookup String.eqb Ascii.eqb Bool.eqb]. do 3 f_equal.
  apply map_ext. intros c. rewrite scanned_eq. reflexivity.
Qed.

Lemma scan_element_path_witness :
  metadata Fixtures.bare_window = Ok ("", "Window", "", "") /\
  0 <= 4 /\
  current_path "" (path_segment "" "Window" "") = "Window" /\
  exists t s',
    UIInspector.scan_element 4 Fixtures.bare_window 0 "" [] = (Ok t, s') /\
    lookup t "path"
    = Some (VStr (current_path "" (path_segment "" "Window" ""))) /\
    lookup t "children"
    = Some (VList
              (filter truthy
                 (map (fun c =>
                         VDict (scanned 4 c (0 + 1)
                                  (current_path ""
                                     (path_segment "" "Window" ""))))
                    (children_items Fixtures.bare_window)))).
Proof.
  assert (Hm : metadata Fixtures.bare_window = Ok ("", "Window", "", ""))
    by reflexivity.
  assert (Hd : 0 <= 4) by lia.
  split; [exact Hm|]. split; [exact Hd|]. split; [reflexivity|].
  exact (scan_element_path 4 Fixtures.bare_window 0 "" [] "" "Window" "" ""
           Hm Hd).
Defined.

(** The example of the specification: the root's path is [Window], its
    child's path is [Window/102]. *)
Lemma window_path_example :
  exists root child rest,
    fst (UIInspector.scan_element 4 Fixtures.bare_window 0 "" []) = Ok root /\
    lookup root "path" = Some (VStr "Window") /\
    lookup root "children" = Some (VList (VDict child :: rest)) /\
    lookup child "path" = Some (VStr "Window/102").
Proof. eexists _, _, _. repeat split; vm_compute; reflexivity. Qed.

(** C7.  When the enumeration of a readable node's children raises (at
    once, or after some children), [scan_element] still returns a normal
    node, with no [error] entry: its [children] list holds the scans of the
    children yielded before the failure, and the whole dictionary is the
    one returned when the enumeration ends normally after the same
    children.  The scan returns; nothing is raised to the caller. *)
Theorem scan_element_children_failure (max_depth : Z) (e : Element)
    (depth : Z) (parent_path msg : string) (s : list Call) :
  children_error e = Some msg ->
  readable e = true ->
  depth <= max_depth ->
  exists t s' path,
    UIInspector.scan_element max_depth e depth parent_path s = (Ok t, s') /\
    lookup t "error" = None /\
    lookup t "path" = Some (VStr path) /\
    lookup t "children"
    = Some (VList
              (filter truthy
                 (map (fun c => VDict (scanned max_depth c (depth + 1) path))
                    (children_items e)))) /\
    fst (UIInspector.scan_element max_depth (with_children_error e None)
           depth parent_path s)
    = Ok t.
Proof.
  intros _ Hr Hd.
  unfold readable in Hr.
  destruct (metadata e) as [[[[nm ct] aid] cn]|emsg] eqn:Hm; [|discriminate Hr].
  eexists _, _, (current_path parent_path (path_segment nm ct aid)).
  split; [apply scan_element_run|].
  rewrite scan_element_run. cbn [fst].
  rewrite !scan_dict_eq.
  replace (depth >? max_depth) with false
    by (symmetry; apply gtb_false_le; exact Hd).
  replace (metadata (with_children_error e None)) with (metadata e)
    by reflexivity.
  rewrite Hm. cbv zeta.
  split; [reflexivity|]. split; [reflexivity|]. split.
  - cbn [lookup String.eqb Ascii.eqb Bool.eqb]. do 3 f_equal.
    apply map_ext. intros c. rewrite scanned_eq. reflexivity.
  - reflexivity.
Qed.

Lemma scan_element_children_failure_witness :
  children_error Fixtures.failing_pane = Some "COMError" /\
  readable Fixtures.failing_pane = true /\
  1 <= 4 /\
  exists t s' path,
    UIInspector.scan_element 4 Fixtures.failing_pane 1 "Test Window" []
    = (Ok t, s') /\
    lookup t "error" = None /\
    lookup t "path" = Some (VStr path) /\
    lookup t "children"
    = Some (VList
              (filter truthy
                 (map (fun c => VDict (scanned 4 c (1 + 1) path))
                    (children_items Fixtures.failing_pane)))) /\
    fst (UIInspector.scan_element 4
           (with_children_error Fixtures.failing_pane None) 1 "Test Window" [])
    = Ok t.
Proof.
  assert (Hd : 1 <= 4) by lia.
  split; [reflexivity|]. split; [reflexivity|]. split; [exact Hd|].
  exact (scan_element_children_failure 4 Fixtures.failing_pane 1 "Test Window"
           "COMError" [] eq_refl eq_refl Hd).
Defined.

(** C10.  On any tree of dictionaries and for any query string,
    [find_elements_by_type] returns the projections of the nodes whose
    [control_type] entry equals the query, in pre-order, and an error
    marker is never among these nodes: it has no [control_type] entry, so
    it equals no query string, the empty one included, and the search
    leaves the result list as it is at an error marker.  Each of the five
    buckets of a screen in the grouped export is such a search, so none
    holds an entry for an error marker. *)
Theorem find_elements_by_type_skips_error_markers (t : value)
    (control_type : string) :
  UIInspector.find_elements_by_type t control_type []
  = map projection
      (filter (fun n => matches control_type n && negb (is_error_marker n))
         (nodes t))
  /\ (forall n, is_error_marker n = true -> matches control_type n = false)
  /\ (forall msg depth results,
        lookup (error_marker msg depth) "control_type" = None /\
        UIInspector.find_elements_by_type (VDict (error_marker msg depth))
          control_type results
        = results)
  /\ (forall bucket type,
        In (bucket, type)
          [("buttons", "Button"); ("text_fields", "Edit");
           ("menu_items", "MenuItem"); ("tabs", "TabItem");
           ("combo_boxes", "ComboBox")] ->
        exists screen buckets,
          UIInspector.screen_export t = VDict screen /\
          lookup screen "elements" = Some (VDict buckets) /\
          lookup buckets bucket
          = Some (VList
                    (map projection
                       (filter
                          (fun n => matches type n && negb (is_error_marker n))
                          (nodes t))))).
Proof.
  assert (Hfind : forall q,
    UIInspector.find_elements_by_type t q []
    = map projection
        (filter (fun n => matches q n && negb (is_error_marker n)) (nodes t))).
  { intros q. rewrite find_elements_preorder. cbn [app]. f_equal.
    apply filter_ext. intros n.
    destruct (is_error_marker n) eqn:He.
    - rewrite (is_error_marker_no_match q n He). reflexivity.
    - rewrite andb_true_r. reflexivity. }
  split; [apply Hfind|]. split; [|split].
  - intros n. apply is_error_marker_no_match.
  - intros msg depth results. split; reflexivity.
  - intros bucket type Hin. unfold UIInspector.screen_export.
    eexists _, _. split; [reflexivity|]. split; [reflexivity|].
    cbn [In] in Hin.
    destruct Hin as [[= <- <-]|[[= <- <-]|[[= <- <-]|[[= <- <-]|[[= <- <-]|[]]]]]];
      cbn [lookup String.eqb Ascii.eqb Bool.eqb]; rewrite Hfind; reflexivity.
Qed.

(* ================================================================== *)
(** ** The flat walk of [WindowMapper] *)
(* ================================================================== *)

Lemma read_value_run (e : Element) (ctrl_type : string)
    (st : WindowMapper.MapperState) :
  WindowMapper.read_value e ctrl_type st
  = (Ok (legacy_value e ctrl_type),
     {| WindowMapper.mapper_calls :=
          (WindowMapper.mapper_calls st
           ++ (if (ctrl_type =? "Edit")%string
               then [ElementCall OpLegacyProperties e] else []))%list;
        WindowMapper.elements := WindowMapper.elements st |}).
Proof.
  unfold WindowMapper.read_value, legacy_value.
  destruct st as [calls els].
  destruct (ctrl_type =? "Edit")%string.
  - unfold try_except, bind, call, ret. cbn.
    destruct (legacy_properties e); reflexivity.
  - unfold ret. cbn. rewrite app_nil_r. reflexivity.
Qed.

Lemma read_checked_run (e : Element) (ctrl_type : string)
    (st : WindowMapper.MapperState) :
  WindowMapper.read_checked e ctrl_type st
  = (Ok (toggle_state e ctrl_type),
     {| WindowMapper.mapper_calls :=
          (WindowMapper.mapper_calls st
           ++ (if (ctrl_type =? "CheckBox")%string
               then [ElementCall OpGetToggleState e] else []))%list;
        WindowMapper.elements := WindowMapper.elements st |}).
Proof.
  unfold WindowMapper.read_checked, toggle_state.
  destruct st as [calls els].
  destruct (ctrl_type =? "CheckBox")%string.
  - unfold try_except, bind, call, ret. cbn.
    destruct (get_toggle_state e); reflexivity.
  - unfold ret. cbn. rewrite app_nil_r. reflexivity.
Qed.

Lemma existsb_useful_types (ctrl_type : string) :
  existsb (String.eqb ctrl_type) WindowMapper.useful_types
  = if in_dec string_dec ctrl_type WindowMapper.useful_types then true else false.
Proof.
  destruct (in_dec string_dec ctrl_type WindowMapper.useful_types) as [Hin|Hout].
  - apply existsb_exists. exists ctrl_type. split; [exact Hin|apply String.eqb_refl].
  - destruct (existsb _ _) eqn:Hex; [|reflexivity].
    apply existsb_exists in Hex. destruct Hex as (x & Hx & Heq).
    apply String.eqb_eq in Heq. subst x. contradiction.
Qed.

Lemma str_or_nonempty (a b : string) :
  negb (str_or a b =? "")%string
  = negb (a =? "")%string || negb (b =? "")%string.
Proof.
  unfold str_or. destruct (a =? "")%string eqn:Ha; [reflexivity|].
  rewrite Ha. reflexivity.
Qed.

Lemma walk_eq (max_depth : Z) (e : Element) (depth : Z) :
  walk max_depth e depth
  = if depth >? max_depth then []
    else if readable e
    then (e, depth) :: flat_map (fun c => walk max_depth c (depth + 1))
                         (children_items e)
    else [].
Proof. destruct e; reflexivity. Qed.

Lemma flat_calls_eq (max_depth : Z) (e : Element) (depth : Z) :
  flat_calls max_depth e depth
  = if depth >? max_depth then []
    else
      (visit_calls e
       ++ (if readable e
           then flat_map (fun c => flat_calls max_depth c (depth + 1))
                  (children_items e)
           else []))%list.
Proof. destruct e; reflexivity. Qed.

Lemma records_of_app (l1 l2 : list (Element * Z)) :
  records_of (l1 ++ l2) = (records_of l1 ++ records_of l2)%list.
Proof. unfold records_of. apply flat_map_app. Qed.

Lemma records_of_cons (v : Element * Z) (l : list (Element * Z)) :
  records_of (v :: l)
  = ((if passes_filter (fst v)
      then [VDict (flat_record (fst v) (snd v))]
      else []) ++ records_of l)%list.
Proof. reflexivity. Qed.

Lemma records_of_flat_map (f : Element -> list (Element * Z)) (cs : list Element) :
  records_of (flat_map f cs) = flat_map (fun c => records_of (f c)) cs.
Proof.
  induction cs as [|c cs IH]; [reflexivity|].
  cbn [flat_map]. rewrite records_of_app, IH. reflexivity.
Qed.

(** What one call of the mapper's [scan_element] does to the state. *)
Lemma mapper_scan_run (max_depth : Z) (e : Element) :
  forall (depth : Z) (st : WindowMapper.MapperState),
    WindowMapper.scan_element max_depth e depth st
    = (Ok tt,
       {| WindowMapper.mapper_calls :=
            (WindowMapper.mapper_calls st ++ flat_calls max_depth e depth)%list;
          WindowMapper.elements :=
            (WindowMapper.elements st
             ++ records_of (walk max_depth e depth))%list |}).
Proof.
  induction e as [e IH] using Element_nested_ind.
  intros depth st.
  rewrite walk_eq, flat_calls_eq.
  destruct e as [ei r cs ce lp ts wt h]; simpl in IH.
  cbn [WindowMapper.scan_element children_items].
  destruct (depth >? max_depth) eqn:Hd.
  { destruct st. unfold ret. cbn. rewrite !app_nil_r. reflexivity. }
  set (e := MkElement ei r cs ce lp ts wt h) in *.
  unfold try_except at 1. unfold bind at 1.
  rewrite read_metadata_run.
  unfold readable, visit_calls.
  destruct (metadata e) as [[[[n ct] aid] cn]|msg] eqn:Hm.
  2:{ destruct st. unfold ret. cbn. rewrite !app_nil_r. reflexivity. }
  unfold bind at 1. rewrite read_value_run.
  unfold bind at 1. rewrite read_checked_run.
  unfold bind at 1.
  assert (Hloop : forall (s0 : WindowMapper.MapperState),
    (fix loop (cs0 : list Element) {struct cs0}
       : M WindowMapper.MapperState unit :=
       match cs0 with
       | [] => end_of_children e
       | child :: cs' =>
           WindowMapper.scan_element max_depth child (depth + 1) ;;; loop cs'
       end) cs s0
    = (match children_error e with None => Ok tt | Some m => Raise m end,
       {| WindowMapper.mapper_calls :=
            (WindowMapper.mapper_calls s0
             ++ flat_map (fun c => flat_calls max_depth c (depth + 1)) cs)%list;
          WindowMapper.elements :=
            (WindowMapper.elements s0
             ++ records_of
                  (flat_map (fun c => walk max_depth c (depth + 1)) cs))%list |})).
  { clearbody e. clear Hm.
    induction IH as [|c cs' Hc _ IHcs]; intros s0.
    - destruct s0. cbn. rewrite !app_nil_r.
      unfold end_of_children, ret, raise.
      destruct (children_error e); reflexivity.
    - unfold bind at 1. rewrite Hc, IHcs.
      cbn [flat_map WindowMapper.mapper_calls WindowMapper.elements].
      rewrite records_of_app, <- !app_assoc. reflexivity. }
  rewrite existsb_useful_types, str_or_nonempty.
  cbv zeta.
  match goal with
  | |- context [if ?c then modify _ else ret tt] =>
      assert (Hpass : passes_filter e = c)
        by (unfold passes_filter; rewrite Hm; reflexivity)
  end.
  match goal with
  | |- context [[VDict ?x]] =>
      assert (Hrec : flat_record e depth = x)
  end.
  { unfold flat_record, toggle_state, legacy_value. rewrite Hm.
    destruct (ct =? "Edit")%string; destruct (ct =? "CheckBox")%string;
      try destruct (legacy_properties e) as [props|];
      try destruct (get_toggle_state e);
      try destruct (WindowMapper.props_get props "Value" "" =? "")%string;
      reflexivity. }
  rewrite <- Hrec, <- Hpass.
  cbn [records_of flat_map fst snd].
  fold (records_of (flat_map (fun c => walk max_depth c (depth + 1)) cs)).
  destruct st as [calls els].
  destruct (passes_filter e);
    unfold modify, ret, call; cbn [log_call WindowMapper.Logging_mapper
      WindowMapper.mapper_calls WindowMapper.elements];
    unfold bind at 1; rewrite Hloop;
    cbn [WindowMapper.mapper_calls WindowMapper.elements];
    destruct (children_error e); rewrite <- ?app_assoc; cbn [app];
    rewrite <- ?app_assoc; reflexivity.
Qed.

Lemma passes_filter_iff (e : Element) :
  passes_filter e = true <->
  exists name control_type automation_id class_name,
    metadata e = Ok (name, control_type, automation_id, class_name) /\
    In control_type WindowMapper.useful_types /\
    (automation_id <> "" \/ name <> "").
Proof.
  unfold passes_filter.
  destruct (metadata e) as [[[[n ct] aid] cn]|msg].
  - split.
    + intros H. apply andb_true_iff in H. destruct H as [Hin Hne].
      exists n, ct, aid, cn. split; [reflexivity|]. split.
      * destruct (in_dec string_dec ct WindowMapper.useful_types);
          [assumption|discriminate].
      * apply orb_true_iff in Hne.
        destruct Hne as [Hne|Hne]; [left|right];
          apply negb_true_iff, String.eqb_neq in Hne; exact Hne.
    + intros (n' & ct' & aid' & cn' & [= <- <- <- <-] & Hin & Hne).
      apply andb_true_iff. split.
      * destruct (in_dec string_dec ct WindowMapper.useful_types);
          [reflexivity|contradiction].
      * apply orb_true_iff.
        destruct Hne as [Hne|Hne]; [left|right];
          apply negb_true_iff, String.eqb_neq; exact Hne.
  - split; [discriminate|].
    intros (n' & ct' & aid' & cn' & Hm & _). discriminate Hm.
Qed.

Lemma walk_children_called (max_depth : Z) (w : Element) :
  forall (depth : Z) (e : Element) (d : Z),
    In (e, d) (walk max_depth w depth) ->
    In (ElementCall OpChildren e) (flat_calls max_depth w depth).
Proof.
  induction w as [w IH] using Element_nested_ind.
  intros depth e d Hin.
  rewrite walk_eq in Hin. rewrite flat_calls_eq.
  destruct (depth >? max_depth); [contradiction|].
  unfold visit_calls. unfold readable in *.
  destruct (metadata w) as [[[[n ct] aid] cn]|msg]; [|contradiction].
  apply in_or_app.
  destruct Hin as [[= <- <-] | Hin].
  - left. right. apply in_or_app. right. apply in_or_app. right.
    left. reflexivity.
  - right. apply in_flat_map in Hin. destruct Hin as (c & Hc & Hin).
    apply in_flat_map. exists c. split; [exact Hc|].
    rewrite Forall_forall in IH. exact (IH c Hc (depth + 1) e d Hin).
Qed.

(** C4.  [map_window_elements] returns the records of the nodes the walk
    reaches (within the depth bound, below readable nodes only), in
    pre-order: the record of a reached node is in the sequence if and only
    if its control type is one of the 15 of the allow-list and its
    automation id or its name is non-empty.  The walk calls [children()] on
    every node it reaches, whether the node passed the filter or not. *)
Theorem map_window_elements_preorder (max_depth : Z) (window : Element)
    (s : list Call) :
  WindowMapper.map_window_elements max_depth window s
  = (Ok (records_of (walk max_depth window 0)),
     (s ++ flat_calls max_depth window 0)%list)
  /\ (forall e d,
        (records_of [(e, d)] = [VDict (flat_record e d)] <->
         exists name control_type automation_id class_name,
           metadata e = Ok (name, control_type, automation_id, class_name) /\
           In control_type WindowMapper.useful_types /\
           (automation_id <> "" \/ name <> ""))
        /\ (records_of [(e, d)] = [VDict (flat_record e d)]
            \/ records_of [(e, d)] = []))
  /\ (forall e d,
        In (e, d) (walk max_depth window 0) ->
        In (ElementCall OpChildren e) (flat_calls max_depth window 0))
  /\ List.length WindowMapper.useful_types = 15%nat
  /\ NoDup WindowMapper.useful_types.
Proof.
  split; [|split; [|split; [|split]]].
  - unfold WindowMapper.map_window_elements.
    rewrite mapper_scan_run. reflexivity.
  - intros e d. rewrite <- passes_filter_iff.
    unfold records_of. cbn [flat_map fst snd].
    destruct (passes_filter e); cbn [app].
    + split; [split; reflexivity|left; reflexivity].
    + split; [split; discriminate|right; reflexivity].
  - intros e d. apply walk_children_called.
  - reflexivity.
  - repeat (constructor; [cbn; intuition discriminate|]). constructor.
Qed.

(** A button with neither name nor id is left out; a button with a name
    and no id is included (the tests' mock windows). *)
Lemma button_filter_examples :
  fst (WindowMapper.map_window_elements 2
         (Fixtures.make_mock_element "Win" "Window" "" ""
            [Fixtures.make_mock_element "" "Button" "" "" []
               Fixtures.default_rect "" None]
            Fixtures.default_rect "" None) [])
  = Ok []
  /\ fst (WindowMapper.map_window_elements 2
            (Fixtures.make_mock_element "Win" "Window" "" ""
               [Fixtures.make_mock_element "OK" "Button" "" "" []
                  Fixtures.default_rect "" None]
               Fixtures.default_rect "" None) [])
     = Ok [VDict [("depth", VInt 1); ("type", VStr "Button"); ("id", VStr "");
                  ("name", VStr "OK"); ("class", VStr "")]].
Proof. split; reflexivity. Qed.

(** C9.  In the flat walk, when the metadata read of a node raises, the
    call ends with [elements] as it was (no record, no error marker) and
    with that read as its only platform call: the children are not
    enumerated.  The walk of the parent goes on with the next sibling: it
    collects exactly the records it collects when the node is not among the
    parent's children. *)
Theorem mapper_scan_metadata_error (max_depth : Z) (e : Element) (depth : Z)
    (msg : string) (st : WindowMapper.MapperState) :
  metadata e = Raise msg ->
  depth <= max_depth ->
  WindowMapper.scan_element max_depth e depth st
  = (Ok tt,
     {| WindowMapper.mapper_calls :=
          (WindowMapper.mapper_calls st ++ [ElementCall OpElementInfo e])%list;
        WindowMapper.elements := WindowMapper.elements st |})
  /\ forall (parent : Element) (before after : list Element)
            (st0 : WindowMapper.MapperState),
       children_items parent = (before ++ e :: after)%list ->
       exists st1 st2,
         WindowMapper.scan_element max_depth parent (depth - 1) st0
         = (Ok tt, st1) /\
         WindowMapper.scan_element max_depth
           (with_children parent (before ++ after)) (depth - 1) st0
         = (Ok tt, st2) /\
         WindowMapper.elements st1 = WindowMapper.elements st2.
Proof.
  intros Hm Hd.
  assert (Hwalk : walk max_depth e depth = []).
  { rewrite walk_eq. unfold readable. rewrite Hm.
    destruct (depth >? max_depth); reflexivity. }
  split.
  - rewrite mapper_scan_run, Hwalk, flat_calls_eq.
    replace (depth >? max_depth) with false
      by (symmetry; apply gtb_false_le; exact Hd).
    unfold visit_calls, readable. rewrite Hm.
    cbn [records_of flat_map app]. rewrite !app_nil_r. reflexivity.
  - intros parent before after st0 Hkids.
    eexists _, _. split; [apply mapper_scan_run|].
    split; [apply mapper_scan_run|].
    cbn [WindowMapper.elements]. f_equal.
    rewrite !walk_eq.
    replace (readable (with_children parent (before ++ after)))
      with (readable parent) by reflexivity.
    cbn [children_items with_children]. rewrite Hkids.
    destruct (depth - 1 >? max_depth); [reflexivity|].
    destruct (readable parent); [|reflexivity].
    rewrite !records_of_cons. cbn [fst snd].
    replace (passes_filter (with_children parent (before ++ after)))
      with (passes_filter parent) by reflexivity.
    replace (flat_record (with_children parent (before ++ after)) (depth - 1))
      with (flat_record parent (depth - 1)) by reflexivity.
    f_equal. rewrite !flat_map_app. cbn [flat_map].
    replace (depth - 1 + 1) with depth by lia.
    rewrite Hwalk. reflexivity.
Qed.

Lemma mapper_scan_metadata_error_witness :
  metadata Fixtures.broken = Raise "broken" /\
  1 <= 5 /\
  WindowMapper.scan_element 5 Fixtures.broken 1
    {| WindowMapper.mapper_calls := []; WindowMapper.elements := [] |}
  = (Ok tt,
     {| WindowMapper.mapper_calls := [ElementCall OpElementInfo Fixtures.broken];
        WindowMapper.elements := [] |})
  /\ exists st1 st2,
       WindowMapper.scan_element 5 Fixtures.window_with_broken (1 - 1)
         {| WindowMapper.mapper_calls := []; WindowMapper.elements := [] |}
       = (Ok tt, st1) /\
       WindowMapper.scan_element 5
         (with_children Fixtures.window_with_broken
            ([Fixtures.buy_btn] ++ [Fixtures.sell_btn])) (1 - 1)
         {| WindowMapper.mapper_calls := []; WindowMapper.elements := [] |}
       = (Ok tt, st2) /\
       WindowMapper.elements st1 = WindowMapper.elements st2.
Proof.
  assert (Hm : metadata Fixtures.broken = Raise "broken") by reflexivity.
  assert (Hd : 1 <= 5) by lia.
  split; [exact Hm|]. split; [exact Hd|].
  pose proof (mapper_scan_metadata_error 5 Fixtures.broken 1 "broken"
                {| WindowMapper.mapper_calls := [];
                   WindowMapper.elements := [] |} Hm Hd) as [Hself Hparent].
  split; [exact Hself|].
  exact (Hparent Fixtures.window_with_broken [Fixtures.buy_btn]
           [Fixtures.sell_btn] _ eq_refl).
Defined.

(** C8.  In the flat walk, the record of an [Edit] node has a [value] entry
    if and only if the read of the legacy properties succeeds and their
    [Value] is non-empty, and the entry is that text; the record of a
    [CheckBox] node has a [checked] entry if and only if the read of the
    toggle state succeeds, and the entry is that state.  A failed read
    leaves the entry out: the call returns normally and the record has no
    [error] entry.  (The node is reached by the walk and has an id or a
    name, so its record is appended.) *)
Theorem mapper_value_and_checked (max_depth : Z) (e : Element) (depth : Z)
    (st : WindowMapper.MapperState)
    (name ctrl_type auto_id class_name : string) :
  metadata e = Ok (name, ctrl_type, auto_id, class_name) ->
  ctrl_type = "Edit" \/ ctrl_type = "CheckBox" ->
  auto_id <> "" \/ name <> "" ->
  depth <= max_depth ->
  exists record rest st',
    WindowMapper.scan_element max_depth e depth st = (Ok tt, st') /\
    WindowMapper.elements st'
    = (WindowMapper.elements st ++ VDict record :: rest)%list /\
    lookup record "type" = Some (VStr ctrl_type) /\
    lookup record "error" = None /\
    (ctrl_type = "Edit" ->
     (forall v,
        lookup record "value" = Some v <->
        exists props,
          legacy_properties e = Ok props /\
          WindowMapper.props_get props "Value" "" <> "" /\
          v = VStr (WindowMapper.props_get props "Value" "")) /\
     lookup record "checked" = None) /\
    (ctrl_type = "CheckBox" ->
     (forall v,
        lookup record "checked" = Some v <->
        exists state, get_toggle_state e = Ok state /\ v = VInt state) /\
     lookup record "value" = None).
Proof.
  intros Hm Hct Hid Hd.
  assert (Hpass : passes_filter e = true).
  { apply passes_filter_iff. exists name, ctrl_type, auto_id, class_name.
    split; [exact Hm|]. split; [|exact Hid].
    destruct Hct as [-> | ->]; cbn; tauto. }
  exists (flat_record e depth),
    (flat_map (fun c => records_of (walk max_depth c (depth + 1)))
       (children_items e)).
  eexists. split; [apply mapper_scan_run|].
  cbn [WindowMapper.elements]. split.
  { f_equal. rewrite walk_eq.
    replace (depth >? max_depth) with false
      by (symmetry; apply gtb_false_le; exact Hd).
    unfold readable. rewrite Hm.
    rewrite records_of_cons. cbn [fst snd]. rewrite Hpass.
    rewrite records_of_flat_map. reflexivity. }
  unfold flat_record. rewrite Hm.
  destruct Hct as [-> | ->]; cbn [String.eqb Ascii.eqb Bool.eqb].
  - split; [reflexivity|].
    destruct (legacy_properties e) as [props|err].
    + destruct (WindowMapper.props_get props "Value" "" =? "")%string eqn:Hv;
        cbn [negb app lookup String.eqb Ascii.eqb Bool.eqb].
      * split; [reflexivity|]. split; [|intros [=]].
        intros _. split; [|reflexivity].
        intros v. split; [discriminate|].
        intros (props' & [= <-] & Hne & _).
        apply String.eqb_eq in Hv. contradiction.
      * split; [reflexivity|]. split; [|intros [=]].
        intros _. split; [|reflexivity].
        intros v. split.
        -- intros [= <-]. exists props. split; [reflexivity|].
           split; [|reflexivity]. apply String.eqb_neq. exact Hv.
        -- intros (props' & [= <-] & _ & ->). reflexivity.
    + cbn [app lookup String.eqb Ascii.eqb Bool.eqb].
      split; [reflexivity|]. split; [|intros [=]].
      intros _. split; [|reflexivity].
      intros v. split; [discriminate|].
      intros (props' & [=] & _).
  - split; [reflexivity|].
    destruct (get_toggle_state e) as [state|err];
      cbn [app lookup String.eqb Ascii.eqb Bool.eqb].
    + split; [reflexivity|]. split; [intros [=]|].
      intros _. split; [|reflexivity].
      intros v. split.
      * intros [= <-]. exists state. split; reflexivity.
      * intros (state' & [= <-] & ->). reflexivity.
    + split; [reflexivity|]. split; [intros [=]|].
      intros _. split; [|reflexivity].
      intros v. split; [discriminate|].
      intros (state' & [=] & _).
Qed.

Lemma mapper_value_and_checked_witness :
  metadata Fixtures.symbol_field = Ok ("Symbol", "Edit", "102", "") /\
  1 <= 5 /\
  exists record rest st',
    WindowMapper.scan_element 5 Fixtures.symbol_field 1
      {| WindowMapper.mapper_calls := []; WindowMapper.elements := [] |}
    = (Ok tt, st') /\
    WindowMapper.elements st' = ([] ++ VDict record :: rest)%list /\
    lookup record "type" = Some (VStr "Edit") /\
    lookup record "error" = None /\
    ("Edit" = "Edit" ->
     (forall v,
        lookup record "value" = Some v <->
        exists props,
          legacy_properties Fixtures.symbol_field = Ok props /\
          WindowMapper.props_get props "Value" "" <> "" /\
          v = VStr (WindowMapper.props_get props "Value" "")) /\
     lookup record "checked" = None) /\
    ("Edit" = "CheckBox" ->
     (forall v,
        lookup record "checked" = Some v <->
        exists state,
          get_toggle_state Fixtures.symbol_field = Ok state /\ v = VInt state) /\
     lookup record "value" = None).
Proof.
  assert (Hm : metadata Fixtures.symbol_field = Ok ("Symbol", "Edit", "102", ""))
    by reflexivity.
  assert (Hd : 1 <= 5) by lia.
  split; [exact Hm|]. split; [exact Hd|].
  apply (mapper_value_and_checked 5 Fixtures.symbol_field 1
           {| WindowMapper.mapper_calls := []; WindowMapper.elements := [] |}
           "Symbol" "Edit" "102" "" Hm).
  - left. reflexivity.
  - left. discriminate.
  - exact Hd.
Defined.

(** The examples of the specification: the value 7203 of an [Edit], the
    state 1 of a [CheckBox], and a [CheckBox] whose state read fails. *)
Lemma edit_and_checkbox_examples :
  fst (WindowMapper.map_window_elements 5 Fixtures.symbol_field [])
  = Ok [VDict [("depth", VInt 0); ("type", VStr "Edit"); ("id", VStr "102");
               ("name", VStr "Symbol"); ("class", VStr "");
               ("value", VStr "7203")]]
  /\ fst (WindowMapper.map_window_elements 5 Fixtures.skip_check [])
     = Ok [VDict [("depth", VInt 0); ("type", VStr "CheckBox");
                  ("id", VStr "200"); ("name", VStr "Skip confirmation");
                  ("class", VStr ""); ("checked", VInt 1)]]
  /\ fst (WindowMapper.map_window_elements 5
            (Fixtures.make_mock_element "Agree" "CheckBox" "99" "" []
               Fixtures.default_rect "" None) [])
     = Ok [VDict [("depth", VInt 0); ("type", VStr "CheckBox");
                  ("id", VStr "99"); ("name", VStr "Agree");
                  ("class", VStr "")]].
Proof. repeat split; reflexivity. Qed.

(* ================================================================== *)
(** ** Window resolution *)
(* ================================================================== *)

Lemma window_entry_run (win : Element) (s : list Call) :
  exists s',
    WindowMapper.window_entry win s
    = (Ok (if title_and_size_ok win && handle_ok win
           then Some (descriptor win) else None), s').
Proof.
  unfold WindowMapper.window_entry, title_and_size_ok, handle_ok, descriptor,
    try_except, bind, call, prop, ret.
  destruct (window_text win) as [title|]; [|eexists; reflexivity].
  destruct (title =? "")%string eqn:Ht; cbn [negb andb].
  { destruct (rectangle win) as [rect|]; [|eexists; reflexivity].
    destruct (width rect), (height rect); eexists; reflexivity. }
  destruct (rectangle win) as [rect|]; [|eexists; reflexivity].
  destruct (width rect) as [w|]; [|eexists; reflexivity].
  destruct (height rect) as [h|]; [|eexists; reflexivity].
  destruct ((w >? 100) && (h >? 100)); [|eexists; reflexivity].
  destruct (handle win); eexists; reflexivity.
Qed.

Lemma find_windows_run (title_pattern : option string) (desktop : Desktop)
    (s : list Call) :
  exists s',
    WindowMapper.find_windows title_pattern desktop s
    = (match all_windows title_pattern desktop with
       | Ok wins =>
           Ok (map descriptor
                 (filter (fun w => title_and_size_ok w && handle_ok w) wins))
       | Raise msg => Raise msg
       end, s').
Proof.
  unfold WindowMapper.find_windows, all_windows.
  assert (Hloop : forall wins acc s0, exists s',
    (fix loop (wins0 : list Element) (windows_info : list value) {struct wins0}
       : M (list Call) (list value) :=
       match wins0 with
       | [] => ret windows_info
       | win :: wins' =>
           entry <- WindowMapper.window_entry win ;;
           loop wins'
             (match entry with
              | Some info => (windows_info ++ [info])%list
              | None => windows_info
              end)
       end) wins acc s0
    = (Ok (acc ++ map descriptor
                    (filter (fun w => title_and_size_ok w && handle_ok w) wins))%list,
       s')).
  { induction wins as [|win wins IH]; intros acc s0.
    - eexists. unfold ret. cbn [filter map]. rewrite app_nil_r. reflexivity.
    - unfold bind at 1.
      destruct (window_entry_run win s0) as [s1 ->].
      cbn [filter].
      destruct (title_and_size_ok win && handle_ok win).
      + destruct (IH (acc ++ [descriptor win])%list s1) as [s2 ->].
        eexists. cbn [map]. rewrite <- app_assoc. reflexivity.
      + apply IH. }
  assert (Hcase : forall (r : Result (list Element)) (s1 : list Call),
    exists s',
      (all_windows0 <-
         try_except (fun _ : list Call => (r, s1))
           (fun _ => fun s0 =>
              (windows_again desktop, log_call (DesktopWindows None) s0)) ;;
       (fix loop (wins0 : list Element) (windows_info : list value)
          {struct wins0} : M (list Call) (list value) :=
          match wins0 with
          | [] => ret windows_info
          | win :: wins' =>
              entry <- WindowMapper.window_entry win ;;
              loop wins'
                (match entry with
                 | Some info => (windows_info ++ [info])%list
                 | None => windows_info
                 end)
          end) all_windows0 []) s
      = (match match r with Ok wins => Ok wins | Raise _ => windows_again desktop end with
         | Ok wins =>
             Ok (map descriptor
                   (filter (fun w => title_and_size_ok w && handle_ok w) wins))
         | Raise msg => Raise msg
         end, s')).
  { intros r s1. unfold bind at 1. unfold try_except at 1.
    destruct r as [wins|msg].
    - destruct (Hloop wins [] s1) as [s2 ->]. eexists. reflexivity.
    - destruct (windows_again desktop) as [wins|msg'].
      + destruct (Hloop wins [] (log_call (DesktopWindows None) s1)) as [s2 ->].
        eexists. reflexivity.
      + eexists. reflexivity. }
  destruct title_pattern as [pattern|];
    [destruct (negb (pattern =? "")%string)|].
  - exact (Hcase (windows_re desktop pattern)
             (log_call (DesktopWindows (Some pattern)) s)).
  - exact (Hcase (windows desktop) (log_call (DesktopWindows None) s)).
  - exact (Hcase (windows desktop) (log_call (DesktopWindows None) s)).
Qed.

(** C5, against the claim as stated: a window with a title, a rectangle
    that reads, and a size of 800 by 600 is left out of the result when the
    read of its handle raises. *)
Lemma find_windows_handle_counterexample :
  title_and_size_ok Fixtures.stale_window = true /\
  all_windows None (Fixtures.desktop_of [Fixtures.stale_window])
  = Ok [Fixtures.stale_window] /\
  fst (WindowMapper.find_windows None
         (Fixtures.desktop_of [Fixtures.stale_window]) [])
  = Ok [].
Proof. repeat split; reflexivity. Qed.

(** C5, amended.  [find_windows] returns, in the order of the platform's
    enumeration and with nothing raised for a window that is left out, the
    descriptors of exactly the windows whose title read succeeds and is
    non-empty, whose rectangle read succeeds with a width and a height
    above 100, and whose handle read succeeds. *)
Theorem find_windows_filter (title_pattern : option string)
    (desktop : Desktop) (s : list Call) (wins : list Element) :
  all_windows title_pattern desktop = Ok wins ->
  (exists s',
     WindowMapper.find_windows title_pattern desktop s
     = (Ok (map descriptor
              (filter (fun w => title_and_size_ok w && handle_ok w) wins)),
        s'))
  /\ forall w,
       title_and_size_ok w && handle_ok w = true <->
       exists title rect h wd ht,
         window_text w = Ok title /\ title <> "" /\
         rectangle w = Ok rect /\ width rect = Ok wd /\ height rect = Ok ht /\
         100 < wd /\ 100 < ht /\
         handle w = Ok h /\
         descriptor w
         = VDict [("title", VStr title); ("handle", VInt h);
                  ("width", VInt wd); ("height", VInt ht)].
Proof.
  intros Hall. split.
  - destruct (find_windows_run title_pattern desktop s) as [s' Hrun].
    exists s'. rewrite Hrun, Hall. reflexivity.
  - intros w. unfold title_and_size_ok, handle_ok, descriptor.
    split.
    + intros H.
      destruct (window_text w) as [title|]; [|discriminate H].
      destruct (rectangle w) as [rect|]; [|discriminate H].
      destruct (width rect) as [wd|] eqn:Hw; [|discriminate H].
      destruct (height rect) as [ht|] eqn:Hh; [|discriminate H].
      destruct (handle w) as [h|]; [|rewrite andb_false_r in H; discriminate H].
      rewrite andb_true_r in H.
      apply andb_true_iff in H. destruct H as [H Hht].
      apply andb_true_iff in H. destruct H as [Ht Hwd].
      apply negb_true_iff, String.eqb_neq in Ht.
      apply Z.gtb_lt in Hwd. apply Z.gtb_lt in Hht.
      exists title, rect, h, wd, ht. repeat split; assumption || reflexivity.
    + intros (title & rect & h & wd & ht & -> & Ht & -> & Hw & Hh & Hwd & Hht
              & -> & _).
      rewrite Hw, Hh.
      apply String.eqb_neq in Ht. rewrite Ht.
      apply Z.gtb_lt in Hwd. apply Z.gtb_lt in Hht. rewrite Hwd, Hht.
      reflexivity.
Qed.

Lemma find_windows_filter_witness :
  all_windows None
    (Fixtures.desktop_of
       [Fixtures.mock_window; Fixtures.buy_btn; Fixtures.stale_window])
  = Ok [Fixtures.mock_window; Fixtures.buy_btn; Fixtures.stale_window] /\
  exists s',
    WindowMapper.find_windows None
      (Fixtures.desktop_of
         [Fixtures.mock_window; Fixtures.buy_btn; Fixtures.stale_window]) []
    = (Ok (map descriptor
             (filter (fun w => title_and_size_ok w && handle_ok w)
                [Fixtures.mock_window; Fixtures.buy_btn;
                 Fixtures.stale_window])),
       s').
Proof.
  split; [reflexivity|].
  exact (proj1 (find_windows_filter None
                  (Fixtures.desktop_of
                     [Fixtures.mock_window; Fixtures.buy_btn;
                      Fixtures.stale_window]) []
                  [Fixtures.mock_window; Fixtures.buy_btn;
                   Fixtures.stale_window] eq_refl)).
Defined.

(** The windows of the tests: 800 by 600 is kept, 50 by 50 is dropped, an
    empty title is dropped, a rectangle that raises is dropped. *)
Lemma window_sizes_example :
  fst (WindowMapper.find_windows None
         (Fixtures.desktop_of
            [Fixtures.make_mock_element "Main" "" "" "" []
               (Some (0, 0, 800, 600)) "" None;
             Fixtures.make_mock_element "Hidden" "" "" "" []
               (Some (0, 0, 50, 50)) "" None;
             Fixtures.make_mock_element "" "" "" "" []
               (Some (0, 0, 800, 600)) "" None;
             Fixtures.make_mock_element "NoRect" "" "" "" [] None "" None])
         [])
  = Ok [VDict [("title", VStr "Main"); ("handle", VInt 12345);
               ("width", VInt 800); ("height", VInt 600)]].
Proof. reflexivity. Qed.

(* ================================================================== *)
(** ** The exports and the output directory *)
(* ================================================================== *)

Lemma path_eqb_refl (p : path) : path_eqb p p = true.
Proof.
  induction p as [|a p IH]; [reflexivity|].
  cbn [path_eqb]. rewrite String.eqb_refl, IH. reflexivity.
Qed.

Lemma path_eqb_eq (p q : path) : path_eqb p q = true -> p = q.
Proof.
  revert q. induction p as [|a p IH]; intros [|b q] H; try discriminate H.
  - reflexivity.
  - cbn [path_eqb] in H. apply andb_true_iff in H. destruct H as [Hab Hpq].
    apply String.eqb_eq in Hab. f_equal; [exact Hab|exact (IH q Hpq)].
Qed.

Lemma prefixes_self (a : string) (p : path) : In (a :: p) (prefixes (a :: p)).
Proof.
  revert a. induction p as [|b p IH]; intros a.
  - left. reflexivity.
  - cbn [prefixes]. right. apply in_map. exact (IH b).
Qed.

Lemma prefixes_length (p q : path) :
  In q (prefixes p) -> (List.length q <= List.length p)%nat.
Proof.
  revert q. induction p as [|a p IH]; intros q Hq; [contradiction|].
  cbn [prefixes] in Hq. destruct Hq as [<- | Hq].
  - cbn. lia.
  - apply in_map_iff in Hq. destruct Hq as (q' & <- & Hq').
    specialize (IH q' Hq'). cbn. lia.
Qed.

Lemma parent_length (a : string) (p : path) :
  (List.length (parent (a :: p)) < List.length (a :: p))%nat.
Proof.
  unfold parent. revert a. induction p as [|b p IH]; intros a.
  - cbn. lia.
  - change (removelast (a :: b :: p)) with (a :: removelast (b :: p)).
    specialize (IH b). cbn [List.length] in *. lia.
Qed.

(** After a successful [mkdir(parents=True, exist_ok=True)] the directory
    exists, and the only new directories are prefixes of it. *)
Lemma mkdir_parents_ok (p : path) (w : World) :
  existsb (is_file w) (prefixes p) = false ->
  exists w',
    mkdir_parents p w = (Ok tt, w') /\
    is_dir w' p = true /\
    files w' = files w /\ stdout w' = stdout w /\
    forall q, is_dir w' q = true ->
              is_dir w q = true \/ In q (prefixes p).
Proof.
  intros Hfiles. unfold mkdir_parents. rewrite Hfiles.
  eexists. split; [reflexivity|]. cbn [files stdout].
  split; [|split; [reflexivity|split; [reflexivity|]]].
  - destruct p as [|a p]; [reflexivity|].
    unfold is_dir at 1. cbn [dirs].
    rewrite existsb_app. apply orb_true_iff.
    destruct (is_dir w (a :: p)) eqn:Hd.
    + left. exact Hd.
    + right. apply existsb_exists. exists (a :: p). split.
      * apply filter_In. split; [apply prefixes_self|]. rewrite Hd. reflexivity.
      * apply path_eqb_refl.
  - intros q Hq. destruct q as [|b q]; [left; reflexivity|].
    unfold is_dir in Hq. cbn [dirs] in Hq.
    rewrite existsb_app in Hq. apply orb_true_iff in Hq.
    destruct Hq as [Hq|Hq].
    + left. exact Hq.
    + right. apply existsb_exists in Hq. destruct Hq as (x & Hx & Heq).
      apply path_eqb_eq in Heq. subst x.
      apply filter_In in Hx. exact (proj1 Hx).
Qed.

(** The YAML export creates the missing directories of its output path,
    writes the file and reports the path. *)
Lemma export_to_yaml_creates_directories (elements : dict) (p : path)
    (now : string) (w : World) :
  existsb (is_file w) (prefixes (parent p)) = false ->
  is_dir w p = false ->
  exists w' document,
    UIInspector.export_to_yaml elements (Some p) now w = (Ok p, w') /\
    is_dir w' (parent p) = true /\
    files w' = (p, document)
               :: filter (fun f => negb (path_eqb p (fst f))) (files w) /\
    stdout w'
    = (stdout w ++ [(nl ++ "[OK] Exported to: " ++ path_str p)%string])%list.
Proof.
  intros Hfiles Hnotdir.
  destruct (mkdir_parents_ok (parent p) w Hfiles)
    as (w1 & Hmk & Hdir & Hf & Ho & Honly).
  unfold UIInspector.export_to_yaml.
  unfold bind at 1. rewrite Hmk.
  unfold bind at 1. unfold open_write at 1. rewrite Hdir. cbn [negb].
  assert (Hp : is_dir w1 p = false).
  { destruct (is_dir w1 p) eqn:Hd; [|reflexivity].
    destruct (Honly p Hd) as [Hold|Hnew]; [congruence|].
    apply prefixes_length in Hnew.
    destruct p as [|a p]; [discriminate Hnotdir|].
    pose proof (parent_length a p). lia. }
  rewrite Hp.
  unfold bind, print, modify, ret. cbn [dirs files stdout].
  eexists _, _. split; [reflexivity|]. cbn [dirs files stdout].
  split; [|split].
  - destruct (parent p); [reflexivity|exact Hdir].
  - rewrite Hf. reflexivity.
  - rewrite Ho. reflexivity.
Qed.

(** C6, at the failing input: with no directory [out], the JSON export of
    [WindowMapper.run] to [out/map.json] creates no directory and writes
    no file; it prints the error of [open] and returns.  On the same input
    the YAML export creates [out], writes the file and reports its path.
    Whatever the path, the JSON export leaves the set of directories as it
    is. *)
Theorem run_export_missing_directory :
  WindowMapper.run_export (Some ["out"; "map.json"]) []
    {| dirs := []; files := []; stdout := [] |}
  = (Ok tt,
     {| dirs := []; files := [];
        stdout := [nl ++ "Error saving: "
                      ++ "[Errno 2] No such file or directory: out/map.json"] |})
  /\ (exists document,
        UIInspector.export_to_yaml [] (Some ["out"; "map.yaml"]) "now"
          {| dirs := []; files := []; stdout := [] |}
        = (Ok ["out"; "map.yaml"],
           {| dirs := [["out"]];
              files := [(["out"; "map.yaml"], document)];
              stdout := [nl ++ "[OK] Exported to: out/map.yaml"] |}))
  /\ (forall export_path all_mappings w,
        exists w',
          WindowMapper.run_export export_path all_mappings w = (Ok tt, w') /\
          dirs w' = dirs w).
Proof.
  split; [reflexivity|]. split.
  - exists (VDict [("version", VStr "1.0"); ("generated_at", VStr "now");
                   ("screens", VDict [])]).
    reflexivity.
  - intros export_path all_mappings w.
    unfold WindowMapper.run_export.
    destruct export_path as [[|part parts]|];
      try (eexists; split; reflexivity).
    unfold try_except, bind, open_write, print, modify.
    destruct (negb (is_dir w (parent (part :: parts))));
      [eexists; split; reflexivity|].
    destruct (is_dir w (part :: parts)); eexists; split; reflexivity.
Qed.

(* ================================================================== *)
(** ** More on the tree scan *)
(* ================================================================== *)

Lemma gtb_true_lt (a b : Z) : (a >? b) = true <-> b < a.
Proof. apply Z.gtb_lt. Qed.

Lemma scan_calls_eq (max_depth : Z) (e : Element) (depth : Z) :
  scan_calls max_depth e depth
  = if depth >? max_depth then []
    else
      ElementCall OpElementInfo e
      :: match metadata e with
         | Raise _ => []
         | Ok _ =>
             ElementCall OpRectangle e
             :: ElementCall OpChildren e
             :: flat_map (fun c => scan_calls max_depth c (depth + 1))
                  (children_items e)
         end.
Proof. destruct e; reflexivity. Qed.

Lemma scan_calls_beyond (max_depth depth : Z) (cs : list Element) :
  max_depth <= depth ->
  flat_map (fun c => scan_calls max_depth c (depth + 1)) cs = [].
Proof.
  intros Hd. induction cs as [|c cs IH]; [reflexivity|].
  cbn [flat_map]. rewrite IH, scan_calls_eq.
  replace (depth + 1 >? max_depth) with true
    by (symmetry; apply gtb_true_lt; lia).
  reflexivity.
Qed.

(** X1.  [scan_element] returns for every element, bound, depth and parent
    path: no failure of a read reaches the caller.  The result is the
    empty dictionary exactly when the depth exceeds the bound, and then no
    platform call is made; within the bound it is the error marker when the
    metadata read raises, and otherwise a dictionary with the eight keys
    [name], [control_type], [automation_id], [class_name], [path], [depth],
    [rectangle], [children], in this order. *)
Theorem scan_element_returns (max_depth : Z) (e : Element) (depth : Z)
    (parent_path : string) (s : list Call) :
  exists t s',
    UIInspector.scan_element max_depth e depth parent_path s = (Ok t, s') /\
    (t = [] <-> max_depth < depth) /\
    (max_depth < depth -> s' = s) /\
    (forall msg,
       depth <= max_depth -> metadata e = Raise msg ->
       t = [("error", VStr msg); ("depth", VInt depth)]) /\
    (depth <= max_depth -> readable e = true ->
     map fst t = ["name"; "control_type"; "automation_id"; "class_name";
                  "path"; "depth"; "rectangle"; "children"]).
Proof.
  eexists _, _. split; [apply scan_element_run|].
  rewrite scan_dict_eq, scan_calls_eq. unfold readable.
  destruct (depth >? max_depth) eqn:Hd.
  - apply gtb_true_lt in Hd.
    split; [split; [intros _; exact Hd|reflexivity]|].
    split; [intros _; apply app_nil_r|].
    split; intros; lia.
  - apply gtb_false_le in Hd.
    destruct (metadata e) as [[[[n ct] aid] cn]|msg].
    + split; [split; [discriminate|lia]|].
      split; [lia|]. split; [intros msg _ [=]|].
      intros _ _. reflexivity.
    + split; [split; [discriminate|lia]|].
      split; [lia|]. split; [intros msg' _ [= <-]; reflexivity|].
      intros _ [=].
Qed.

(** X2.  At the depth bound the scan of a readable element still calls
    [children()] on it, but reads none of the children: the platform calls
    are the element's metadata read, [rectangle()] and [children()], and
    the [children] list of the result is empty. *)
Theorem scan_element_at_bound (max_depth : Z) (e : Element)
    (parent_path : string) (s : list Call) :
  readable e = true ->
  exists t,
    UIInspector.scan_element max_depth e max_depth parent_path s
    = (Ok t,
       (s ++ [ElementCall OpElementInfo e; ElementCall OpRectangle e;
              ElementCall OpChildren e])%list) /\
    lookup t "children" = Some (VList []).
Proof.
  intros Hr. exists (scan_dict max_depth e max_depth parent_path).
  rewrite scan_element_run.
  rewrite scan_dict_eq, scan_calls_eq. unfold readable in Hr.
  replace (max_depth >? max_depth) with false
    by (symmetry; apply gtb_false_le; lia).
  destruct (metadata e) as [[[[n ct] aid] cn]|msg]; [|discriminate Hr].
  rewrite scan_calls_beyond by lia. cbv zeta.
  rewrite scan_children_at_bound by lia.
  split; reflexivity.
Qed.

Lemma scan_element_at_bound_witness :
  readable Fixtures.mock_window = true /\
  children_items Fixtures.mock_window = [Fixtures.pane] /\
  exists t,
    UIInspector.scan_element 0 Fixtures.mock_window 0 "" []
    = (Ok t,
       ([] ++ [ElementCall OpElementInfo Fixtures.mock_window;
               ElementCall OpRectangle Fixtures.mock_window;
               ElementCall OpChildren Fixtures.mock_window])%list) /\
    lookup t "children" = Some (VList []).
Proof.
  split; [reflexivity|]. split; [reflexivity|].
  exact (scan_element_at_bound 0 Fixtures.mock_window "" [] eq_refl).
Defined.

Lemma rect_info_of_none (e : Element) :
  rect_info_of e = VNone <-> rect_readable e = false.
Proof.
  unfold rect_info_of, rect_readable.
  destruct (rectangle e) as [rect|]; [|split; reflexivity].
  destruct (left rect), (top rect), (width rect), (height rect);
    split; intros H; try reflexivity; discriminate H.
Qed.

(** X3.  When [rectangle()] or one of the four reads of the rectangle
    raises for a readable element within the bound, the scan returns a
    normal node whose [rectangle] entry is [None]; every other entry,
    the children included, is the one the scan returns when the rectangle
    reads (whatever rectangle it is). *)
Theorem scan_element_rectangle_failure (max_depth : Z) (e : Element)
    (depth : Z) (parent_path : string) (s : list Call) (r : Result Rect) :
  rect_readable e = false ->
  readable e = true ->
  depth <= max_depth ->
  exists t t',
    fst (UIInspector.scan_element max_depth e depth parent_path s) = Ok t /\
    fst (UIInspector.scan_element max_depth (with_rectangle e r) depth
           parent_path s) = Ok t' /\
    lookup t "rectangle" = Some VNone /\
    lookup t "error" = None /\
    forall k, k <> "rectangle" -> lookup t k = lookup t' k.
Proof.
  intros Hrect Hr Hd. eexists _, _.
  rewrite !scan_element_run. cbn [fst].
  split; [reflexivity|]. split; [reflexivity|].
  rewrite !scan_dict_eq.
  replace (metadata (with_rectangle e r)) with (metadata e) by reflexivity.
  replace (depth >? max_depth) with false
    by (symmetry; apply gtb_false_le; exact Hd).
  unfold readable in Hr.
  destruct (metadata e) as [[[[n ct] aid] cn]|msg]; [|discriminate Hr].
  cbv zeta. cbn [children_items with_rectangle].
  apply rect_info_of_none in Hrect. rewrite Hrect.
  split; [reflexivity|]. split; [reflexivity|].
  intros k Hk. cbn [lookup].
  repeat match goal with
         | |- context [(?x =? k)%string] =>
             destruct (x =? k)%string eqn:?; try reflexivity
         end.
  match goal with H : ("rectangle" =? k)%string = true |- _ =>
    apply String.eqb_eq in H; congruence end.
Qed.

Lemma scan_element_rectangle_failure_witness :
  rect_readable
    (Fixtures.make_mock_element "NoRect" "Pane" "p" "" [Fixtures.buy_btn]
       None "" None) = false /\
  exists t t',
    fst (UIInspector.scan_element 4
           (Fixtures.make_mock_element "NoRect" "Pane" "p" ""
              [Fixtures.buy_btn] None "" None) 0 "" []) = Ok t /\
    fst (UIInspector.scan_element 4
           (with_rectangle
              (Fixtures.make_mock_element "NoRect" "Pane" "p" ""
                 [Fixtures.buy_btn] None "" None)
              (rectangle Fixtures.mock_window)) 0 "" []) = Ok t' /\
    lookup t "rectangle" = Some VNone /\
    lookup t "error" = None /\
    forall k, k <> "rectangle" -> lookup t k = lookup t' k.
Proof.
  split; [reflexivity|].
  apply (scan_element_rectangle_failure 4
           (Fixtures.make_mock_element "NoRect" "Pane" "p" ""
              [Fixtures.buy_btn] None "" None) 0 "" []
           (rectangle Fixtures.mock_window)).
  - reflexivity.
  - reflexivity.
  - lia.
Defined.

(* ================================================================== *)
(** ** More on the search *)
(* ================================================================== *)

(** X4.  [find_elements_by_type] keeps what the [results] list it is given
    holds and appends its finds to it: a call with a list is the list
    followed by the result of a call with the empty list.  The number of
    entries added does not depend on the list. *)
Theorem find_elements_by_type_appends (t : value) (control_type : string)
    (results : list value) :
  UIInspector.find_elements_by_type t control_type results
  = (results ++ UIInspector.find_elements_by_type t control_type [])%list
  /\ List.length (UIInspector.find_elements_by_type t control_type results)
     = (List.length results
        + List.length (UIInspector.find_elements_by_type t control_type []))%nat.
Proof.
  assert (H : UIInspector.find_elements_by_type t control_type results
              = (results
                 ++ UIInspector.find_elements_by_type t control_type [])%list).
  { rewrite (find_elements_preorder control_type t results).
    rewrite (find_elements_preorder control_type t []). reflexivity. }
  split; [exact H|]. rewrite H at 1. apply length_app.
Qed.

Lemma scan_visits_eq (max_depth : Z) (e : Element) (depth : Z)
    (parent_path : string) :
  scan_visits max_depth e depth parent_path
  = if depth >? max_depth then []
    else
      (e, depth, parent_path)
      :: match metadata e with
         | Raise _ => []
         | Ok (name, control_type, automation_id, _) =>
             flat_map
               (fun c =>
                  scan_visits max_depth c (depth + 1)
                    (current_path parent_path
                       (path_segment name control_type automation_id)))
               (children_items e)
         end.
Proof. destruct e; reflexivity. Qed.

Lemma scan_visits_beyond (max_depth depth : Z) (path : string)
    (cs : list Element) :
  max_depth <= depth ->
  flat_map (fun c => scan_visits max_depth c (depth + 1) path) cs = [].
Proof.
  intros Hd. induction cs as [|c cs IH]; [reflexivity|].
  cbn [flat_map]. rewrite IH, scan_visits_eq.
  replace (depth + 1 >? max_depth) with true
    by (symmetry; apply gtb_true_lt; lia).
  reflexivity.
Qed.

(** The nodes of a scanned tree are the scans of the visited elements. *)
Lemma scan_nodes_visits (max_depth : Z) (e : Element) :
  forall (depth : Z) (parent_path : string),
    depth <= max_depth ->
    nodes (VDict (scan_dict max_depth e depth parent_path))
    = map (fun v => VDict (scan_dict max_depth (fst (fst v)) (snd (fst v))
                             (snd v)))
        (scan_visits max_depth e depth parent_path).
Proof.
  induction e as [e IH] using Element_nested_ind.
  intros depth parent_path Hd.
  rewrite nodes_eq, scan_visits_eq.
  replace (depth >? max_depth) with false
    by (symmetry; apply gtb_false_le; exact Hd).
  cbn [map fst snd]. f_equal.
  rewrite (scan_dict_eq max_depth e depth parent_path).
  replace (depth >? max_depth) with false
    by (symmetry; apply gtb_false_le; exact Hd).
  destruct (metadata e) as [[[[n ct] aid] cn]|msg]; [|reflexivity].
  cbv zeta.
  set (path := current_path parent_path (path_segment n ct aid)).
  cbn [children_of get_default lookup String.eqb Ascii.eqb Bool.eqb as_list].
  destruct (Z.eq_dec depth max_depth) as [->|Hne].
  - rewrite scan_children_at_bound by lia.
    rewrite scan_visits_beyond by lia. reflexivity.
  - rewrite scan_children_below by lia.
    assert (Hd1 : depth + 1 <= max_depth) by lia.
    clear Hd Hne. induction IH as [|c cs Hc _ IHcs]; [reflexivity|].
    cbn [map flat_map]. rewrite map_app, IHcs, (Hc _ _ Hd1). reflexivity.
Qed.

Lemma scan_visits_depth (max_depth : Z) (e : Element) :
  forall (depth : Z) (parent_path : string) v,
    In v (scan_visits max_depth e depth parent_path) ->
    depth <= snd (fst v) <= max_depth.
Proof.
  induction e as [e IH] using Element_nested_ind.
  intros depth parent_path v Hv. rewrite scan_visits_eq in Hv.
  destruct (depth >? max_depth) eqn:Hd; [contradiction|].
  apply gtb_false_le in Hd.
  destruct Hv as [<- | Hv]; [cbn; lia|].
  destruct (metadata e) as [[[[n ct] aid] cn]|msg]; [|contradiction].
  apply in_flat_map in Hv. destruct Hv as (c & Hc & Hv).
  rewrite Forall_forall in IH. specialize (IH c Hc _ _ v Hv). lia.
Qed.

(** X5.  A search of a scanned tree reports exactly the visited elements
    whose metadata read succeeded and whose control type is the query, in
    the pre-order of the visit, each with its name, automation id, path and
    rectangle; elements beyond the bound, elements below an unreadable
    element and unreadable elements are never reported. *)
Theorem find_elements_by_type_of_scan (max_depth : Z) (root : Element)
    (control_type : string) :
  UIInspector.find_elements_by_type
    (VDict (scanned max_depth root 0 "")) control_type []
  = map (fun v => found_entry (fst (fst v)) (snd v))
      (filter
         (fun v =>
            match control_type_of (fst (fst v)) with
            | Some ct => (ct =? control_type)%string
            | None => false
            end)
         (scan_visits max_depth root 0 "")).
Proof.
  rewrite find_elements_preorder, scanned_eq. cbn [app].
  destruct (0 >? max_depth) eqn:Hd.
  - rewrite scan_dict_eq, scan_visits_eq, Hd. reflexivity.
  - apply gtb_false_le in Hd.
    rewrite scan_nodes_visits by exact Hd.
    pose proof (scan_visits_depth max_depth root 0 "") as Hdepth.
    induction (scan_visits max_depth root 0 "") as [|[[e d] pp] l IHl];
      [reflexivity|].
    cbn [map filter fst snd].
    assert (Hde : d <= max_depth).
    { specialize (Hdepth (e, d, pp) (or_introl eq_refl)). cbn in Hdepth. lia. }
    specialize (IHl (fun v Hv => Hdepth v (or_intror Hv))).
    unfold matches at 1. unfold control_type_of at 1.
    rewrite (scan_dict_eq max_depth e d pp).
    replace (d >? max_depth) with false
      by (symmetry; apply gtb_false_le; exact Hde).
    destruct (metadata e) as [[[[n ct] aid] cn]|msg] eqn:Hm.
    + cbv zeta. cbn [get lookup String.eqb Ascii.eqb Bool.eqb eq_str].
      destruct (ct =? control_type)%string; cbn [map fst snd].
      * rewrite IHl. f_equal. unfold found_entry. rewrite Hm. reflexivity.
      * exact IHl.
    + cbn [get lookup String.eqb Ascii.eqb Bool.eqb eq_str error_marker].
      exact IHl.
Qed.

(* ================================================================== *)
(** ** More on the exports *)
(* ================================================================== *)

Lemma path_eqb_neq (p q : path) : p <> q -> path_eqb p q = false.
Proof.
  intros Hne. destruct (path_eqb p q) eqn:H; [|reflexivity].
  apply path_eqb_eq in H. contradiction.
Qed.

Lemma path_eqb_sym (p q : path) : path_eqb p q = path_eqb q p.
Proof.
  revert q. induction p as [|a p IH]; intros [|b q]; try reflexivity.
  cbn [path_eqb]. rewrite IH, String.eqb_sym. reflexivity.
Qed.

(** Writing [p] leaves what is read at another path as it was. *)
Lemma read_file_open_write (p : path) (document : value) (w w' : World) :
  open_write p document w = (Ok tt, w') ->
  read_file w' p = Some document /\
  (forall q, q <> p -> read_file w' q = read_file w q) /\
  dirs w' = dirs w /\ stdout w' = stdout w.
Proof.
  unfold open_write.
  destruct (negb (is_dir w (parent p))); [discriminate|].
  destruct (is_dir w p); [discriminate|].
  intros [= <-]. unfold read_file. cbn [files dirs stdout find fst snd].
  rewrite path_eqb_refl. split; [reflexivity|].
  split; [|split; reflexivity].
  intros q Hq. rewrite (path_eqb_neq q p Hq).
  induction (files w) as [|f fs IH]; [reflexivity|].
  cbn [filter find].
  destruct (path_eqb p (fst f)) eqn:Hpf; cbn [negb find].
  - apply path_eqb_eq in Hpf. rewrite <- Hpf, (path_eqb_neq q p Hq).
    exact IH.
  - destruct (path_eqb q (fst f)); [reflexivity|exact IH].
Qed.

Lemma export_to_yaml_unfold (elements : dict) (output_path : option path)
    (now : string) (w : World) :
  UIInspector.export_to_yaml elements output_path now w
  = match mkdir_parents (parent (export_path_of output_path)) w with
    | (Ok _, w1) =>
        match
          open_write (export_path_of output_path)
            (VDict
               [("version", VStr "1.0");
                ("generated_at", VStr now);
                ("screens",
                 VDict
                   (map (fun screen =>
                           (fst screen, UIInspector.screen_export (snd screen)))
                      elements))]) w1
        with
        | (Ok _, w2) =>
            (Ok (export_path_of output_path),
             {| dirs := dirs w2; files := files w2;
                stdout :=
                  (stdout w2
                   ++ [(nl ++ "[OK] Exported to: "
                        ++ path_str (export_path_of output_path))%string])%list |})
        | (Raise msg, w2) => (Raise msg, w2)
        end
    | (Raise msg, w1) => (Raise msg, w1)
    end.
Proof.
  unfold UIInspector.export_to_yaml, export_path_of.
  unfold bind at 1.
  destruct (mkdir_parents _ w) as [[u|msg] w1]; [|reflexivity].
  unfold bind at 1.
  destruct (open_write _ _ w1) as [[u'|msg] w2]; reflexivity.
Qed.

Lemma mkdir_parents_raises (p : path) (w : World) :
  existsb (is_file w) (prefixes p) = true ->
  exists msg, mkdir_parents p w = (Raise msg, w).
Proof.
  intros H. unfold mkdir_parents. rewrite H. eexists. reflexivity.
Qed.

Lemma is_dir_after_mkdir (p : path) (w w1 : World) :
  mkdir_parents (parent p) w = (Ok tt, w1) ->
  is_dir w1 (parent p) = true /\
  is_dir w1 p = is_dir w p /\
  files w1 = files w /\ stdout w1 = stdout w /\
  (forall q, is_dir w q = true -> is_dir w1 q = true).
Proof.
  intros Hmk.
  assert (Hfiles : existsb (is_file w) (prefixes (parent p)) = false).
  { unfold mkdir_parents in Hmk.
    destruct (existsb (is_file w) (prefixes (parent p)));
      [discriminate|reflexivity]. }
  destruct (mkdir_parents_ok (parent p) w Hfiles)
    as (w1' & Hmk' & Hdir & Hf & Ho & Honly).
  rewrite Hmk in Hmk'. injection Hmk' as <-.
  split; [exact Hdir|]. split; [|split; [exact Hf|split; [exact Ho|]]].
  - destruct (is_dir w p) eqn:Hp.
    + destruct p as [|a p]; [reflexivity|].
      unfold mkdir_parents in Hmk. rewrite Hfiles in Hmk.
      injection Hmk as <-. unfold is_dir in *. cbn [dirs].
      rewrite existsb_app, Hp. reflexivity.
    + destruct (is_dir w1 p) eqn:Hp1; [|reflexivity].
      destruct (Honly p Hp1) as [Hold|Hnew]; [congruence|].
      apply prefixes_length in Hnew.
      destruct p as [|a p]; [discriminate Hp|].
      pose proof (parent_length a p). lia.
  - intros q Hq. destruct q as [|b q]; [reflexivity|].
    unfold mkdir_parents in Hmk. rewrite Hfiles in Hmk.
    injection Hmk as <-. unfold is_dir in *. cbn [dirs].
    rewrite existsb_app, Hq. reflexivity.
Qed.

(** X6.  When no ancestor directory of the output path is a file and the
    path is not a directory, [export_to_yaml] returns the path (the one
    given, or [inspector_export.yaml]) after creating the missing
    directories: the path's directory exists, every directory that existed
    still exists, the file at the path holds the document (version 1.0,
    the timestamp, one entry per screen in the order of [self.elements]),
    every other file reads as before, and one line naming the path is
    printed. *)
Theorem export_to_yaml_writes (elements : dict) (output_path : option path)
    (now : string) (w : World) :
  existsb (is_file w) (prefixes (parent (export_path_of output_path))) = false ->
  is_dir w (export_path_of output_path) = false ->
  exists w' screens,
    UIInspector.export_to_yaml elements output_path now w
    = (Ok (export_path_of output_path), w') /\
    is_dir w' (parent (export_path_of output_path)) = true /\
    (forall q, is_dir w q = true -> is_dir w' q = true) /\
    read_file w' (export_path_of output_path)
    = Some (VDict [("version", VStr "1.0"); ("generated_at", VStr now);
                   ("screens", VDict screens)]) /\
    map fst screens = map fst elements /\
    (forall q, q <> export_path_of output_path ->
               read_file w' q = read_file w q) /\
    stdout w'
    = (stdout w
       ++ [(nl ++ "[OK] Exported to: "
            ++ path_str (export_path_of output_path))%string])%list.
Proof.
  intros Hfiles Hnotdir.
  destruct (mkdir_parents_ok _ w Hfiles) as (w1 & Hmk & _).
  destruct (is_dir_after_mkdir _ w w1 Hmk) as (Hdir & Hp & Hf & Ho & Hkeep).
  rewrite export_to_yaml_unfold, Hmk.
  destruct (open_write (export_path_of output_path) _ w1)
    as [[[]|msg] w2] eqn:Hopen.
  - destruct (read_file_open_write _ _ _ _ Hopen) as (Hread & Hother & Hd2 & Ho2).
    eexists _, _. split; [reflexivity|].
    split; [|split; [|split; [|split; [|split]]]].
    + unfold is_dir in *. cbn [dirs]. rewrite Hd2. exact Hdir.
    + intros q Hq. specialize (Hkeep q Hq).
      unfold is_dir in *. cbn [dirs]. rewrite Hd2. exact Hkeep.
    + unfold read_file in *. cbn [files]. exact Hread.
    + rewrite map_map. cbn [fst]. reflexivity.
    + intros q Hq. specialize (Hother q Hq).
      unfold read_file in *. cbn [files]. rewrite Hother, Hf. reflexivity.
    + cbn [stdout]. rewrite Ho2, Ho. reflexivity.
  - unfold open_write in Hopen. rewrite Hdir, Hp, Hnotdir in Hopen.
    discriminate Hopen.
Qed.

Lemma export_to_yaml_writes_witness :
  existsb
    (is_file {| dirs := [["out"]]; files := [(["notes.txt"], VStr "n")];
                stdout := [] |})
    (prefixes (parent (export_path_of (Some ["out"; "ui"; "main.yaml"]))))
  = false /\
  exists w' screens,
    UIInspector.export_to_yaml
      [("main", VDict (scanned 4 Fixtures.mock_window 0 ""))]
      (Some ["out"; "ui"; "main.yaml"]) "2024-01-01T00:00:00"
      {| dirs := [["out"]]; files := [(["notes.txt"], VStr "n")];
         stdout := [] |}
    = (Ok (export_path_of (Some ["out"; "ui"; "main.yaml"])), w') /\
    is_dir w' (parent (export_path_of (Some ["out"; "ui"; "main.yaml"]))) = true /\
    (forall q,
       is_dir {| dirs := [["out"]]; files := [(["notes.txt"], VStr "n")];
                 stdout := [] |} q = true -> is_dir w' q = true) /\
    read_file w' (export_path_of (Some ["out"; "ui"; "main.yaml"]))
    = Some (VDict [("version", VStr "1.0");
                   ("generated_at", VStr "2024-01-01T00:00:00");
                   ("screens", VDict screens)]) /\
    map fst screens
    = map fst [("main", VDict (scanned 4 Fixtures.mock_window 0 ""))] /\
    (forall q, q <> export_path_of (Some ["out"; "ui"; "main.yaml"]) ->
               read_file w' q
               = read_file
                   {| dirs := [["out"]]; files := [(["notes.txt"], VStr "n")];
                      stdout := [] |} q) /\
    stdout w'
    = ([] ++ [(nl ++ "[OK] Exported to: "
               ++ path_str (export_path_of (Some ["out"; "ui"; "main.yaml"])))%string])%list.
Proof.
  split; [reflexivity|].
  apply (export_to_yaml_writes
           [("main", VDict (scanned 4 Fixtures.mock_window 0 ""))]
           (Some ["out"; "ui"; "main.yaml"]) "2024-01-01T00:00:00"
           {| dirs := [["out"]]; files := [(["notes.txt"], VStr "n")];
              stdout := [] |}); reflexivity.
Defined.

(** X7.  When an ancestor directory of the output path is a file, or the
    path is a directory, [export_to_yaml] raises: no file is written or
    changed and nothing is printed. *)
Theorem export_to_yaml_failure (elements : dict) (output_path : option path)
    (now : string) (w : World) :
  existsb (is_file w) (prefixes (parent (export_path_of output_path))) = true
  \/ is_dir w (export_path_of output_path) = true ->
  exists msg w',
    UIInspector.export_to_yaml elements output_path now w = (Raise msg, w') /\
    files w' = files w /\ stdout w' = stdout w.
Proof.
  intros H. rewrite export_to_yaml_unfold.
  destruct (existsb (is_file w)
              (prefixes (parent (export_path_of output_path)))) eqn:Hfiles.
  - destruct (mkdir_parents_raises _ w Hfiles) as [msg ->].
    exists msg, w. repeat split; reflexivity.
  - destruct H as [H|Hdirp]; [discriminate H|].
    destruct (mkdir_parents_ok _ w Hfiles) as (w1 & Hmk & _).
    destruct (is_dir_after_mkdir _ w w1 Hmk) as (Hdir & Hp & Hf & Ho & _).
    rewrite Hmk. unfold open_write. rewrite Hdir, Hp, Hdirp. cbn [negb].
    eexists _, w1. split; [reflexivity|]. split; assumption.
Qed.

Lemma export_to_yaml_failure_witness :
  (existsb
     (is_file {| dirs := []; files := [(["out"], VStr "a file")];
                 stdout := [] |})
     (prefixes (parent (export_path_of (Some ["out"; "main.yaml"])))) = true
   \/ is_dir {| dirs := []; files := [(["out"], VStr "a file")];
                stdout := [] |}
        (export_path_of (Some ["out"; "main.yaml"])) = true) /\
  exists msg w',
    UIInspector.export_to_yaml [] (Some ["out"; "main.yaml"]) "now"
      {| dirs := []; files := [(["out"], VStr "a file")]; stdout := [] |}
    = (Raise msg, w') /\
    files w' = files {| dirs := []; files := [(["out"], VStr "a file")];
                        stdout := [] |} /\
    stdout w' = stdout {| dirs := []; files := [(["out"], VStr "a file")];
                          stdout := [] |}.
Proof.
  assert (H : existsb
     (is_file {| dirs := []; files := [(["out"], VStr "a file")];
                 stdout := [] |})
     (prefixes (parent (export_path_of (Some ["out"; "main.yaml"])))) = true
   \/ is_dir {| dirs := []; files := [(["out"], VStr "a file")];
                stdout := [] |}
        (export_path_of (Some ["out"; "main.yaml"])) = true)
    by (left; reflexivity).
  split; [exact H|].
  exact (export_to_yaml_failure [] (Some ["out"; "main.yaml"]) "now" _ H).
Defined.




(** X9.  With an export path whose directory exists and which is not
    itself a directory, the export step of [WindowMapper.run] writes the
    mappings to the path (replacing a file that is there), leaves every
    other file and every directory as it was, and prints one line naming
    the path. *)
Theorem run_export_writes (p : path) (all_mappings : dict) (w : World) :
  p <> [] ->
  is_dir w (parent p) = true ->
  is_dir w p = false ->
  exists w',
    WindowMapper.run_export (Some p) all_mappings w = (Ok tt, w') /\
    read_file w' p = Some (VDict all_mappings) /\
    (forall q, q <> p -> read_file w' q = read_file w q) /\
    dirs w' = dirs w /\
    stdout w'
    = (stdout w
       ++ [(nl ++ nl ++ "Saved element map to: " ++ path_str p)%string])%list.
Proof.
  intros Hp Hparent Hnotdir.
  destruct p as [|part parts]; [contradiction|].
  unfold WindowMapper.run_export.
  unfold try_except. unfold bind at 1.
  destruct (open_write (part :: parts) (VDict all_mappings) w)
    as [[[]|msg] w1] eqn:Hopen.
  - destruct (read_file_open_write _ _ _ _ Hopen) as (Hread & Hother & Hd & Ho).
    eexists. split; [reflexivity|]. unfold read_file in *.
    cbn [files dirs stdout]. rewrite Ho.
    repeat split; assumption || reflexivity.
  - unfold open_write in Hopen. rewrite Hparent, Hnotdir in Hopen.
    discriminate Hopen.
Qed.

Lemma run_export_writes_witness :
  ["out"; "map.json"] <> [] /\
  exists w',
    WindowMapper.run_export (Some ["out"; "map.json"])
      [("Test Window", VDict [("size", VStr "800x600")])]
      {| dirs := [["out"]];
         files := [(["out"; "map.json"], VStr "old"); (["a.txt"], VStr "a")];
         stdout := [] |}
    = (Ok tt, w') /\
    read_file w' ["out"; "map.json"]
    = Some (VDict [("Test Window", VDict [("size", VStr "800x600")])]) /\
    (forall q, q <> ["out"; "map.json"] ->
       read_file w' q
       = read_file
           {| dirs := [["out"]];
              files := [(["out"; "map.json"], VStr "old");
                        (["a.txt"], VStr "a")];
              stdout := [] |} q) /\
    dirs w' = dirs {| dirs := [["out"]];
                      files := [(["out"; "map.json"], VStr "old");
                                (["a.txt"], VStr "a")];
                      stdout := [] |} /\
    stdout w'
    = ([] ++ [(nl ++ nl ++ "Saved element map to: "
               ++ path_str ["out"; "map.json"])%string])%list.
Proof.
  assert (Hp : ["out"; "map.json"] <> @nil string) by discriminate.
  split; [exact Hp|].
  exact (run_export_writes ["out"; "map.json"]
           [("Test Window", VDict [("size", VStr "800x600")])]
           {| dirs := [["out"]];
              files := [(["out"; "map.json"], VStr "old");
                        (["a.txt"], VStr "a")];
              stdout := [] |} Hp eq_refl eq_refl).
Defined.

(* ================================================================== *)
(** ** More on the flat walk *)
(* ================================================================== *)

Lemma walk_depth (max_depth : Z) (w : Element) :
  forall (depth : Z) (e : Element) (d : Z),
    In (e, d) (walk max_depth w depth) ->
    depth <= d <= max_depth /\ readable e = true.
Proof.
  induction w as [w IH] using Element_nested_ind.
  intros depth e d Hin. rewrite walk_eq in Hin.
  destruct (depth >? max_depth) eqn:Hd; [contradiction|].
  apply gtb_false_le in Hd.
  destruct (readable w) eqn:Hr; [|contradiction].
  destruct Hin as [[= <- <-] | Hin]; [split; [lia|exact Hr]|].
  apply in_flat_map in Hin. destruct Hin as (c & Hc & Hin).
  rewrite Forall_forall in IH.
  destruct (IH c Hc (depth + 1) e d Hin) as [Hrange Hre].
  split; [lia|exact Hre].
Qed.

Lemma flat_record_ok (max_depth : Z) (e : Element) (d : Z) :
  0 <= d <= max_depth ->
  passes_filter e = true ->
  record_ok max_depth (VDict (flat_record e d)).
Proof.
  intros Hd Hpass.
  apply passes_filter_iff in Hpass.
  destruct Hpass as (n & ct & aid & cn & Hm & Hin & Hid).
  unfold record_ok, flat_record. rewrite Hm.
  eexists _, d, ct, aid, n, cn. split; [reflexivity|].
  split; [reflexivity|]. split; [exact Hd|]. split; [exact Hin|].
  split; [exact Hid|].
  assert (Hexcl : (ct =? "Edit")%string = true ->
                  (ct =? "CheckBox")%string = false).
  { intros H. apply String.eqb_eq in H. subst ct. reflexivity. }
  destruct (ct =? "Edit")%string eqn:Hedit.
  - rewrite (Hexcl eq_refl). apply String.eqb_eq in Hedit. subst ct.
    destruct (legacy_properties e) as [props|];
      [destruct (WindowMapper.props_get props "Value" "" =? "")%string eqn:Hv|];
      cbn [negb app lookup String.eqb Ascii.eqb Bool.eqb];
      (split; [intros v Hl|split; [intros v Hl|reflexivity]]);
      try discriminate Hl.
    injection Hl as <-. split; [reflexivity|].
    eexists. split; [reflexivity|]. apply String.eqb_neq. exact Hv.
  - destruct (ct =? "CheckBox")%string eqn:Hcheck.
    + apply String.eqb_eq in Hcheck. subst ct.
      destruct (get_toggle_state e) as [state|];
        cbn [app lookup String.eqb Ascii.eqb Bool.eqb];
        (split; [intros v Hl|split; [intros v Hl|reflexivity]]);
        try discriminate Hl.
      injection Hl as <-. split; [reflexivity|]. eexists. reflexivity.
    + cbn [app lookup String.eqb Ascii.eqb Bool.eqb].
      split; [intros v [=]|]. split; [intros v [=]|reflexivity].
Qed.

(** X10.  Every record [map_window_elements] returns starts with the
    entries [depth], [type], [id], [name], [class], in this order, with a
    depth between 0 and [max_depth], a type of the allow-list and a
    non-empty id or name; it has a [value] entry only if its type is
    [Edit], and the value is then a non-empty text; it has a [checked]
    entry only if its type is [CheckBox]; it has no [error] entry.  The
    call returns for every window and bound. *)
Theorem map_window_elements_records (max_depth : Z) (window : Element)
    (s : list Call) :
  exists records s',
    WindowMapper.map_window_elements max_depth window s = (Ok records, s') /\
    Forall (record_ok max_depth) records.
Proof.
  eexists _, _. split.
  - unfold WindowMapper.map_window_elements. rewrite mapper_scan_run.
    reflexivity.
  - cbn [WindowMapper.elements app].
    pose proof (walk_depth max_depth window 0) as Hwalk.
    induction (walk max_depth window 0) as [|[e d] l IHl]; [constructor|].
    rewrite records_of_cons. cbn [fst snd].
    specialize (IHl (fun e' d' H => Hwalk e' d' (or_intror H))).
    destruct (passes_filter e) eqn:Hpass; [|exact IHl].
    constructor; [|exact IHl].
    destruct (Hwalk e d (or_introl eq_refl)) as [Hrange _].
    apply flat_record_ok; [lia|exact Hpass].
Qed.

(** X11.  In the flat walk, the records collected do not depend on how the
    enumeration of an element's children ends: when it raises after some
    children, the record of the element and the records of the subtrees of
    the children yielded before stay in [elements], exactly as when it ends
    normally after the same children, and the call returns normally. *)
Theorem mapper_scan_children_failure (max_depth : Z) (e : Element)
    (depth : Z) (st : WindowMapper.MapperState) (err : option string) :
  exists st1 st2,
    WindowMapper.scan_element max_depth e depth st = (Ok tt, st1) /\
    WindowMapper.scan_element max_depth (with_children_error e err) depth st
    = (Ok tt, st2) /\
    WindowMapper.elements st1 = WindowMapper.elements st2.
Proof.
  eexists _, _. split; [apply mapper_scan_run|].
  split; [apply mapper_scan_run|].
  cbn [WindowMapper.elements]. f_equal.
  rewrite !walk_eq.
  replace (readable (with_children_error e err)) with (readable e)
    by reflexivity.
  replace (children_items (with_children_error e err))
    with (children_items e) by reflexivity.
  destruct (depth >? max_depth); [reflexivity|].
  destruct (readable e); [|reflexivity].
  rewrite !records_of_cons. reflexivity.
Qed.





(* ================================================================== *)
(** ** More on window resolution *)
(* ================================================================== *)

Lemma window_entry_trace (win : Element) (s : list Call) :
  WindowMapper.window_entry win s
  = (Ok (if title_and_size_ok win && handle_ok win
         then Some (descriptor win) else None),
     (s ++ entry_calls win)%list).
Proof.
  unfold WindowMapper.window_entry, entry_calls, title_ok, title_and_size_ok,
    handle_ok, descriptor, try_except, bind, call, prop, ret.
  cbn [log_call Logging_list].
  destruct (window_text win) as [title|]; [|reflexivity].
  destruct (title =? "")%string eqn:Ht; cbn [negb andb].
  { destruct (rectangle win) as [rect|]; [|reflexivity].
    destruct (width rect), (height rect); reflexivity. }
  destruct (rectangle win) as [rect|]; [|rewrite <- app_assoc; reflexivity].
  destruct (width rect) as [w|]; [|rewrite <- app_assoc; reflexivity].
  destruct (height rect) as [h|]; [|rewrite <- app_assoc; reflexivity].
  destruct ((w >? 100) && (h >? 100));
    [|rewrite <- app_assoc; reflexivity].
  destruct (handle win); rewrite <- !app_assoc; reflexivity.
Qed.

Lemma find_windows_trace (title_pattern : option string) (desktop : Desktop)
    (s : list Call) :
  WindowMapper.find_windows title_pattern desktop s
  = match all_windows title_pattern desktop with
    | Ok wins =>
        (Ok (map descriptor
               (filter (fun w => title_and_size_ok w && handle_ok w) wins)),
         (s ++ enumeration_calls title_pattern desktop
            ++ flat_map entry_calls wins)%list)
    | Raise msg =>
        (Raise msg, (s ++ enumeration_calls title_pattern desktop)%list)
    end.
Proof.
  unfold WindowMapper.find_windows, all_windows, enumeration_calls.
  assert (Hloop : forall wins acc s0,
    (fix loop (wins0 : list Element) (windows_info : list value) {struct wins0}
       : M (list Call) (list value) :=
       match wins0 with
       | [] => ret windows_info
       | win :: wins' =>
           entry <- WindowMapper.window_entry win ;;
           loop wins'
             (match entry with
              | Some info => (windows_info ++ [info])%list
              | None => windows_info
              end)
       end) wins acc s0
    = (Ok (acc ++ map descriptor
                    (filter (fun w => title_and_size_ok w && handle_ok w) wins))%list,
       (s0 ++ flat_map entry_calls wins)%list)).
  { induction wins as [|win wins IH]; intros acc s0.
    - unfold ret. cbn [filter map flat_map]. rewrite !app_nil_r. reflexivity.
    - unfold bind at 1. rewrite window_entry_trace.
      cbn [filter flat_map].
      destruct (title_and_size_ok win && handle_ok win); rewrite IH;
        cbn [map]; rewrite <- !app_assoc; reflexivity. }
  assert (Hcase : forall (r : Result (list Element)) (c : Call),
    (all_windows0 <-
       try_except (fun s0 : list Call => (r, log_call c s0))
         (fun _ => fun s0 =>
            (windows_again desktop, log_call (DesktopWindows None) s0)) ;;
     (fix loop (wins0 : list Element) (windows_info : list value)
        {struct wins0} : M (list Call) (list value) :=
        match wins0 with
        | [] => ret windows_info
        | win :: wins' =>
            entry <- WindowMapper.window_entry win ;;
            loop wins'
              (match entry with
               | Some info => (windows_info ++ [info])%list
               | None => windows_info
               end)
        end) all_windows0 []) s
    = match match r with Ok wins => Ok wins | Raise _ => windows_again desktop end with
      | Ok wins =>
          (Ok (map descriptor
                 (filter (fun w => title_and_size_ok w && handle_ok w) wins)),
           (s ++ (c :: match r with
                       | Ok _ => []
                       | Raise _ => [DesktopWindows None]
                       end)
              ++ flat_map entry_calls wins)%list)
      | Raise msg =>
          (Raise msg,
           (s ++ c :: match r with
                      | Ok _ => []
                      | Raise _ => [DesktopWindows None]
                      end)%list)
      end).
  { intros r c. unfold bind at 1. unfold try_except at 1.
    cbn [log_call Logging_list].
    destruct r as [wins|msg].
    - rewrite Hloop. cbn [app]. rewrite <- !app_assoc. reflexivity.
    - destruct (windows_again desktop) as [wins|msg'].
      + rewrite Hloop. cbn [app]. rewrite <- !app_assoc. reflexivity.
      + rewrite <- !app_assoc. reflexivity. }
  destruct title_pattern as [pattern|];
    [destruct (negb (pattern =? "")%string)|].
  - exact (Hcase (windows_re desktop pattern) (DesktopWindows (Some pattern))).
  - exact (Hcase (windows desktop) (DesktopWindows None)).
  - exact (Hcase (windows desktop) (DesktopWindows None)).
Qed.

Lemma descriptor_is_ok (w : Element) :
  title_and_size_ok w && handle_ok w = true -> descriptor_ok (descriptor w).
Proof.
  unfold title_and_size_ok, handle_ok, descriptor, descriptor_ok. intros H.
  destruct (window_text w) as [title|]; [|discriminate H].
  destruct (rectangle w) as [rect|]; [|discriminate H].
  destruct (width rect) as [wd|]; [|discriminate H].
  destruct (height rect) as [ht|]; [|discriminate H].
  destruct (handle w) as [h|]; [|rewrite andb_false_r in H; discriminate H].
  rewrite andb_true_r in H.
  apply andb_true_iff in H. destruct H as [H Hht].
  apply andb_true_iff in H. destruct H as [Ht Hwd].
  apply negb_true_iff, String.eqb_neq in Ht.
  apply Z.gtb_lt in Hwd. apply Z.gtb_lt in Hht.
  exists title, h, wd, ht. repeat split; assumption.
Qed.

(** X13.  Every descriptor [find_windows] returns has exactly the entries
    [title], [handle], [width], [height], in this order, with a non-empty
    title and a width and a height above 100; there are at most as many
    descriptors as windows enumerated. *)
Theorem find_windows_descriptors (title_pattern : option string)
    (desktop : Desktop) (s s' : list Call) (windows_info : list value) :
  WindowMapper.find_windows title_pattern desktop s = (Ok windows_info, s') ->
  Forall descriptor_ok windows_info /\
  exists wins,
    all_windows title_pattern desktop = Ok wins /\
    (List.length windows_info <= List.length wins)%nat.
Proof.
  rewrite find_windows_trace.
  destruct (all_windows title_pattern desktop) as [wins|msg]; [|discriminate].
  intros [= <- _]. split.
  - apply Forall_forall. intros d Hd.
    apply in_map_iff in Hd. destruct Hd as (w & <- & Hw).
    apply filter_In in Hw. apply descriptor_is_ok. exact (proj2 Hw).
  - exists wins. split; [reflexivity|].
    rewrite length_map. apply filter_length_le.
Qed.

Lemma find_windows_descriptors_witness :
  exists s' windows_info,
    WindowMapper.find_windows None
      (Fixtures.desktop_of
         [Fixtures.mock_window; Fixtures.buy_btn; Fixtures.stale_window]) []
    = (Ok windows_info, s') /\
    windows_info <> [] /\
    Forall descriptor_ok windows_info /\
    exists wins,
      all_windows None
        (Fixtures.desktop_of
           [Fixtures.mock_window; Fixtures.buy_btn; Fixtures.stale_window])
      = Ok wins /\
      (List.length windows_info <= List.length wins)%nat.
Proof.
  eexists _, _.
  assert (H : WindowMapper.find_windows None
      (Fixtures.desktop_of
         [Fixtures.mock_window; Fixtures.buy_btn; Fixtures.stale_window]) []
    = (Ok [VDict [("title", VStr "Test Window"); ("handle", VInt 12345);
                  ("width", VInt 800); ("height", VInt 600)]],
       snd (WindowMapper.find_windows None
              (Fixtures.desktop_of
                 [Fixtures.mock_window; Fixtures.buy_btn;
                  Fixtures.stale_window]) [])))
    by (vm_compute; reflexivity).
  split; [exact H|]. split; [discriminate|].
  exact (find_windows_descriptors _ _ _ _ _ H).
Defined.

(** X14.  When the enumeration restricted by a (non-empty) title pattern
    raises, [find_windows] enumerates all the windows instead and goes
    through them regardless of the pattern; when that enumeration raises as
    well, [find_windows] raises with its message and returns no list.  The
    platform is asked twice: once with the pattern, once without. *)
Theorem find_windows_fallback (pattern : string) (desktop : Desktop)
    (s : list Call) (msg : string) :
  pattern <> "" ->
  windows_re desktop pattern = Raise msg ->
  WindowMapper.find_windows (Some pattern) desktop s
  = match windows_again desktop with
    | Ok wins =>
        (Ok (map descriptor
               (filter (fun w => title_and_size_ok w && handle_ok w) wins)),
         (s ++ [DesktopWindows (Some pattern); DesktopWindows None]
            ++ flat_map entry_calls wins)%list)
    | Raise msg' =>
        (Raise msg',
         (s ++ [DesktopWindows (Some pattern); DesktopWindows None])%list)
    end.
Proof.
  intros Hp Hre. rewrite find_windows_trace.
  unfold all_windows, enumeration_calls.
  apply String.eqb_neq in Hp. rewrite Hp. cbn [negb]. rewrite Hre.
  destruct (windows_again desktop); reflexivity.
Qed.

Lemma find_windows_fallback_witness :
  "(" <> "" /\
  WindowMapper.find_windows (Some "(")
    {| windows_re := fun _ => Raise "bad pattern";
       windows := Ok [Fixtures.mock_window];
       windows_again := Ok [Fixtures.mock_window] |} []
  = match windows_again
            {| windows_re := fun _ => Raise "bad pattern";
               windows := Ok [Fixtures.mock_window];
               windows_again := Ok [Fixtures.mock_window] |} with
    | Ok wins =>
        (Ok (map descriptor
               (filter (fun w => title_and_size_ok w && handle_ok w) wins)),
         ([] ++ [DesktopWindows (Some "("); DesktopWindows None]
             ++ flat_map entry_calls wins)%list)
    | Raise msg' =>
        (Raise msg',
         ([] ++ [DesktopWindows (Some "("); DesktopWindows None])%list)
    end.
Proof.
  assert (Hp : "(" <> "") by discriminate.
  split; [exact Hp|].
  exact (find_windows_fallback "("
           {| windows_re := fun _ => Raise "bad pattern";
              windows := Ok [Fixtures.mock_window];
              windows_again := Ok [Fixtures.mock_window] |} []
           "bad pattern" Hp eq_refl).
Defined.

(** X15.  On each window it goes through, [find_windows] reads the title;
    it calls [rectangle()] only when the title read succeeded and is
    non-empty, and reads the handle only when, moreover, the rectangle
    read succeeded with a width and a height above 100.  These calls, in
    the order of the enumeration, after the calls that enumerate the
    windows, are all the platform calls it makes. *)
Theorem find_windows_calls (title_pattern : option string)
    (desktop : Desktop) (s : list Call) (wins : list Element) :
  all_windows title_pattern desktop = Ok wins ->
  snd (WindowMapper.find_windows title_pattern desktop s)
  = (s ++ enumeration_calls title_pattern desktop
       ++ flat_map entry_calls wins)%list
  /\ forall win,
       In (ElementCall OpWindowText win) (entry_calls win) /\
       (In (ElementCall OpRectangle win) (entry_calls win) <->
        title_ok win = true) /\
       (In (ElementCall OpHandle win) (entry_calls win) <->
        title_and_size_ok win = true).
Proof.
  intros Hall. split.
  - rewrite find_windows_trace, Hall. reflexivity.
  - intros win. unfold entry_calls.
    assert (Hsize : title_and_size_ok win = true -> title_ok win = true).
    { unfold title_and_size_ok, title_ok.
      destruct (window_text win) as [title|]; [|discriminate].
      destruct (rectangle win) as [rect|]; [|discriminate].
      destruct (width rect), (height rect); try discriminate.
      intros H. apply andb_true_iff in H. destruct H as [H _].
      apply andb_true_iff in H. exact (proj1 H). }
    split; [left; reflexivity|]. split.
    + destruct (title_ok win).
      * split; [reflexivity|]. intros _. right. left. reflexivity.
      * split; [|discriminate]. intros [H|[]]. discriminate H.
    + destruct (title_and_size_ok win) eqn:Hs.
      * rewrite (Hsize eq_refl). split; [reflexivity|].
        intros _. right. right. left. reflexivity.
      * split; [|discriminate].
        destruct (title_ok win).
        -- intros [H|[H|[]]]; discriminate H.
        -- intros [H|[]]. discriminate H.
Qed.

Lemma find_windows_calls_witness :
  all_windows None
    (Fixtures.desktop_of
       [Fixtures.mock_window; Fixtures.buy_btn; Fixtures.stale_window])
  = Ok [Fixtures.mock_window; Fixtures.buy_btn; Fixtures.stale_window] /\
  snd (WindowMapper.find_windows None
         (Fixtures.desktop_of
            [Fixtures.mock_window; Fixtures.buy_btn; Fixtures.stale_window])
         [])
  = ([] ++ enumeration_calls None
             (Fixtures.desktop_of
                [Fixtures.mock_window; Fixtures.buy_btn;
                 Fixtures.stale_window])
        ++ flat_map entry_calls
             [Fixtures.mock_window; Fixtures.buy_btn;
              Fixtures.stale_window])%list.
Proof.
  split; [reflexivity|].
  exact (proj1 (find_windows_calls None
                  (Fixtures.desktop_of
                     [Fixtures.mock_window; Fixtures.buy_btn;
                      Fixtures.stale_window]) []
                  [Fixtures.mock_window; Fixtures.buy_btn;
                   Fixtures.stale_window] eq_refl)).
Defined.

(* ================================================================== *)
(** ** The printed tree *)
(* ================================================================== *)

Lemma print_run (line : string) (w : World) :
  print line w = (Ok tt, printed w [line]).
Proof. reflexivity. Qed.

Lemma printed_nil (w : World) : printed w [] = w.
Proof. destruct w. unfold printed. cbn. rewrite app_nil_r. reflexivity. Qed.

Lemma printed_printed (w : World) (l1 l2 : list string) :
  printed (printed w l1) l2 = printed w (l1 ++ l2).
Proof. unfold printed. cbn. rewrite app_assoc. reflexivity. Qed.

Lemma print_element_tree_eq (d : dict) (indent max_print_depth : Z) :
  UIInspector.print_element_tree (VDict d) indent max_print_depth
  = if indent >? max_print_depth * 2 then ret tt
    else
      (let prefix := str_repeat "  " indent in
       let name := get_default d "name" (VStr "") in
       let ctrl_type := get_default d "control_type" (VStr "") in
       let auto_id := get_default d "automation_id" (VStr "") in
       if truthy name || truthy auto_id
          || existsb (eq_str ctrl_type) UIInspector.key_types
       then
         let line := prefix ++ "[" ++ text_of ctrl_type ++ "]" in
         let line :=
           if truthy name then line ++ " '" ++ text_of name ++ "'"
           else line in
         let line :=
           if truthy auto_id then line ++ " (ID: " ++ text_of auto_id ++ ")"
           else line in
         print line
       else ret tt) ;;;
      match lookup d "children" with
      | None => ret tt
      | Some (VList xs) =>
          UIInspector.for_each xs
            (fun child =>
               UIInspector.print_element_tree child (indent + 1)
                 max_print_depth)
      | Some v => xs <- prop (UIInspector.iterate_children v) ;; ret tt
      end.
Proof.
  cbn [UIInspector.print_element_tree].
  destruct (indent >? max_print_depth * 2); [reflexivity|].
  f_equal.
  apply (f_equal (fun k : unit -> M World unit => k)).
  assert (H :
    (fix children (kvs : dict) : M World unit :=
       match kvs with
       | [] => ret tt
       | (k, v) :: kvs' =>
           if (k =? "children")%string
           then
             match v with
             | VList xs =>
                 (fix loop (xs0 : list value) : M World unit :=
                    match xs0 with
                    | [] => ret tt
                    | child :: xs' =>
                        UIInspector.print_element_tree child (indent + 1)
                          max_print_depth ;;;
                        loop xs'
                    end) xs
             | _ => xs <- prop (UIInspector.iterate_children v) ;; ret tt
             end
           else children kvs'
       end) d
    = match lookup d "children" with
      | None => ret tt
      | Some (VList xs) =>
          UIInspector.for_each xs
            (fun child =>
               UIInspector.print_element_tree child (indent + 1)
                 max_print_depth)
      | Some v => xs <- prop (UIInspector.iterate_children v) ;; ret tt
      end).
  { induction d as [|[k v] d IH]; [reflexivity|].
    cbn [lookup]. destruct (k =? "children")%string; [|exact IH].
    destruct v; try reflexivity.
    induction xs as [|x xs IHxs]; [reflexivity|].
    cbn [UIInspector.for_each]. rewrite <- IHxs. reflexivity. }
  rewrite H. reflexivity.
Qed.

Lemma existsb_eq_str (s : string) (l : list string) :
  existsb (eq_str (VStr s)) l = if in_dec string_dec s l then true else false.
Proof.
  destruct (in_dec string_dec s l) as [Hin|Hout].
  - apply existsb_exists. exists s. split; [exact Hin|apply String.eqb_refl].
  - destruct (existsb _ _) eqn:Hex; [|reflexivity].
    apply existsb_exists in Hex. destruct Hex as (x & Hx & Heq).
    apply String.eqb_eq in Heq. subst x. contradiction.
Qed.

Lemma tree_lines_app (max_print_depth : Z) (l1 l2 : list (Element * Z * string)) :
  tree_lines max_print_depth (l1 ++ l2)
  = (tree_lines max_print_depth l1 ++ tree_lines max_print_depth l2)%list.
Proof. unfold tree_lines. rewrite filter_app, map_app. reflexivity. Qed.

Lemma tree_lines_cons (max_print_depth : Z) (v : Element * Z * string)
    (l : list (Element * Z * string)) :
  tree_lines max_print_depth (v :: l)
  = ((if (snd (fst v) <=? max_print_depth * 2) && shown (fst (fst v))
      then [tree_line (fst (fst v)) (snd (fst v))] else [])
     ++ tree_lines max_print_depth l)%list.
Proof.
  unfold tree_lines. cbn [filter].
  destruct ((snd (fst v) <=? max_print_depth * 2) && shown (fst (fst v)));
    reflexivity.
Qed.

Lemma tree_lines_too_deep (max_print_depth : Z)
    (visits : list (Element * Z * string)) :
  (forall v, In v visits -> max_print_depth * 2 < snd (fst v)) ->
  tree_lines max_print_depth visits = [].
Proof.
  intros H. unfold tree_lines.
  induction visits as [|v l IH]; [reflexivity|].
  cbn [filter].
  replace (snd (fst v) <=? max_print_depth * 2) with false
    by (symmetry; apply Z.leb_gt; apply H; left; reflexivity).
  cbn [andb]. apply IH. intros v' Hv'. apply H. right. exact Hv'.
Qed.

(** Printing a scanned subtree whose root is at depth [depth], with the
    indentation [depth]. *)
Lemma print_scanned_tree (max_depth max_print_depth : Z) (e : Element) :
  forall (depth : Z) (parent_path : string) (w : World),
    depth <= max_depth ->
    UIInspector.print_element_tree
      (VDict (scan_dict max_depth e depth parent_path)) depth
      max_print_depth w
    = (Ok tt,
       printed w
         (tree_lines max_print_depth
            (scan_visits max_depth e depth parent_path))).
Proof.
  induction e as [e IH] using Element_nested_ind.
  intros depth parent_path w Hd.
  rewrite print_element_tree_eq.
  destruct (depth >? max_print_depth * 2) eqn:Hcut.
  { apply gtb_true_lt in Hcut.
    rewrite tree_lines_too_deep, printed_nil; [reflexivity|].
    intros v Hv. apply scan_visits_depth in Hv. lia. }
  apply gtb_false_le in Hcut.
  rewrite scan_visits_eq, scan_dict_eq.
  replace (depth >? max_depth) with false
    by (symmetry; apply gtb_false_le; exact Hd).
  rewrite tree_lines_cons. cbn [fst snd].
  replace (depth <=? max_print_depth * 2) with true
    by (symmetry; apply Z.leb_le; exact Hcut).
  cbn [andb]. unfold shown, tree_line.
  destruct (metadata e) as [[[[n ct] aid] cn]|msg].
  2:{ cbv zeta. cbn. rewrite printed_nil. reflexivity. }
  cbv zeta.
  set (path := current_path parent_path (path_segment n ct aid)).
  cbn [get_default lookup String.eqb Ascii.eqb Bool.eqb text_of truthy].
  rewrite existsb_eq_str.
  set (cond := negb (n =? "")%string || negb (aid =? "")%string
               || (if in_dec string_dec ct UIInspector.key_types
                   then true else false)).
  set (line := if negb (aid =? "")%string then _ else _).
  assert (Hkids : forall w0,
    UIInspector.for_each
      (filter truthy
         (map (fun c => VDict (scan_dict max_depth c (depth + 1) path))
            (children_items e)))
      (fun child =>
         UIInspector.print_element_tree child (depth + 1) max_print_depth) w0
    = (Ok tt,
       printed w0
         (tree_lines max_print_depth
            (flat_map (fun c => scan_visits max_depth c (depth + 1) path)
               (children_items e))))).
  { intros w0. destruct (Z.eq_dec depth max_depth) as [->|Hne].
    - rewrite scan_children_at_bound, scan_visits_beyond by lia.
      cbn. rewrite printed_nil. reflexivity.
    - rewrite scan_children_below by lia.
      assert (Hd1 : depth + 1 <= max_depth) by lia.
      clear Hd Hne line cond. revert w0.
      induction IH as [|c cs Hc _ IHcs]; intros w0.
      + cbn. rewrite printed_nil. reflexivity.
      + cbn [map UIInspector.for_each flat_map].
        unfold bind at 1. rewrite (Hc _ _ _ Hd1), IHcs.
        rewrite printed_printed, tree_lines_app. reflexivity. }
  unfold bind at 1.
  destruct cond.
  - rewrite print_run, Hkids, printed_printed. reflexivity.
  - unfold ret at 1. rewrite Hkids. reflexivity.
Qed.

(** X16.  On the tree returned by a scan, [print_element_tree] prints one
    line for each visited element whose metadata read succeeded, which has
    a name, an automation id or one of the control types Button, Edit,
    MenuItem, TabItem, ComboBox, and whose depth is at most
    [2 * max_print_depth] (the indentation grows by one per level and the
    cut-off is [max_print_depth * 2], so the default 3 prints the levels 0
    to 6).  The lines come in pre-order, indented by two spaces per level;
    error markers print nothing; the call returns normally. *)
Theorem print_element_tree_of_scan (max_depth max_print_depth : Z)
    (root : Element) (w : World) :
  UIInspector.print_element_tree (VDict (scanned max_depth root 0 "")) 0
    max_print_depth w
  = (Ok tt,
     printed w
       (map (fun v => tree_line (fst (fst v)) (snd (fst v)))
          (filter
             (fun v =>
                (snd (fst v) <=? max_print_depth * 2) && shown (fst (fst v)))
             (scan_visits max_depth root 0 "")))).
Proof.
  rewrite scanned_eq.
  destruct (0 >? max_depth) eqn:Hd.
  - rewrite scan_dict_eq, scan_visits_eq, Hd.
    rewrite print_element_tree_eq.
    destruct (0 >? max_print_depth * 2);
      cbn; rewrite printed_nil; reflexivity.
  - apply gtb_false_le in Hd.
    exact (print_scanned_tree max_depth max_print_depth root 0 "" w Hd).
Qed.

Lemma count_types_eq (d : dict) :
  UIInspector.count_types (VDict d)
  = (ctrl_type <- prop (UIInspector.count_key d) ;;
     modify (fun type_counts => UIInspector.count_up type_counts ctrl_type) ;;;
     match lookup d "children" with
     | None => ret tt
     | Some (VList xs) => UIInspector.for_each xs UIInspector.count_types
     | Some v => xs <- prop (UIInspector.iterate_children v) ;; ret tt
     end).
Proof.
  cbn [UIInspector.count_types].
  f_equal.
  assert (H :
    (fix children (kvs : dict) : M (list (value * Z)) unit :=
       match kvs with
       | [] => ret tt
       | (k, v) :: kvs' =>
           if (k =? "children")%string
           then
             match v with
             | VList xs =>
                 (fix loop (xs0 : list value) : M (list (value * Z)) unit :=
                    match xs0 with
                    | [] => ret tt
                    | child :: xs' =>
                        UIInspector.count_types child ;;; loop xs'
                    end) xs
             | _ => xs <- prop (UIInspector.iterate_children v) ;; ret tt
             end
           else children kvs'
       end) d
    = match lookup d "children" with
      | None => ret tt
      | Some (VList xs) => UIInspector.for_each xs UIInspector.count_types
      | Some v => xs <- prop (UIInspector.iterate_children v) ;; ret tt
      end).
  { induction d as [|[k v] d IH]; [reflexivity|].
    cbn [lookup]. destruct (k =? "children")%string; [|exact IH].
    destruct v; try reflexivity.
    induction xs as [|x xs IHxs]; [reflexivity|].
    cbn [UIInspector.for_each]. rewrite <- IHxs. reflexivity. }
  rewrite H. reflexivity.
Qed.

Lemma counted_app l1 l2 tc : counted (l1 ++ l2) tc = counted l2 (counted l1 tc).
Proof. unfold counted. rewrite map_app, fold_left_app. reflexivity. Qed.

Lemma count_scanned_tree (max_depth : Z) (e : Element) :
  forall (depth : Z) (parent_path : string) (type_counts : list (value * Z)),
    depth <= max_depth ->
    UIInspector.count_types
      (VDict (scan_dict max_depth e depth parent_path)) type_counts
    = (Ok tt,
       counted (scan_visits max_depth e depth parent_path) type_counts).
Proof.
  induction e as [e IH] using Element_nested_ind.
  intros depth parent_path tc Hd.
  rewrite count_types_eq, scan_visits_eq, scan_dict_eq.
  replace (depth >? max_depth) with false
    by (symmetry; apply gtb_false_le; exact Hd).
  assert (Hcons : forall v l tc0,
    counted (v :: l) tc0
    = counted l (UIInspector.count_up tc0 (VStr (summary_type (fst (fst v))))))
    by reflexivity.
  rewrite Hcons. cbn [fst snd].
  unfold summary_type, control_type_of.
  destruct (metadata e) as [[[[n ct] aid] cn]|msg].
  2:{ reflexivity. }
  cbv zeta.
  set (path := current_path parent_path (path_segment n ct aid)).
  unfold UIInspector.count_key.
  cbn [get_default lookup String.eqb Ascii.eqb Bool.eqb].
  unfold bind at 1. unfold prop at 1. unfold bind at 1. unfold modify at 1.
  assert (Hkids : forall tc0,
    UIInspector.for_each
      (filter truthy
         (map (fun c => VDict (scan_dict max_depth c (depth + 1) path))
            (children_items e)))
      UIInspector.count_types tc0
    = (Ok tt,
       counted
         (flat_map (fun c => scan_visits max_depth c (depth + 1) path)
            (children_items e)) tc0)).
  { intros tc0. destruct (Z.eq_dec depth max_depth) as [->|Hne].
    - rewrite scan_children_at_bound, scan_visits_beyond by lia.
      reflexivity.
    - rewrite scan_children_below by lia.
      assert (Hd1 : depth + 1 <= max_depth) by lia.
      clear Hd Hne. revert tc0.
      induction IH as [|c cs Hc _ IHcs]; intros tc0.
      + reflexivity.
      + cbn [map UIInspector.for_each flat_map].
        unfold bind at 1. rewrite (Hc _ _ _ Hd1), IHcs.
        rewrite counted_app. reflexivity. }
  rewrite Hkids. reflexivity.
Qed.

Lemma distinct_in (l : list string) (x : string) :
  In x (distinct l) <-> In x l.
Proof.
  induction l as [|a l IH]; [reflexivity|].
  cbn [distinct In]. rewrite filter_In, IH.
  destruct (string_dec a x) as [->|Hne].
  - tauto.
  - split; [tauto|]. intros [H|H]; [tauto|]. right. split; [exact H|].
    apply negb_true_iff, String.eqb_neq. congruence.
Qed.

Lemma distinct_NoDup (l : list string) : NoDup (distinct l).
Proof.
  induction l as [|a l IH]; [constructor|].
  cbn [distinct]. constructor.
  - rewrite filter_In. intros [_ H].
    rewrite String.eqb_refl in H. discriminate.
  - apply NoDup_filter. exact IH.
Qed.

Lemma distinct_snoc (l : list string) (x : string) :
  distinct (l ++ [x])
  = (distinct l ++ (if in_dec string_dec x l then [] else [x]))%list.
Proof.
  induction l as [|a l IH]; [reflexivity|].
  cbn [app distinct]. rewrite IH, filter_app.
  destruct (in_dec string_dec x l) as [Hin|Hout];
    destruct (in_dec string_dec x (a :: l)) as [Hin'|Hout'];
    cbn [filter]; try reflexivity.
  - exfalso. apply Hout'. right. exact Hin.
  - destruct Hin' as [->|Hin']; [|contradiction].
    rewrite String.eqb_refl. reflexivity.
  - destruct (String.eqb_spec x a) as [->|Hne]; [|reflexivity].
    exfalso. apply Hout'. left. reflexivity.
Qed.

Lemma occurrences_snoc (l : list string) (x t : string) :
  occurrences (l ++ [x]) t
  = occurrences l t + (if (t =? x)%string then 1 else 0).
Proof.
  unfold occurrences. rewrite count_occ_app. cbn [count_occ].
  destruct (string_dec x t) as [->|Hne].
  - rewrite String.eqb_refl. lia.
  - replace (t =? x)%string with false
      by (symmetry; apply String.eqb_neq; congruence).
    lia.
Qed.

Lemma occurrences_positive (l : list string) (t : string) :
  In t l -> 0 < occurrences l t.
Proof.
  intros H. unfold occurrences.
  apply (count_occ_In string_dec) in H. lia.
Qed.

Lemma count_up_keys (f : string -> Z) (x : string) (ks : list string) :
  NoDup ks ->
  UIInspector.count_up (map (fun k => (VStr k, f k)) ks) (VStr x)
  = (map (fun k => (VStr k, if (k =? x)%string then f k + 1 else f k)) ks
     ++ (if in_dec string_dec x ks then [] else [(VStr x, 1)]))%list.
Proof.
  intros Hnd. induction Hnd as [|k ks Hk Hnd IH]; [reflexivity|].
  cbn [map UIInspector.count_up UIInspector.key_eqb app].
  destruct (String.eqb_spec k x) as [->|Hne].
  - destruct (in_dec string_dec x (x :: ks)) as [_|Hout];
      [|exfalso; apply Hout; left; reflexivity].
    rewrite app_nil_r. f_equal.
    apply map_ext_in. intros k Hin.
    replace (k =? x)%string with false; [reflexivity|].
    symmetry. apply String.eqb_neq. intros ->. contradiction.
  - rewrite IH. f_equal.
    destruct (in_dec string_dec x ks) as [Hin|Hout];
      destruct (in_dec string_dec x (k :: ks)) as [Hin'|Hout'];
      try reflexivity.
    + exfalso. apply Hout'. right. exact Hin.
    + destruct Hin' as [Heq|Hin']; [congruence|contradiction].
Qed.

Lemma count_up_type_counts (l : list string) (x : string) :
  UIInspector.count_up (as_keys (type_counts_of l)) (VStr x)
  = as_keys (type_counts_of (l ++ [x])).
Proof.
  unfold as_keys, type_counts_of. rewrite !map_map. cbn [fst snd].
  rewrite (count_up_keys (occurrences l) x (distinct l) (distinct_NoDup l)).
  rewrite distinct_snoc, map_app. f_equal.
  - apply map_ext. intros k. rewrite occurrences_snoc.
    destruct (k =? x)%string; f_equal; lia.
  - destruct (in_dec string_dec x (distinct l)) as [Hin|Hout];
      destruct (in_dec string_dec x l) as [Hin'|Hout']; try reflexivity.
    + apply (proj1 (distinct_in l x)) in Hin. contradiction.
    + apply (proj2 (distinct_in l x)) in Hin'. contradiction.
    + cbn [map]. rewrite occurrences_snoc, String.eqb_refl.
      unfold occurrences.
      rewrite (proj1 (count_occ_not_In string_dec l x) Hout').
      reflexivity.
Qed.

Lemma count_up_fold (l l0 : list string) :
  fold_left UIInspector.count_up (map VStr l) (as_keys (type_counts_of l0))
  = as_keys (type_counts_of (l0 ++ l)).
Proof.
  revert l0. induction l as [|x l IH]; intros l0.
  - rewrite app_nil_r. reflexivity.
  - cbn [map fold_left]. rewrite count_up_type_counts, IH, <- app_assoc.
    reflexivity.
Qed.

Lemma counted_type_counts (visits : list (Element * Z * string)) :
  counted visits []
  = as_keys
      (type_counts_of (map (fun v => summary_type (fst (fst v))) visits)).
Proof.
  unfold counted.
  rewrite <- (map_map (fun v => summary_type (fst (fst v))) VStr).
  exact (count_up_fold _ []).
Qed.

(** *** The order of the counts *)

Lemma insert_by_count_perm (x : value * Z) (s : list (value * Z)) :
  Permutation (x :: s) (UIInspector.insert_by_count x s).
Proof.
  induction s as [|y s IH]; [reflexivity|].
  cbn [UIInspector.insert_by_count].
  destruct (snd y >=? snd x); [|reflexivity].
  rewrite perm_swap. apply perm_skip. exact IH.
Qed.

Lemma insert_by_count_sorted (x : value * Z) (s : list (value * Z)) :
  StronglySorted by_count s ->
  StronglySorted by_count (UIInspector.insert_by_count x s).
Proof.
  intros Hs. induction Hs as [|y s Hs IH Hy].
  - repeat constructor.
  - cbn [UIInspector.insert_by_count].
    destruct (snd y >=? snd x) eqn:Hge.
    + constructor; [exact IH|].
      rewrite Forall_forall in *. intros z Hz.
      apply (Permutation_in _ (Permutation_sym (insert_by_count_perm x s)))
        in Hz.
      destruct Hz as [<-|Hz]; [|apply Hy; exact Hz].
      unfold by_count. apply Z.geb_le in Hge. lia.
    + assert (Hlt : snd y < snd x).
      { destruct (Z.geb_spec (snd y) (snd x)); [discriminate|lia]. }
      constructor; [constructor; assumption|].
      constructor; [unfold by_count; lia|].
      rewrite Forall_forall in *. intros z Hz. specialize (Hy z Hz).
      unfold by_count in *. lia.
Qed.

Lemma filter_none {A : Type} (p : A -> bool) (l : list A) :
  (forall x, In x l -> p x = false) -> filter p l = [].
Proof.
  intros H. induction l as [|a l IH]; [reflexivity|].
  cbn [filter]. rewrite (H a (or_introl eq_refl)).
  apply IH. intros x Hx. apply H. right. exact Hx.
Qed.

Lemma insert_by_count_stable (n : Z) (x : value * Z) (s : list (value * Z)) :
  StronglySorted by_count s ->
  filter (fun it => snd it =? n) (UIInspector.insert_by_count x s)
  = (filter (fun it => snd it =? n) s
     ++ (if snd x =? n then [x] else []))%list.
Proof.
  intros Hs. induction Hs as [|y s Hs IH Hy]; [reflexivity|].
  cbn [UIInspector.insert_by_count].
  destruct (snd y >=? snd x) eqn:Hge.
  - cbn [filter]. rewrite IH. destruct (snd y =? n); reflexivity.
  - assert (Hlt : snd y < snd x).
    { destruct (Z.geb_spec (snd y) (snd x)); [discriminate|lia]. }
    cbn [filter].
    destruct (Z.eqb_spec (snd x) n) as [Hx|Hx].
    + replace (snd y =? n) with false by (symmetry; apply Z.eqb_neq; lia).
      assert (Hnone : filter (fun it : value * Z => snd it =? n) s = []).
      { apply filter_none. rewrite Forall_forall in Hy. intros z Hz.
        apply Z.eqb_neq. specialize (Hy z Hz). unfold by_count in Hy. lia. }
      rewrite Hnone. reflexivity.
    + rewrite app_nil_r. reflexivity.
Qed.

Lemma sorted_by_count_acc (items : list (value * Z)) :
  forall acc,
    StronglySorted by_count acc ->
    Permutation (acc ++ items)
      (fold_left (fun sorted x => UIInspector.insert_by_count x sorted)
         items acc)
    /\ StronglySorted by_count
         (fold_left (fun sorted x => UIInspector.insert_by_count x sorted)
            items acc)
    /\ forall n,
         filter (fun it => snd it =? n)
           (fold_left (fun sorted x => UIInspector.insert_by_count x sorted)
              items acc)
         = (filter (fun it => snd it =? n) acc
            ++ filter (fun it => snd it =? n) items)%list.
Proof.
  induction items as [|x items IH]; intros acc Hacc.
  - cbn [fold_left filter]. rewrite !app_nil_r.
    split; [reflexivity|]. split; [exact Hacc|].
    intros n. rewrite app_nil_r. reflexivity.
  - cbn [fold_left].
    destruct (IH _ (insert_by_count_sorted x acc Hacc)) as (Hp & Hs & Hf).
    split; [|split; [exact Hs|]].
    + rewrite <- Hp, <- insert_by_count_perm.
      rewrite <- Permutation_middle. reflexivity.
    + intros n. rewrite Hf, insert_by_count_stable by exact Hacc.
      rewrite <- app_assoc. cbn [filter].
      destruct (snd x =? n); reflexivity.
Qed.

Lemma filter_map_swap {A B : Type} (g : A -> B) (p : B -> bool) (l : list A) :
  filter p (map g l) = map g (filter (fun a => p (g a)) l).
Proof.
  induction l as [|a l IH]; [reflexivity|].
  cbn [map filter]. rewrite IH. destruct (p (g a)); reflexivity.
Qed.

Lemma as_keys_inj (a b : list (string * Z)) :
  as_keys a = as_keys b -> a = b.
Proof.
  revert b. induction a as [|[k n] a IH]; intros [|[k' n'] b] H;
    try discriminate; [reflexivity|].
  cbn in H. injection H as -> -> H. f_equal. apply IH. exact H.
Qed.

Lemma sorted_by_count_order (type_counts : list (string * Z)) :
  exists order,
    UIInspector.sorted_by_count (as_keys type_counts) = as_keys order
    /\ Permutation order type_counts
    /\ StronglySorted (fun a b => snd b <= snd a) order
    /\ forall n,
         filter (fun item => snd item =? n) order
         = filter (fun item => snd item =? n) type_counts.
Proof.
  destruct (sorted_by_count_acc (as_keys type_counts) []
              (SSorted_nil by_count)) as (Hp & Hs & Hf).
  fold (UIInspector.sorted_by_count (as_keys type_counts)) in Hp, Hs, Hf.
  cbn [app] in Hp.
  destruct (Permutation_map_inv _ _ (Permutation_sym Hp))
    as (order & Heq & Hperm).
  fold (as_keys order) in Heq.
  exists order. split; [exact Heq|]. split; [symmetry; exact Hperm|].
  split.
  - rewrite Heq in Hs. clear - Hs.
    induction order as [|a order IH]; [constructor|].
    cbn in Hs. inversion Hs as [|? ? Hs' Hall]; subst.
    constructor; [apply IH; exact Hs'|].
    rewrite Forall_forall in *. intros b Hb.
    exact (Hall _ (in_map _ _ _ Hb)).
  - intros n. apply as_keys_inj. specialize (Hf n).
    rewrite Heq in Hf. cbn [filter app] in Hf.
    unfold as_keys in *. rewrite !filter_map_swap in Hf. exact Hf.
Qed.

Lemma find_elements_scan (max_depth : Z) (root : Element)
    (control_type : string) :
  UIInspector.find_elements_by_type
    (VDict (scanned max_depth root 0 "")) control_type []
  = map (fun v => found_entry (fst (fst v)) (snd v))
      (filter (of_type control_type) (scan_visits max_depth root 0 "")).
Proof.
  rewrite find_elements_preorder, scanned_eq. cbn [app].
  destruct (0 >? max_depth) eqn:Hd.
  - rewrite scan_dict_eq, scan_visits_eq, Hd. reflexivity.
  - apply gtb_false_le in Hd.
    rewrite scan_nodes_visits by exact Hd.
    pose proof (scan_visits_depth max_depth root 0 "") as Hdepth.
    induction (scan_visits max_depth root 0 "") as [|[[e d] pp] l IHl];
      [reflexivity|].
    cbn [map filter fst snd].
    assert (Hde : d <= max_depth).
    { specialize (Hdepth (e, d, pp) (or_introl eq_refl)). cbn in Hdepth. lia. }
    specialize (IHl (fun v Hv => Hdepth v (or_intror Hv))).
    unfold matches at 1. unfold of_type at 1. cbn [fst snd].
    unfold control_type_of at 1.
    rewrite (scan_dict_eq max_depth e d pp).
    replace (d >? max_depth) with false
      by (symmetry; apply gtb_false_le; exact Hde).
    destruct (metadata e) as [[[[n ct] aid] cn]|msg] eqn:Hm.
    + cbv zeta. cbn [get lookup String.eqb Ascii.eqb Bool.eqb eq_str].
      destruct (ct =? control_type)%string; cbn [map fst snd].
      * rewrite IHl. f_equal. unfold found_entry. rewrite Hm. reflexivity.
      * exact IHl.
    + cbn [get lookup String.eqb Ascii.eqb Bool.eqb eq_str error_marker].
      exact IHl.
Qed.

Lemma for_each_print {A : Type} (f : A -> string) (l : list A) (w : World) :
  UIInspector.for_each l (fun x => print (f x)) w
  = (Ok tt, printed w (map f l)).
Proof.
  revert w. induction l as [|x l IH]; intros w.
  - cbn. rewrite printed_nil. reflexivity.
  - cbn [UIInspector.for_each map]. unfold bind.
    rewrite print_run, IH, printed_printed. reflexivity.
Qed.

Lemma type_counts_positive (types : list string) (item : string * Z) :
  In item (type_counts_of types) -> 0 < snd item.
Proof.
  unfold type_counts_of. intros H. apply in_map_iff in H.
  destruct H as (t & <- & Ht). cbn [snd].
  apply occurrences_positive, distinct_in. exact Ht.
Qed.

Lemma firstn_In {A : Type} (n : nat) (l : list A) (x : A) :
  In x (firstn n l) -> In x l.
Proof.
  revert l. induction n as [|n IH]; intros [|a l] H; try contradiction.
  destruct H as [<-|H]; [left; reflexivity|right; apply IH; exact H].
Qed.

Lemma key_elements_run (visits : list (Element * Z * string))
    (control_type : string) (w : World) :
  (let elements :=
     map (fun v => found_entry (fst (fst v)) (snd v))
       (filter (of_type control_type) visits) in
   match elements with
   | [] => ret tt
   | _ =>
       print (nl ++ "[" ++ control_type ++ "] (" ++ str_of_Z (len elements)
              ++ " found)") ;;;
       UIInspector.for_each (firstn 10 elements)
         (fun elem =>
            let d := match elem with VDict d => d | _ => [] end in
            let name := value_or (get d "name") (VStr "(no name)") in
            let auto_id :=
              value_or (get d "automation_id") (VStr "(no id)") in
            print ("  - Name: '" ++ text_of name ++ "' | ID: "
                   ++ text_of auto_id))
   end) w
  = (Ok tt, printed w (key_element_lines visits control_type)).
Proof.
  set (fe := fun v : Element * Z * string => found_entry (fst (fst v)) (snd v)).
  set (g := fun elem : value =>
    let d := match elem with VDict d => d | _ => [] end in
    let name := value_or (get d "name") (VStr "(no name)") in
    let auto_id := value_or (get d "automation_id") (VStr "(no id)") in
    "  - Name: '" ++ text_of name ++ "' | ID: " ++ text_of auto_id).
  unfold key_element_lines. cbv zeta.
  set (found := filter (of_type control_type) visits).
  assert (Hlines : map g (firstn 10 (map fe found))
                   = map (fun v => key_element_line (fst (fst v)))
                       (firstn 10 found)).
  { rewrite firstn_map, map_map. apply map_ext_in. intros x Hx.
    apply firstn_In in Hx. apply filter_In in Hx. destruct Hx as [_ Hx].
    unfold of_type, control_type_of in Hx.
    unfold g, fe, found_entry, key_element_line.
    destruct (metadata (fst (fst x))) as [[[[n ct] aid] cn]|msg];
      [|discriminate].
    cbv zeta.
    cbn [get lookup String.eqb Ascii.eqb Bool.eqb].
    unfold value_or. cbn [truthy].
    destruct (n =? "")%string, (aid =? "")%string; reflexivity. }
  assert (Hlen : len (map fe found) = len found)
    by (unfold len; rewrite length_map; reflexivity).
  destruct found as [|v found'].
  - cbn. rewrite printed_nil. reflexivity.
  - cbn [map].
    change (fe v :: map fe found') with (map fe (v :: found')).
    unfold bind. rewrite print_run, (for_each_print g), printed_printed.
    rewrite Hlen, Hlines. reflexivity.
Qed.

Lemma bind_ok {S A B : Type} (m : M S A) (k : A -> M S B) (s s' : S) (a : A) :
  m s = (Ok a, s') -> bind m k s = k a s'.
Proof. intros H. unfold bind. rewrite H. reflexivity. Qed.

Lemma count_scanned (max_depth : Z) (root : Element) :
  0 <= max_depth ->
  UIInspector.count_types (VDict (scanned max_depth root 0 "")) []
  = (Ok tt, as_keys (summary_counts max_depth root)).
Proof.
  intros Hd. rewrite scanned_eq, count_scanned_tree by exact Hd.
  rewrite counted_type_counts. reflexivity.
Qed.

Lemma count_lines_run (order : list (string * Z)) :
  (forall item, In item order -> 0 < snd item) ->
  forall w,
    UIInspector.for_each (as_keys order)
      (fun item =>
         if snd item >? 0
         then print ("  " ++ text_of (fst item) ++ ": " ++ str_of_Z (snd item))
         else ret tt) w
    = (Ok tt, printed w (map count_line order)).
Proof.
  intros Hpos. induction order as [|[t n] order IH]; intros w.
  - cbn. rewrite printed_nil. reflexivity.
  - cbn [as_keys map UIInspector.for_each fst snd].
    replace (n >? 0) with true
      by (symmetry; apply Z.gtb_lt;
          exact (Hpos (t, n) (or_introl eq_refl))).
    rewrite (bind_ok _ _ _ _ _ (print_run _ w)).
    fold (as_keys order).
    rewrite IH by (intros item Hi; apply Hpos; right; exact Hi).
    rewrite printed_printed. reflexivity.
Qed.

Lemma key_types_run (max_depth : Z) (root : Element) (types : list string) :
  forall w,
    UIInspector.for_each types
      (fun ctrl_type =>
         let elements :=
           UIInspector.find_elements_by_type
             (VDict (scanned max_depth root 0 "")) ctrl_type [] in
         match elements with
         | [] => ret tt
         | _ =>
             print (nl ++ "[" ++ ctrl_type ++ "] (" ++ str_of_Z (len elements)
                    ++ " found)") ;;;
             UIInspector.for_each (firstn 10 elements)
               (fun elem =>
                  let d := match elem with VDict d => d | _ => [] end in
                  let name := value_or (get d "name") (VStr "(no name)") in
                  let auto_id :=
                    value_or (get d "automation_id") (VStr "(no id)") in
                  print ("  - Name: '" ++ text_of name ++ "' | ID: "
                         ++ text_of auto_id))
         end) w
    = (Ok tt,
       printed w
         (flat_map (key_element_lines (scan_visits max_depth root 0 ""))
            types)).
Proof.
  induction types as [|t types IH]; intros w.
  - cbn. rewrite printed_nil. reflexivity.
  - cbn [UIInspector.for_each flat_map].
    rewrite find_elements_scan.
    erewrite bind_ok by apply key_elements_run.
    rewrite IH, printed_printed. reflexivity.
Qed.

(** X17.  On the tree returned by a scan with a bound that is not negative,
    [print_summary] returns normally and prints, between its headings, one
    line for each control type that occurs among the visited elements, with
    the number of visited elements of that type (the elements whose metadata
    read raised are counted under [Unknown]); the lines are in the order of
    decreasing count, types with the same count in the order of their first
    visit.  Then, for each of Button, Edit, MenuItem, TabItem and ComboBox
    that some visited element has, it prints a heading with the number of
    these elements and a line for each of the first ten, with [(no name)]
    and [(no id)] for an empty name or automation id. *)
Theorem print_summary_of_scan (max_depth : Z) (root : Element) (w : World) :
  0 <= max_depth ->
  exists order : list (string * Z),
    Permutation order (summary_counts max_depth root)
    /\ StronglySorted (fun a b => snd b <= snd a) order
    /\ (forall n,
          filter (fun item => snd item =? n) order
          = filter (fun item => snd item =? n)
              (summary_counts max_depth root))
    /\ UIInspector.print_summary (VDict (scanned max_depth root 0 "")) w
       = (Ok tt,
          printed w
            ([nl ++ str_repeat "-" 70; "ELEMENT SUMMARY"; str_repeat "-" 70]
             ++ map count_line order
             ++ [nl ++ str_repeat "-" 70; "KEY ELEMENTS"; str_repeat "-" 70]
             ++ flat_map
                  (key_element_lines (scan_visits max_depth root 0 ""))
                  UIInspector.key_types)).
Proof.
  intros Hd.
  destruct (sorted_by_count_order (summary_counts max_depth root))
    as (order & Heq & Hp & Hs & Hf).
  exists order. split; [exact Hp|]. split; [exact Hs|]. split; [exact Hf|].
  unfold UIInspector.print_summary.
  rewrite (bind_ok _ _ _ _ _ (print_run _ _)).
  rewrite (bind_ok _ _ _ _ _ (print_run _ _)).
  rewrite (bind_ok _ _ _ _ _ (print_run _ _)).
  unfold bind at 1. rewrite count_scanned by exact Hd.
  rewrite Heq.
  rewrite (bind_ok _ _ _ _ _ (count_lines_run order
    (fun item Hi =>
       type_counts_positive _ item (Permutation_in _ Hp Hi)) _)).
  rewrite (bind_ok _ _ _ _ _ (print_run _ _)).
  rewrite (bind_ok _ _ _ _ _ (print_run _ _)).
  rewrite (bind_ok _ _ _ _ _ (print_run _ _)).
  rewrite key_types_run, !printed_printed.
  repeat (rewrite <- ?app_assoc; cbn [app]). reflexivity.
Qed.

Lemma print_summary_of_scan_witness :
  0 <= 4
  /\ exists order : list (string * Z),
       Permutation order (summary_counts 4 Fixtures.mock_window)
       /\ StronglySorted (fun a b => snd b <= snd a) order
       /\ (forall n,
             filter (fun item => snd item =? n) order
             = filter (fun item => snd item =? n)
                 (summary_counts 4 Fixtures.mock_window))
       /\ UIInspector.print_summary
            (VDict (scanned 4 Fixtures.mock_window 0 ""))
            {| dirs := []; files := []; stdout := [] |}
          = (Ok tt,
             printed {| dirs := []; files := []; stdout := [] |}
               ([nl ++ str_repeat "-" 70; "ELEMENT SUMMARY";
                 str_repeat "-" 70]
                ++ map count_line order
                ++ [nl ++ str_repeat "-" 70; "KEY ELEMENTS";
                    str_repeat "-" 70]
                ++ flat_map
                     (key_element_lines
                        (scan_visits 4 Fixtures.mock_window 0 ""))
                     UIInspector.key_types)).
Proof.
  split; [lia|].
  apply (print_summary_of_scan 4 Fixtures.mock_window). lia.
Defined.

(* ================================================================== *)
(** ** [connect] *)
(* ================================================================== *)

Lemma session_with_start (st : UIInspector.Session) :
  st = session_with st (UIInspector.self_window st) [] [].
Proof.
  destruct st as [sw md el cs w]. unfold session_with. cbn.
  rewrite app_nil_r, printed_nil. reflexivity.
Qed.

Lemma in_world_print (st : UIInspector.Session) (window : option Element)
    (new_calls : list Call) (lines : list string) (line : string) :
  UIInspector.in_world (print line) (session_with st window new_calls lines)
  = (Ok tt, session_with st window new_calls (lines ++ [line])).
Proof.
  unfold UIInspector.in_world. rewrite print_run.
  unfold session_with. cbn [UIInspector.self_window UIInspector.self_max_depth
    UIInspector.self_elements UIInspector.calls UIInspector.world].
  rewrite printed_printed. reflexivity.
Qed.

Lemma session_call {A : Type} (st : UIInspector.Session)
    (window : option Element) (new_calls : list Call) (lines : list string)
    (op : Op) (e : Element) (r : Result A) :
  call op e r (session_with st window new_calls lines)
  = (r, session_with st window (new_calls ++ [ElementCall op e]) lines).
Proof.
  unfold call, session_with. cbn. rewrite <- app_assoc. reflexivity.
Qed.


Lemma connect_banner_run (st : UIInspector.Session) {A : Type}
    (k : M UIInspector.Session A) :
  (UIInspector.in_world (print (nl ++ str_repeat "=" 70)) ;;;
   UIInspector.in_world (print "Windows GUI Inspector") ;;;
   UIInspector.in_world (print (str_repeat "=" 70)) ;;;
   k) st
  = k (session_with st (UIInspector.self_window st) [] connect_banner).
Proof.
  rewrite (session_with_start st) at 1.
  rewrite (bind_ok _ _ _ _ _ (in_world_print _ _ _ _ _)).
  rewrite (bind_ok _ _ _ _ _ (in_world_print _ _ _ _ _)).
  rewrite (bind_ok _ _ _ _ _ (in_world_print _ _ _ _ _)).
  reflexivity.
Qed.


Ltac session_step :=
  erewrite bind_ok
    by first [apply in_world_print | apply session_call | reflexivity].

Lemma connect_run (self_window_title : option string) (desktop : Desktop)
    (desktop_window : string -> Result Element)
    (window_pattern : option string) (pattern : string)
    (st : UIInspector.Session) :
  UIInspector.pattern_or window_pattern self_window_title = Some pattern ->
  pattern <> "" ->
  UIInspector.connect self_window_title desktop desktop_window
    window_pattern st
  = let error msg :=
      nl ++ "[ERROR] Window not found matching: " ++ pattern
      ++ " (" ++ msg ++ ")" in
    match desktop_window pattern with
    | Raise msg =>
        (Ok false,
         session_with st (UIInspector.self_window st) []
           (connect_banner ++ [error msg]))
    | Ok win =>
        match window_text win with
        | Raise msg =>
            (Ok false,
             session_with st (Some win) [ElementCall OpWindowText win]
               (connect_banner ++ [error msg]))
        | Ok title =>
            match handle win with
            | Raise msg =>
                (Ok false,
                 session_with st (Some win)
                   [ElementCall OpWindowText win; ElementCall OpHandle win]
                   (connect_banner
                    ++ [nl ++ "[OK] Found window: " ++ title; error msg]))
            | Ok h =>
                (Ok true,
                 session_with st (Some win)
                   [ElementCall OpWindowText win; ElementCall OpHandle win]
                   (connect_banner
                    ++ [nl ++ "[OK] Found window: " ++ title;
                        "     Handle: " ++ str_of_Z h]))
            end
        end
    end.
Proof.
  intros Hp Hne. unfold UIInspector.connect.
  rewrite connect_banner_run, Hp.
  unfold UIInspector.pattern_or at 1.
  replace (pattern =? "")%string with false
    by (symmetry; apply String.eqb_neq; exact Hne).
  cbv zeta. unfold try_except.
  unfold bind at 1. unfold prop at 1.
  destruct (desktop_window pattern) as [win|msg].
  2:{ session_step. reflexivity. }
  unfold bind at 1. unfold modify at 1.
  change {| UIInspector.self_window := Some win;
            UIInspector.self_max_depth := _;
            UIInspector.self_elements := _;
            UIInspector.calls := _;
            UIInspector.world := _ |}
    with (session_with st (Some win) [] connect_banner).
  unfold bind at 1. rewrite session_call. cbn [app].
  destruct (window_text win) as [title|msg].
  2:{ session_step. reflexivity. }
  session_step.
  unfold bind at 1. rewrite session_call. cbn [app].
  destruct (handle win) as [h|msg].
  2:{ session_step. rewrite <- app_assoc. reflexivity. }
  session_step. rewrite <- app_assoc. reflexivity.
Qed.










(* ================================================================== *)
(** ** [WindowMapper.run] *)
(* ================================================================== *)

Lemma records_listable (visited : list (Element * Z)) :
  Forall listable (records_of visited).
Proof.
  induction visited as [|[e d] l IH]; [constructor|].
  rewrite records_of_cons. cbn [fst snd].
  destruct (passes_filter e) eqn:Hpass; [|exact IH].
  constructor; [|exact IH].
  unfold passes_filter in Hpass. unfold listable, flat_record.
  destruct (metadata e) as [[[[n ct] aid] cn]|msg]; [|discriminate].
  eexists _, ct, aid, n. split; [reflexivity|].
  repeat split; reflexivity.
Qed.

Lemma group_add_ok (by_type : list (value * list value)) (t : string)
    (elem : value) :
  groups_ok by_type -> listable elem ->
  groups_ok (WindowMapper.group_add by_type (VStr t) elem).
Proof.
  intros Hok Helem. induction Hok as [|[k items] rest [Hk Hitems] Hrest IH].
  - repeat constructor; [exists t; reflexivity|exact Helem].
  - cbn [WindowMapper.group_add].
    destruct (UIInspector.key_eqb k (VStr t)).
    + constructor; [|exact Hrest]. split; [exact Hk|].
      cbn [snd] in *. apply Forall_app. split; [exact Hitems|].
      constructor; [exact Helem|constructor].
    + constructor; [split; assumption|exact IH].
Qed.

Lemma group_by_type_run (elements : list value) :
  Forall listable elements ->
  forall by_type,
    groups_ok by_type ->
    exists by_type',
      UIInspector.for_each elements
        (fun elem =>
           t <- prop (WindowMapper.subscript elem "type") ;;
           prop (WindowMapper.hashable t) ;;;
           modify (fun by_type => WindowMapper.group_add by_type t elem))
        by_type
      = (Ok tt, by_type')
      /\ groups_ok by_type'.
Proof.
  intros Hall. induction Hall as [|elem elements Helem _ IH]; intros by_type Hok.
  - exists by_type. split; [reflexivity|exact Hok].
  - cbn [UIInspector.for_each].
    destruct Helem as (d & t & id & n & -> & Ht & Hid & Hn).
    destruct (IH (WindowMapper.group_add by_type (VStr t) (VDict d)))
      as (by_type' & Hrun & Hok').
    { apply group_add_ok; [exact Hok|].
      exists d, t, id, n. repeat split; assumption. }
    exists by_type'. split; [|exact Hok'].
    unfold bind at 1. unfold bind at 1. unfold prop at 1.
    unfold WindowMapper.subscript. rewrite Ht.
    unfold bind at 1. unfold prop at 1. cbn [WindowMapper.hashable].
    unfold modify at 1. exact Hrun.
Qed.

Lemma group_by_type_ok (elements : list value) :
  Forall listable elements ->
  exists by_type,
    WindowMapper.group_by_type elements = Ok by_type /\ groups_ok by_type.
Proof.
  intros Hall.
  destruct (group_by_type_run elements Hall [] (Forall_nil _))
    as (by_type & Hrun & Hok).
  exists by_type. split; [|exact Hok].
  unfold WindowMapper.group_by_type. rewrite Hrun. reflexivity.
Qed.

Lemma insert_sorted_in {A : Type} (leb : A -> A -> bool) (x y : A)
    (sorted : list A) :
  In y (WindowMapper.insert_sorted leb x sorted) -> y = x \/ In y sorted.
Proof.
  induction sorted as [|z sorted IH]; cbn [WindowMapper.insert_sorted].
  - intros [<-|[]]. left. reflexivity.
  - destruct (leb z x).
    + intros [<-|H]; [right; left; reflexivity|].
      destruct (IH H) as [->|H']; [left; reflexivity|right; right; exact H'].
    + intros [<-|H]; [left; reflexivity|right; exact H].
Qed.

Lemma sort_by_in {A : Type} (leb : A -> A -> bool) (l : list A) (y : A) :
  In y (WindowMapper.sort_by leb l) -> In y l.
Proof.
  unfold WindowMapper.sort_by.
  assert (H : forall acc,
    In y (fold_left (fun sorted x => WindowMapper.insert_sorted leb x sorted)
            l acc) -> In y acc \/ In y l).
  { induction l as [|x l IH]; intros acc Hy; [left; exact Hy|].
    cbn [fold_left] in Hy. destruct (IH _ Hy) as [H|H].
    - apply insert_sorted_in in H. destruct H as [->|H].
      + right. left. reflexivity.
      + left. exact H.
    - right. right. exact H. }
  intros Hy. destruct (H [] Hy) as [[]|Hin]. exact Hin.
Qed.

Lemma texts_of_keys (by_type : list (value * list value)) :
  groups_ok by_type ->
  exists ss,
    WindowMapper.texts_of (map fst by_type) = Some ss
    /\ map VStr ss = map fst by_type.
Proof.
  intros Hok. induction Hok as [|[k items] rest [[t Hk] _] _ IH].
  - exists []. split; reflexivity.
  - destruct IH as (ss & Hss & Heq). cbn [fst] in Hk. subst k.
    exists (t :: ss). cbn [map fst WindowMapper.texts_of].
    rewrite Hss, Heq. split; reflexivity.
Qed.

Lemma items_of_ok (by_type : list (value * list value)) (k : value) :
  groups_ok by_type -> Forall listable (WindowMapper.items_of by_type k).
Proof.
  intros Hok. induction Hok as [|[k' items] rest [_ Hitems] _ IH];
    [constructor|].
  cbn [WindowMapper.items_of].
  destruct (UIInspector.key_eqb k' k); [exact Hitems|exact IH].
Qed.

Lemma sorted_keys_ok (by_type : list (value * list value)) :
  groups_ok by_type ->
  exists keys, WindowMapper.sorted_keys (map fst by_type) = Ok keys.
Proof.
  intros Hok. destruct (texts_of_keys by_type Hok) as (ss & Hss & _).
  unfold WindowMapper.sorted_keys. rewrite Hss. eexists. reflexivity.
Qed.

Lemma list_items_run (items : list value) :
  Forall listable items ->
  forall seen w,
    exists lines,
      WindowMapper.list_items items seen w = (Ok tt, printed w lines).
Proof.
  intros Hall. induction Hall as [|elem items Helem _ IH]; intros seen w.
  - exists []. rewrite printed_nil. reflexivity.
  - destruct Helem as (d & t & id & n & -> & Ht & Hid & Hn).
    cbn [WindowMapper.list_items]. cbv zeta.
    unfold get_default, get. rewrite Hid, Hn. cbn [fst snd].
    cbn [WindowMapper.hashable].
    unfold bind at 1. unfold prop at 1.
    unfold bind at 1. unfold prop at 1.
    destruct (existsb _ seen).
    + apply IH.
    + assert (Hfmt : exists s,
        WindowMapper.format_right 5 (value_or (VStr id) (VStr "-")) = Ok s).
      { unfold value_or. destruct (truthy (VStr id)); eexists; reflexivity. }
      assert (Hslice : exists s,
        WindowMapper.slice_to 50 (value_or (VStr n) (VStr "(no name)"))
        = Ok (VStr s)).
      { unfold value_or. destruct (truthy (VStr n)); eexists; reflexivity. }
      destruct Hfmt as (id_text & Hfmt). destruct Hslice as (name_text & Hslice).
      unfold bind at 1. unfold prop at 1. rewrite Hfmt.
      unfold bind at 1. unfold prop at 1. rewrite Hslice.
      unfold bind at 1. rewrite print_run.
      match goal with
      | |- context [WindowMapper.list_items items ?s (printed w [?l])] =>
          destruct (IH s (printed w [l])) as (lines & Hrun);
          exists (l :: lines); rewrite Hrun, printed_printed; reflexivity
      end.
Qed.

Lemma run_state_start (st : WindowMapper.RunState) :
  st = run_state_with st [] [] 0.
Proof.
  destruct st as [c w n]. unfold run_state_with. cbn.
  rewrite app_nil_r, printed_nil, Nat.add_0_r. reflexivity.
Qed.

Lemma on_console_run {A : Type} (m : M World A) (r : Result A)
    (st : WindowMapper.RunState) (new_calls : list Call)
    (lines more : list string) (readings : nat) :
  m (printed (WindowMapper.run_world st) lines)
  = (r, printed (printed (WindowMapper.run_world st) lines) more) ->
  WindowMapper.on_console m (run_state_with st new_calls lines readings)
  = (r, run_state_with st new_calls (lines ++ more) readings).
Proof.
  intros H. unfold WindowMapper.on_console, run_state_with.
  cbn [WindowMapper.run_world WindowMapper.run_calls WindowMapper.run_clock].
  rewrite H, printed_printed. reflexivity.
Qed.

Lemma on_console_print (line : string) (st : WindowMapper.RunState)
    (new_calls : list Call) (lines : list string) (readings : nat) :
  WindowMapper.on_console (print line)
    (run_state_with st new_calls lines readings)
  = (Ok tt, run_state_with st new_calls (lines ++ [line]) readings).
Proof. apply on_console_run. apply print_run. Qed.

Lemma on_desktop_run {A : Type} (m : M (list Call) A) (r : Result A)
    (st : WindowMapper.RunState) (new_calls more : list Call)
    (lines : list string) (readings : nat) :
  m (WindowMapper.run_calls st ++ new_calls)%list
  = (r, ((WindowMapper.run_calls st ++ new_calls) ++ more)%list) ->
  WindowMapper.on_desktop m (run_state_with st new_calls lines readings)
  = (r, run_state_with st (new_calls ++ more) lines readings).
Proof.
  intros H. unfold WindowMapper.on_desktop, run_state_with.
  cbn [WindowMapper.run_world WindowMapper.run_calls WindowMapper.run_clock].
  rewrite H, app_assoc. reflexivity.
Qed.

Lemma read_clock_run (now : nat -> string) (st : WindowMapper.RunState)
    (new_calls : list Call) (lines : list string) (readings : nat) :
  WindowMapper.read_clock now (run_state_with st new_calls lines readings)
  = (Ok (now (WindowMapper.run_clock st + readings)%nat),
     run_state_with st new_calls lines (S readings)).
Proof.
  unfold WindowMapper.read_clock, run_state_with.
  cbn [WindowMapper.run_world WindowMapper.run_calls WindowMapper.run_clock].
  rewrite Nat.add_succ_r. reflexivity.
Qed.

Lemma map_window_elements_run (max_depth : Z) (window : Element)
    (s : list Call) :
  WindowMapper.map_window_elements max_depth window s
  = (Ok (records_of (walk max_depth window 0)),
     (s ++ flat_calls max_depth window 0)%list).
Proof.
  unfold WindowMapper.map_window_elements. rewrite mapper_scan_run.
  reflexivity.
Qed.

Lemma list_types_run (by_type : list (value * list value))
    (keys : list value) :
  groups_ok by_type ->
  forall (st : WindowMapper.RunState) (new_calls : list Call)
         (lines : list string) (readings : nat),
    exists more,
      UIInspector.for_each keys
        (fun ctrl_type =>
           let items := WindowMapper.items_of by_type ctrl_type in
           WindowMapper.on_console
             (print (nl ++ "  === " ++ text_of ctrl_type ++ " ("
                     ++ str_of_Z (len items) ++ ") ===")) ;;;
           WindowMapper.on_console (WindowMapper.list_items items []))
        (run_state_with st new_calls lines readings)
      = (Ok tt, run_state_with st new_calls (lines ++ more) readings).
Proof.
  intros Hok. induction keys as [|k keys IH]; intros st c lines n.
  - exists []. rewrite app_nil_r. reflexivity.
  - cbn [UIInspector.for_each].
    set (rest := UIInspector.for_each keys _). cbv beta zeta.
    set (line := (nl ++ "  === " ++ text_of k ++ " ("
                  ++ str_of_Z (len (WindowMapper.items_of by_type k))
                  ++ ") ===")%string).
    unfold bind at 1. unfold bind at 1. rewrite on_console_print.
    destruct (list_items_run _ (items_of_ok by_type k Hok) []
                (printed (WindowMapper.run_world st) (lines ++ [line])%list))
      as (more & Hrun).
    rewrite (on_console_run _ _ _ _ _ _ _ Hrun).
    destruct (IH st c ((lines ++ [line]) ++ more)%list n) as (more' & Hrest).
    subst rest. exists ([line] ++ more ++ more')%list.
    etransitivity; [exact Hrest|]. rewrite <- !app_assoc. reflexivity.
Qed.

Lemma map_window_run (max_depth : Z)
    (application_window : value -> Result Element) (now : nat -> string)
    (title : string) (h w ht : Z) (all_mappings : list (value * value))
    (st : WindowMapper.RunState) (new_calls : list Call)
    (lines : list string) (readings : nat) :
  exists more,
    WindowMapper.map_window max_depth application_window now
      (VDict [("title", VStr title); ("handle", VInt h);
              ("width", VInt w); ("height", VInt ht)])
      (VStr title) all_mappings
      (run_state_with st new_calls lines readings)
    = match application_window (VInt h) with
      | Raise msg => (Raise msg, run_state_with st new_calls lines readings)
      | Ok window =>
          (Ok (WindowMapper.set_mapping all_mappings (VStr title)
                 (VDict
                    [("size", VStr (str_of_Z w ++ "x" ++ str_of_Z ht));
                     ("elements",
                      VList (records_of (walk max_depth window 0)));
                     ("mapped_at",
                      VStr (now (WindowMapper.run_clock st + readings)%nat))])),
           run_state_with st
             (new_calls ++ flat_calls max_depth window 0)
             (lines ++ more) (S readings))
      end.
Proof.
  unfold WindowMapper.map_window.
  unfold bind at 1. unfold prop at 1.
  cbn [WindowMapper.subscript lookup String.eqb Ascii.eqb Bool.eqb].
  unfold bind at 1. unfold prop at 1.
  destruct (application_window (VInt h)) as [window|msg];
    [|exists []; reflexivity].
  rewrite (bind_ok _ _ _ _ _
             (on_desktop_run _ _ _ _ _ _ _ (map_window_elements_run _ _ _))).
  destruct (group_by_type_ok _ (records_listable (walk max_depth window 0)))
    as (by_type & Hgroup & Hok).
  unfold bind at 1. unfold prop at 1. rewrite Hgroup.
  rewrite (bind_ok _ _ _ _ _ (on_console_print _ _ _ _ _)).
  destruct (sorted_keys_ok by_type Hok) as (keys & Hkeys).
  unfold bind at 1. unfold prop at 1. rewrite Hkeys.
  match goal with
  | |- context [bind (UIInspector.for_each keys _) _
                  (run_state_with st ?c ?l ?n)] =>
      destruct (list_types_run by_type keys Hok st c l n) as (more & Hlist)
  end.
  rewrite (bind_ok _ _ _ _ _ Hlist).
  unfold bind at 1. unfold prop at 1.
  unfold bind at 1. unfold prop at 1.
  rewrite (bind_ok _ _ _ _ _ (read_clock_run _ _ _ _ _)).
  unfold bind at 1. unfold prop at 1. cbn [WindowMapper.hashable].
  unfold ret. cbn [text_of].
  eexists. rewrite <- !app_assoc. reflexivity.
Qed.

Lemma descriptor_accepted (win : Element) :
  title_and_size_ok win && handle_ok win = true ->
  exists w ht,
    descriptor win
    = VDict [("title", VStr (window_title win));
             ("handle", VInt (window_handle win));
             ("width", VInt w); ("height", VInt ht)]
    /\ window_size win = str_of_Z w ++ "x" ++ str_of_Z ht.
Proof.
  unfold title_and_size_ok, handle_ok, descriptor, window_title,
    window_handle, window_size.
  intros H.
  destruct (window_text win) as [title|]; [|discriminate H].
  destruct (rectangle win) as [rect|]; [|discriminate H].
  destruct (width rect) as [wd|]; [|discriminate H].
  destruct (height rect) as [ht|]; [|discriminate H].
  destruct (handle win) as [h|]; [|rewrite andb_false_r in H; discriminate H].
  exists wd, ht. split; reflexivity.
Qed.

Lemma accepted_ok (wins : list Element) :
  Forall (fun win => title_and_size_ok win && handle_ok win = true)
    (accepted wins).
Proof.
  apply Forall_forall. intros win Hin. apply filter_In in Hin. tauto.
Qed.

Lemma list_windows_run (wins : list Element) :
  Forall (fun win => title_and_size_ok win && handle_ok win = true) wins ->
  forall i w,
    WindowMapper.list_windows i (map descriptor wins) w
    = (Ok tt, printed w (window_lines i wins)).
Proof.
  intros Hall. induction Hall as [|win wins Hwin _ IH]; intros i w.
  - cbn. rewrite printed_nil. reflexivity.
  - destruct (descriptor_accepted win Hwin) as (wd & ht & Hdesc & Hsize).
    cbn [map WindowMapper.list_windows window_lines]. rewrite Hdesc, Hsize.
    cbn [WindowMapper.subscript lookup String.eqb Ascii.eqb Bool.eqb].
    unfold bind at 1. unfold prop at 1.
    unfold bind at 1. unfold prop at 1.
    unfold bind at 1. unfold prop at 1.
    unfold bind at 1. rewrite print_run, IH, printed_printed.
    reflexivity.
Qed.

Lemma map_windows_run (max_depth : Z)
    (application_window : value -> Result Element) (now : nat -> string)
    (wins : list Element) :
  Forall (fun win => title_and_size_ok win && handle_ok win = true) wins ->
  forall (all_mappings : list (value * value)) (st : WindowMapper.RunState)
         (new_calls : list Call) (lines : list string) (readings : nat),
    exists more,
      WindowMapper.map_windows max_depth application_window now
        (map descriptor wins) all_mappings
        (run_state_with st new_calls lines readings)
      = (Ok (mappings_of max_depth application_window now wins
               (WindowMapper.run_clock st + readings)%nat all_mappings),
         run_state_with st
           (new_calls ++ mapping_calls max_depth application_window wins)
           (lines ++ more)
           (readings + List.length (connected application_window wins))).
Proof.
  intros Hall. induction Hall as [|win wins Hwin _ IH];
    intros all_mappings st c lines n.
  - exists []. cbn. rewrite !app_nil_r, Nat.add_0_r. reflexivity.
  - destruct (descriptor_accepted win Hwin) as (wd & ht & Hdesc & Hsize).
    cbn [map WindowMapper.map_windows mappings_of]. rewrite Hdesc.
    unfold bind at 1. unfold prop at 1.
    cbn [WindowMapper.subscript lookup String.eqb Ascii.eqb Bool.eqb].
    rewrite (bind_ok _ _ _ _ _ (on_console_print _ _ _ _ _)).
    rewrite (bind_ok _ _ _ _ _ (on_console_print _ _ _ _ _)).
    rewrite (bind_ok _ _ _ _ _ (on_console_print _ _ _ _ _)).
    unfold bind at 1. unfold try_except at 1.
    match goal with
    | |- context [WindowMapper.map_window _ _ _ _ _ _
                    (run_state_with st c ?l n)] =>
        destruct (map_window_run max_depth application_window now
                    (window_title win) (window_handle win) wd ht
                    all_mappings st c l n) as (more & Hrun)
    end.
    rewrite Hrun. unfold mapping_calls, connected.
    cbn [flat_map filter].
    destruct (application_window (VInt (window_handle win)))
      as [window|msg].
    + match goal with
      | |- context [WindowMapper.map_windows _ _ _ _ ?m
                      (run_state_with st ?c' ?l' ?n')] =>
          destruct (IH m st c' l' n') as (more' & Hrest)
      end.
      exists ([(nl ++ str_repeat "=" 70)%string;
               ("MAPPING: " ++ text_of (VStr (window_title win)))%string;
               str_repeat "=" 70] ++ more ++ more')%list.
      etransitivity; [exact Hrest|].
      unfold mapping_of. rewrite Hsize.
      cbn [List.length]. rewrite <- !app_assoc.
      rewrite !Nat.add_succ_r. reflexivity.
    + rewrite (bind_ok _ _ _ _ _ (on_console_print _ _ _ _ _)).
      unfold ret at 1.
      match goal with
      | |- context [WindowMapper.map_windows _ _ _ _ ?m
                      (run_state_with st ?c' ?l' ?n')] =>
          destruct (IH m st c' l' n') as (more' & Hrest)
      end.
      exists ([(nl ++ str_repeat "=" 70)%string;
               ("MAPPING: " ++ text_of (VStr (window_title win)))%string;
               str_repeat "=" 70; ("  Error: " ++ msg)%string] ++ more')%list.
      etransitivity; [exact Hrest|].
      rewrite <- !app_assoc. reflexivity.
Qed.

Lemma run_export_returns (export_path : option path) (all_mappings : dict)
    (w : World) :
  exists w',
    WindowMapper.run_export export_path all_mappings w = (Ok tt, w')
    /\ dirs w' = dirs w.
Proof.
  unfold WindowMapper.run_export.
  destruct export_path as [[|part parts]|];
    try (exists w; split; reflexivity).
  unfold try_except, bind.
  destruct (open_write (part :: parts) (VDict all_mappings) w)
    as [[[]|msg] w1] eqn:Hopen.
  - eexists. split; [reflexivity|].
    unfold open_write in Hopen.
    destruct (negb (is_dir w (parent (part :: parts))));
      [discriminate Hopen|].
    destruct (is_dir w (part :: parts)); [discriminate Hopen|].
    injection Hopen as <-. reflexivity.
  - eexists. split; [reflexivity|].
    unfold open_write in Hopen.
    destruct (negb (is_dir w (parent (part :: parts))));
      [injection Hopen as _ <-; reflexivity|].
    destruct (is_dir w (part :: parts));
      [injection Hopen as _ <-; reflexivity|discriminate Hopen].
Qed.

Lemma run_run (title_pattern : option string) (max_depth : Z)
    (desktop : Desktop) (application_window : value -> Result Element)
    (now : nat -> string) (export_path : option path)
    (st : WindowMapper.RunState) :
  match all_windows title_pattern desktop with
  | Raise msg =>
      WindowMapper.run title_pattern max_depth desktop application_window
        now export_path st
      = (Raise msg,
         run_state_with st (enumeration_calls title_pattern desktop)
           run_banner 0)
  | Ok wins =>
      match accepted wins with
      | [] =>
          WindowMapper.run title_pattern max_depth desktop
            application_window now export_path st
          = (Ok [],
             run_state_with st
               (enumeration_calls title_pattern desktop
                ++ flat_map entry_calls wins)
               (run_banner
                ++ [nl ++ "Found " ++ str_of_Z 0 ++ " windows:";
                    nl ++ "[WARNING] No matching windows found."])
               0)
      | _ =>
          exists more,
            WindowMapper.run title_pattern max_depth desktop
              application_window now export_path st
            = (let result :=
                 mappings_of max_depth application_window now (accepted wins)
                   (WindowMapper.run_clock st) [] in
               let st1 :=
                 run_state_with st
                   (enumeration_calls title_pattern desktop
                    ++ flat_map entry_calls wins
                    ++ mapping_calls max_depth application_window
                         (accepted wins))
                   (run_banner
                    ++ [nl ++ "Found " ++ str_of_Z (len (accepted wins))
                        ++ " windows:"]
                    ++ window_lines 0 (accepted wins) ++ more)
                   (List.length (connected application_window
                                   (accepted wins))) in
               (Ok result,
                {| WindowMapper.run_calls := WindowMapper.run_calls st1;
                   WindowMapper.run_world :=
                     printed
                       (snd (WindowMapper.run_export export_path
                               (WindowMapper.json_object result)
                               (WindowMapper.run_world st1)))
                       run_footer;
                   WindowMapper.run_clock := WindowMapper.run_clock st1 |}))
      end
  end.
Proof.
  assert (Hstart :
    WindowMapper.run title_pattern max_depth desktop application_window now
      export_path st
    = (windows <-
         WindowMapper.on_desktop
           (WindowMapper.find_windows title_pattern desktop) ;;
       WindowMapper.on_console
         (print (nl ++ "Found " ++ str_of_Z (len windows) ++ " windows:")) ;;;
       WindowMapper.on_console (WindowMapper.list_windows 0 windows) ;;;
       match windows with
       | [] =>
           WindowMapper.on_console
             (print (nl ++ "[WARNING] No matching windows found.")) ;;;
           ret []
       | _ =>
           all_mappings <-
             WindowMapper.map_windows max_depth application_window now
               windows [] ;;
           WindowMapper.on_console
             (WindowMapper.run_export export_path
                (WindowMapper.json_object all_mappings)) ;;;
           WindowMapper.on_console (print (nl ++ str_repeat "=" 70)) ;;;
           WindowMapper.on_console (print "MAPPING COMPLETE") ;;;
           WindowMapper.on_console (print (str_repeat "=" 70)) ;;;
           ret all_mappings
       end) (run_state_with st [] run_banner 0)).
  { unfold WindowMapper.run. rewrite (run_state_start st) at 1.
    rewrite (bind_ok _ _ _ _ _ (on_console_print _ _ _ _ _)).
    rewrite (bind_ok _ _ _ _ _ (on_console_print _ _ _ _ _)).
    rewrite (bind_ok _ _ _ _ _ (on_console_print _ _ _ _ _)).
    reflexivity. }
  assert (Hfind :
    WindowMapper.on_desktop (WindowMapper.find_windows title_pattern desktop)
      (run_state_with st [] run_banner 0)
    = match all_windows title_pattern desktop with
      | Ok wins =>
          (Ok (map descriptor (accepted wins)),
           run_state_with st
             (enumeration_calls title_pattern desktop
              ++ flat_map entry_calls wins) run_banner 0)
      | Raise msg =>
          (Raise msg,
           run_state_with st (enumeration_calls title_pattern desktop)
             run_banner 0)
      end).
  { unfold WindowMapper.on_desktop. rewrite find_windows_trace.
    unfold run_state_with.
    cbn [WindowMapper.run_calls WindowMapper.run_world WindowMapper.run_clock].
    rewrite !app_nil_r.
    destruct (all_windows title_pattern desktop); reflexivity. }
  destruct (all_windows title_pattern desktop) as [wins|msg].
  2:{ rewrite Hstart. unfold bind at 1. rewrite Hfind. reflexivity. }
  pose proof (accepted_ok wins) as Hok.
  destruct (accepted wins) as [|win rest] eqn:Hacc.
  - rewrite Hstart, (bind_ok _ _ _ _ _ Hfind).
    unfold bind at 1. rewrite on_console_print.
    unfold bind at 1.
    rewrite (on_console_run _ _ _ _ _ _ _ (list_windows_run [] Hok 0 _)).
    cbn [map window_lines].
    unfold bind at 1. rewrite on_console_print.
    unfold ret. rewrite app_nil_r, <- !app_assoc. reflexivity.
  - assert (Hne : accepted wins <> []) by (rewrite Hacc; discriminate).
    rewrite <- Hacc in *. clear Hacc.
    rewrite Hstart, (bind_ok _ _ _ _ _ Hfind).
    unfold bind at 1. rewrite on_console_print.
    unfold bind at 1.
    rewrite (on_console_run _ _ _ _ _ _ _
               (list_windows_run (accepted wins) Hok 0 _)).
    unfold len at 1. rewrite length_map. fold (len (accepted wins)).
    assert (Hmatch : forall (A : Type) (a b : A),
      match map descriptor (accepted wins) with
      | [] => a
      | _ :: _ => b
      end = b).
    { intros A a b. destruct (accepted wins); [contradiction|reflexivity]. }
    rewrite Hmatch. clear Hmatch.
    match goal with
    | |- context [bind (WindowMapper.map_windows _ _ _ _ _) _
                    (run_state_with st ?c ?l ?n)] =>
        destruct (map_windows_run max_depth application_window now
                    (accepted wins) Hok [] st c l n) as (more & Hrun)
    end.
    exists more. rewrite (bind_ok _ _ _ _ _ Hrun).
    rewrite Nat.add_0_r.
    set (result := mappings_of max_depth application_window now
                     (accepted wins) (WindowMapper.run_clock st) []).
    cbv zeta.
    unfold bind at 1. unfold WindowMapper.on_console at 1.
    match goal with
    | |- context [WindowMapper.run_export export_path ?m ?w] =>
        destruct (run_export_returns export_path m w) as (w' & Hexp & _)
    end.
    rewrite Hexp.
    rewrite <- !app_assoc in Hexp. cbn [Nat.add] in Hexp.
    rewrite <- !app_assoc. cbn [Nat.add].
    rewrite Hexp. cbn [snd].
    do 3 (unfold bind at 1; unfold WindowMapper.on_console at 1;
          cbn [WindowMapper.run_calls WindowMapper.run_world
               WindowMapper.run_clock];
          rewrite print_run).
    unfold ret. rewrite !printed_printed. reflexivity.
Qed.





Lemma run_returns (title_pattern : option string) (max_depth : Z)
    (desktop : Desktop) (application_window : value -> Result Element)
    (now : nat -> string) (export_path : option path)
    (wins : list Element) (st : WindowMapper.RunState) :
  all_windows title_pattern desktop = Ok wins ->
  exists lines,
    WindowMapper.run title_pattern max_depth desktop application_window now
      export_path st
    = (Ok (mappings_of max_depth application_window now (accepted wins)
             (WindowMapper.run_clock st) []),
       {| WindowMapper.run_calls :=
            (WindowMapper.run_calls st
             ++ enumeration_calls title_pattern desktop
             ++ flat_map entry_calls wins
             ++ mapping_calls max_depth application_window (accepted wins))%list;
          WindowMapper.run_world :=
            match accepted wins with
            | [] => printed (WindowMapper.run_world st) lines
            | _ =>
                printed
                  (snd (WindowMapper.run_export export_path
                          (WindowMapper.json_object
                             (mappings_of max_depth application_window now
                                (accepted wins)
                                (WindowMapper.run_clock st) []))
                          (printed (WindowMapper.run_world st) lines)))
                  run_footer
            end;
          WindowMapper.run_clock :=
            (WindowMapper.run_clock st
             + List.length (connected application_window (accepted wins)))%nat
       |}).
Proof.
  intros Hall.
  pose proof (run_run title_pattern max_depth desktop application_window now
                export_path st) as Hrun.
  rewrite Hall in Hrun.
  destruct (accepted wins) as [|win rest] eqn:Hacc.
  - eexists. rewrite Hrun. unfold run_state_with. cbn.
    rewrite Nat.add_0_r, app_nil_r. reflexivity.
  - destruct Hrun as (more & Hrun). eexists. rewrite Hrun.
    cbv zeta. unfold run_state_with.
    cbn [WindowMapper.run_calls WindowMapper.run_world WindowMapper.run_clock].
    reflexivity.
Qed.














Lemma is_dir_printed (w : World) (lines : list string) (p : path) :
  is_dir (printed w lines) p = is_dir w p.
Proof. destruct p; reflexivity. Qed.





(* ================================================================== *)
(** ** The command line *)
(* ================================================================== *)

Lemma on_platform_run {A : Type} (m : M (list Call) A) (r : Result A)
    (st : UIInspector.Session) (window : option Element)
    (new_calls more : list Call) (lines : list string) :
  m (UIInspector.calls st ++ new_calls)%list
  = (r, ((UIInspector.calls st ++ new_calls) ++ more)%list) ->
  UIInspector.on_platform m (session_with st window new_calls lines)
  = (r, session_with st window (new_calls ++ more) lines).
Proof.
  intros H. unfold UIInspector.on_platform, session_with.
  cbn [UIInspector.self_window UIInspector.self_max_depth
       UIInspector.self_elements UIInspector.calls UIInspector.world].
  rewrite H, app_assoc. reflexivity.
Qed.

Lemma method_scan_run (st : UIInspector.Session) (win : Element)
    (new_calls : list Call) (lines : list string)
    (screen_name scanned_at : string) :
  UIInspector.Method.scan_current_screen screen_name scanned_at
    (session_with st (Some win) new_calls lines)
  = (Ok (scanned_screen (UIInspector.self_max_depth st) win screen_name
           scanned_at),
     {| UIInspector.self_window := Some win;
        UIInspector.self_max_depth := UIInspector.self_max_depth st;
        UIInspector.self_elements :=
          UIInspector.set_item (UIInspector.self_elements st) screen_name
            (VDict (scanned_screen (UIInspector.self_max_depth st) win
                      screen_name scanned_at));
        UIInspector.calls :=
          (UIInspector.calls st ++ new_calls
           ++ scan_calls (UIInspector.self_max_depth st) win 0)%list;
        UIInspector.world :=
          printed (UIInspector.world st)
            (lines
             ++ [nl ++ "[Scanning] " ++ screen_name ++ " (depth="
                 ++ str_of_Z (UIInspector.self_max_depth st) ++ ")...";
                 "           This may take a moment..."]) |}).
Proof.
  unfold UIInspector.Method.scan_current_screen.
  cbn [session_with UIInspector.self_window UIInspector.self_max_depth].
  fold (session_with st (Some win) new_calls lines).
  rewrite (bind_ok _ _ _ _ _ (in_world_print _ _ _ _ _)).
  rewrite (bind_ok _ _ _ _ _ (in_world_print _ _ _ _ _)).
  rewrite (bind_ok _ _ _ _ _
             (on_platform_run _ _ _ _ _ _ _ (scan_element_run _ _ _ _ _))).
  unfold bind, modify, ret, session_with, scanned_screen.
  rewrite scanned_eq.
  cbn [UIInspector.self_window UIInspector.self_max_depth
       UIInspector.self_elements UIInspector.calls UIInspector.world].
  rewrite <- !app_assoc. reflexivity.
Qed.

Lemma export_to_yaml_file (elements : dict) (output_path : option path)
    (now : string) (w : World) :
  existsb (is_file w) (prefixes (parent (export_path_of output_path)))
  = false ->
  is_dir w (export_path_of output_path) = false ->
  exists w',
    UIInspector.export_to_yaml elements output_path now w
    = (Ok (export_path_of output_path), w')
    /\ read_file w' (export_path_of output_path)
       = Some (VDict
                 [("version", VStr "1.0"); ("generated_at", VStr now);
                  ("screens",
                   VDict
                     (map (fun screen =>
                             (fst screen,
                              UIInspector.screen_export (snd screen)))
                        elements))]).
Proof.
  intros Hfiles Hnotdir.
  destruct (mkdir_parents_ok _ w Hfiles) as (w1 & Hmk & _).
  destruct (is_dir_after_mkdir _ w w1 Hmk) as (Hdir & Hp & Hf & Ho & Hkeep).
  rewrite export_to_yaml_unfold, Hmk.
  destruct (open_write (export_path_of output_path) _ w1)
    as [[[]|msg] w2] eqn:Hopen.
  - destruct (read_file_open_write _ _ _ _ Hopen) as (Hread & _).
    eexists. split; [reflexivity|].
    unfold read_file in *. cbn [files]. exact Hread.
  - unfold open_write in Hopen. rewrite Hdir, Hp, Hnotdir in Hopen.
    discriminate Hopen.
Qed.

(** X28.  [inspect] with a title returns the exit status 1 when the
    connection fails (the window does not resolve, or its title or handle
    cannot be read), also under [--export]: nothing is scanned, no file is
    written and the interactive session is not entered; the only platform
    calls and printed lines are those of [connect]. *)
Theorem cmd_inspect_not_connected (args : Cli.InspectArgs)
    (desktop : Desktop) (desktop_window : string -> Result Element)
    (scanned_at generated_at : string)
    (interactive_mode : M UIInspector.Session unit) (w : World)
    (pattern msg : string) :
  Cli.inspect_title args = Some pattern ->
  pattern <> "" ->
  connect_error desktop_window pattern = Some msg ->
  Cli.cmd_inspect args desktop desktop_window scanned_at generated_at
    interactive_mode w
  = (Ok 1,
     session_with (new_inspector (Cli.inspect_depth args) w)
       (match desktop_window pattern with
        | Ok win => Some win
        | Raise _ => None
        end)
       (match desktop_window pattern with
        | Ok win =>
            ElementCall OpWindowText win
            :: match window_text win with
               | Ok _ => [ElementCall OpHandle win]
               | Raise _ => []
               end
        | Raise _ => []
        end)
       (connect_banner
        ++ match desktop_window pattern with
           | Ok win =>
               match window_text win with
               | Ok title => [nl ++ "[OK] Found window: " ++ title]
               | Raise _ => []
               end
           | Raise _ => []
           end
        ++ [nl ++ "[ERROR] Window not found matching: " ++ pattern
            ++ " (" ++ msg ++ ")"])).
Proof.
  intros Htitle Hne Herr. unfold Cli.cmd_inspect. cbv zeta.
  fold (new_inspector (Cli.inspect_depth args) w).
  unfold bind at 1.
  rewrite (connect_run (Cli.inspect_title args) desktop desktop_window None
             pattern (new_inspector (Cli.inspect_depth args) w));
    [|rewrite Htitle; reflexivity|exact Hne].
  cbv zeta. unfold connect_error in Herr.
  destruct (desktop_window pattern) as [win|m].
  2:{ injection Herr as ->. reflexivity. }
  destruct (window_text win) as [title|m].
  2:{ injection Herr as ->. reflexivity. }
  destruct (handle win) as [h|m]; [discriminate|].
  injection Herr as ->. reflexivity.
Qed.

Lemma cmd_inspect_not_connected_witness :
  Cli.inspect_title
    {| Cli.inspect_title := Some "Ghost"; Cli.inspect_depth := 4;
       Cli.inspect_export := true; Cli.inspect_screen := "main";
       Cli.inspect_output := None |}
  = Some "Ghost"
  /\ "Ghost" <> ""
  /\ connect_error (fun _ => Ok Fixtures.stale_window) "Ghost"
     = Some "COMError"
  /\ Cli.cmd_inspect
       {| Cli.inspect_title := Some "Ghost"; Cli.inspect_depth := 4;
          Cli.inspect_export := true; Cli.inspect_screen := "main";
          Cli.inspect_output := None |}
       (Fixtures.desktop_of []) (fun _ => Ok Fixtures.stale_window)
       "t1" "t2" (ret tt) empty_world
     = (Ok 1,
        session_with (new_inspector 4 empty_world)
          (Some Fixtures.stale_window)
          [ElementCall OpWindowText Fixtures.stale_window;
           ElementCall OpHandle Fixtures.stale_window]
          (connect_banner
           ++ [nl ++ "[OK] Found window: " ++ "Ghost"]
           ++ [nl ++ "[ERROR] Window not found matching: " ++ "Ghost"
               ++ " (" ++ "COMError" ++ ")"])).
Proof.
  assert (Hne : "Ghost" <> "") by discriminate.
  split; [reflexivity|]. split; [exact Hne|]. split; [reflexivity|].
  apply (cmd_inspect_not_connected
           {| Cli.inspect_title := Some "Ghost"; Cli.inspect_depth := 4;
              Cli.inspect_export := true; Cli.inspect_screen := "main";
              Cli.inspect_output := None |}
           (Fixtures.desktop_of []) (fun _ => Ok Fixtures.stale_window)
           "t1" "t2" (ret tt) empty_world "Ghost" "COMError");
    first [reflexivity | exact Hne].
Defined.

(** X29.  [inspect --export] with a title whose window resolves and can be
    read, when no ancestor directory of the output path is a file and the
    path is not a directory, returns the exit status 0 after one scan of
    the window to the depth given: the inspector holds the window and the
    one screen under the label given, the platform calls are those of
    [connect] followed by those of the scan, and the file at the output
    path (or [inspector_export.yaml]) holds the document with this one
    screen. *)
Theorem cmd_inspect_exports (args : Cli.InspectArgs)
    (desktop : Desktop) (desktop_window : string -> Result Element)
    (scanned_at generated_at : string)
    (interactive_mode : M UIInspector.Session unit) (w : World)
    (pattern title : string) (win : Element) (h : Z) :
  Cli.inspect_title args = Some pattern ->
  pattern <> "" ->
  desktop_window pattern = Ok win ->
  window_text win = Ok title ->
  handle win = Ok h ->
  Cli.inspect_export args = true ->
  existsb (is_file w)
    (prefixes (parent (export_path_of (Cli.inspect_output args)))) = false ->
  is_dir w (export_path_of (Cli.inspect_output args)) = false ->
  exists st',
    Cli.cmd_inspect args desktop desktop_window scanned_at generated_at
      interactive_mode w
    = (Ok 0, st')
    /\ UIInspector.self_window st' = Some win
    /\ UIInspector.self_elements st'
       = [(Cli.inspect_screen args,
           VDict (scanned_screen (Cli.inspect_depth args) win
                    (Cli.inspect_screen args) scanned_at))]
    /\ UIInspector.calls st'
       = (ElementCall OpWindowText win :: ElementCall OpHandle win
          :: scan_calls (Cli.inspect_depth args) win 0)
    /\ read_file (UIInspector.world st')
         (export_path_of (Cli.inspect_output args))
       = Some (VDict
                 [("version", VStr "1.0");
                  ("generated_at", VStr generated_at);
                  ("screens",
                   VDict
                     [(Cli.inspect_screen args,
                       UIInspector.screen_export
                         (VDict (scanned_screen (Cli.inspect_depth args) win
                                   (Cli.inspect_screen args)
                                   scanned_at)))])]).
Proof.
  intros Htitle Hne Hwin Htext Hh Hexport Hfiles Hnotdir.
  unfold Cli.cmd_inspect. cbv zeta.
  fold (new_inspector (Cli.inspect_depth args) w).
  unfold bind at 1.
  rewrite (connect_run (Cli.inspect_title args) desktop desktop_window None
             pattern (new_inspector (Cli.inspect_depth args) w));
    [|rewrite Htitle; reflexivity|exact Hne].
  cbv zeta. rewrite Hwin, Htext, Hh, Hexport. cbn [negb].
  unfold bind at 1. unfold bind at 1.
  rewrite method_scan_run.
  unfold bind at 1. unfold UIInspector.Method.export_to_yaml at 1.
  unfold UIInspector.in_world at 1.
  cbn [UIInspector.self_window UIInspector.self_max_depth
       UIInspector.self_elements UIInspector.calls UIInspector.world
       new_inspector].
  match goal with
  | |- context [UIInspector.export_to_yaml ?els ?o ?n ?w0] =>
      destruct (export_to_yaml_file els o n w0) as (w' & Hexp & Hread);
        [exact Hfiles|rewrite is_dir_printed; exact Hnotdir|]
  end.
  rewrite Hexp. unfold ret.
  eexists. split; [reflexivity|].
  cbn [UIInspector.self_window UIInspector.self_max_depth
       UIInspector.self_elements UIInspector.calls UIInspector.world].
  split; [reflexivity|]. split; [reflexivity|]. split; [reflexivity|].
  exact Hread.
Qed.

Lemma cmd_inspect_exports_witness :
  Cli.inspect_title
    {| Cli.inspect_title := Some "Test"; Cli.inspect_depth := 4;
       Cli.inspect_export := true; Cli.inspect_screen := "main";
       Cli.inspect_output := Some ["out"; "elements.yaml"] |}
  = Some "Test"
  /\ "Test" <> ""
  /\ (fun _ : string => Ok Fixtures.mock_window) "Test"
     = Ok Fixtures.mock_window
  /\ window_text Fixtures.mock_window = Ok "Test Window"
  /\ handle Fixtures.mock_window = Ok 12345
  /\ exists st',
       Cli.cmd_inspect
         {| Cli.inspect_title := Some "Test"; Cli.inspect_depth := 4;
            Cli.inspect_export := true; Cli.inspect_screen := "main";
            Cli.inspect_output := Some ["out"; "elements.yaml"] |}
         (Fixtures.desktop_of [Fixtures.mock_window])
         (fun _ => Ok Fixtures.mock_window) "t1" "t2" (ret tt) empty_world
       = (Ok 0, st')
       /\ UIInspector.self_window st' = Some Fixtures.mock_window
       /\ UIInspector.self_elements st'
          = [("main",
              VDict (scanned_screen 4 Fixtures.mock_window "main" "t1"))]
       /\ UIInspector.calls st'
          = (ElementCall OpWindowText Fixtures.mock_window
             :: ElementCall OpHandle Fixtures.mock_window
             :: scan_calls 4 Fixtures.mock_window 0)
       /\ read_file (UIInspector.world st') ["out"; "elements.yaml"]
          = Some (VDict
                    [("version", VStr "1.0");
                     ("generated_at", VStr "t2");
                     ("screens",
                      VDict
                        [("main",
                          UIInspector.screen_export
                            (VDict (scanned_screen 4 Fixtures.mock_window
                                      "main" "t1")))])]).
Proof.
  assert (Hne : "Test" <> "") by discriminate.
  split; [reflexivity|]. split; [exact Hne|]. split; [reflexivity|].
  split; [reflexivity|]. split; [reflexivity|].
  apply (cmd_inspect_exports
           {| Cli.inspect_title := Some "Test"; Cli.inspect_depth := 4;
              Cli.inspect_export := true; Cli.inspect_screen := "main";
              Cli.inspect_output := Some ["out"; "elements.yaml"] |}
           (Fixtures.desktop_of [Fixtures.mock_window])
           (fun _ => Ok Fixtures.mock_window) "t1" "t2" (ret tt) empty_world
           "Test" "Test Window" Fixtures.mock_window 12345);
    first [reflexivity | exact Hne].
Defined.

(** X30.  [map] returns the exit status 0 whenever the enumeration of the
    windows succeeds: also when no window is kept, when every connection
    fails and when the export fails.  It raises, with the exception of the
    enumeration, only when the enumeration and its fallback raise. *)
Theorem cmd_map_exit_status (args : Cli.MapArgs) (desktop : Desktop)
    (application_window : value -> Result Element) (now : nat -> string)
    (st : WindowMapper.RunState) :
  fst (Cli.cmd_map args desktop application_window now st)
  = match all_windows (Cli.map_title args) desktop with
    | Ok _ => Ok 0
    | Raise msg => Raise msg
    end.
Proof.
  unfold Cli.cmd_map. unfold bind.
  pose proof (run_run (Cli.map_title args) (Cli.map_depth args) desktop
                application_window now (Cli.map_export args) st) as Hrun.
  destruct (all_windows (Cli.map_title args) desktop) as [wins|msg] eqn:Hall.
  - destruct (run_returns (Cli.map_title args) (Cli.map_depth args) desktop
                application_window now (Cli.map_export args) wins st Hall)
      as (lines & Hret).
    rewrite Hret. reflexivity.
  - rewrite Hrun. reflexivity.
Qed.
